(** * Waypoint generator of the local planner

    A shallow embedding of [local_planner/src/nodes/waypoint_generator.cpp]
    (class [avoidance::WaypointGenerator]) and of the declarations of
    [local_planner/src/nodes/common.h] it relies on.

    Numbers.  The C++ code computes with [float] and [double].  The main
    development reads both as real numbers: arithmetic is exact, [toEigen]
    and [toPoint] (double <-> float conversions) lose nothing, and a
    comparison is the comparison of the reals.  Three tests that switch a
    flag or a mode on a binary32 quantity are computed as the code computes
    them, with every operation rounded: the goal-change test of
    [updateState], the distance test of the [tryPath] case and the two
    radius tests of [withinGoalRadius] (see [round32] below).  Module [F32]
    after the methods re-does the two direction computations of [goFast]
    and [backOff] on IEEE-754 binary32 values, where zero, infinity and
    not-a-number are values of their own.

    Time.  [ros::Time] and [ros::Duration] are counts of nanoseconds (a pair
    of 32-bit seconds and nanoseconds in ROS); they are integers here, and
    [ros::Time::now()] reads the next value of a clock kept in the state.

    Library code.  [Eigen]'s [norm], [squaredNorm], [normalized], [normalize]
    and [cwiseAbs] are written out as Eigen (3.3 and later) documents them.
    The helpers of this repository whose bodies are in files other than the
    two above ([velocityLinear], [nextYaw], [calculateFOV], ...) and the
    [tf] conversions are fields of the record [Externals].                  *)

From Stdlib Require Import Reals Lra Lia ZArith List Bool.
From Stdlib Require Import Floats.SpecFloat.
Import ListNotations.

Local Open Scope R_scope.

(** ** Comparisons of the reals as booleans *)

Definition Rltb (a b : R) : bool := if Rlt_dec a b then true else false.

Definition Rgtb (a b : R) : bool := Rltb b a.

(** Conversion of a floating-point value to [int]: truncation toward zero. *)
Definition truncZ (a : R) : Z :=
  if Rle_dec 0 a then Int_part a else (- Int_part (- a))%Z.

(** ** Vectors ([Eigen::Vector3f], [Eigen::Vector2f], [geometry_msgs::Point]) *)

Record Vector3f : Type := mkV3 { x : R; y : R; z : R }.

Record Vector2f : Type := mkV2 { x2 : R; y2 : R }.

(** [geometry_msgs::Point] is a triple of doubles. *)
Definition Point : Type := Vector3f.

Definition toEigen (p : Point) : Vector3f := p.

Definition toPoint (v : Vector3f) : Point := v.

Definition vadd (a b : Vector3f) : Vector3f :=
  mkV3 (x a + x b) (y a + y b) (z a + z b).

Definition vsub (a b : Vector3f) : Vector3f :=
  mkV3 (x a - x b) (y a - y b) (z a - z b).

Definition vscale (k : R) (a : Vector3f) : Vector3f :=
  mkV3 (k * x a) (k * y a) (k * z a).

Definition vdiv (a : Vector3f) (k : R) : Vector3f :=
  mkV3 (x a / k) (y a / k) (z a / k).

Definition cwiseAbs (a : Vector3f) : Vector3f :=
  mkV3 (Rabs (x a)) (Rabs (y a)) (Rabs (z a)).

Definition squaredNorm (a : Vector3f) : R :=
  x a * x a + y a * y a + z a * z a.

Definition norm (a : Vector3f) : R := sqrt (squaredNorm a).

(** [MatrixBase::normalized()] and [normalize()]: the vector divided by its
    norm; a vector whose squared norm is not positive is left as it is. *)
Definition normalized (a : Vector3f) : Vector3f :=
  let n2 := squaredNorm a in
  if Rgtb n2 0 then vdiv a (sqrt n2) else a.

Definition vadd2 (a b : Vector2f) : Vector2f := mkV2 (x2 a + x2 b) (y2 a + y2 b).

Definition vsub2 (a b : Vector2f) : Vector2f := mkV2 (x2 a - x2 b) (y2 a - y2 b).

Definition vscale2 (k : R) (a : Vector2f) : Vector2f := mkV2 (k * x2 a) (k * y2 a).

Definition vdiv2 (a : Vector2f) (k : R) : Vector2f := mkV2 (x2 a / k) (y2 a / k).

Definition squaredNorm2 (a : Vector2f) : R := x2 a * x2 a + y2 a * y2 a.

Definition norm2 (a : Vector2f) : R := sqrt (squaredNorm2 a).

Definition normalized2 (a : Vector2f) : Vector2f :=
  let n2 := squaredNorm2 a in
  if Rgtb n2 0 then vdiv2 a (sqrt n2) else a.

(** ** Binary floating-point rounding

    A [float] or [double] value is the real number it denotes.  An
    operation of the machine is the exact operation followed by rounding
    to the nearest value of the format, the one with an even significand
    of two at equal distance (IEEE 754 round-to-nearest-even, the default
    mode), with gradual underflow; values beyond the range of the format
    are not rounded to infinity. *)

Definition bpow (e : Z) : R := powerRZ 2 e.

(** The exponent of the binade of [x]: [bpow e <= |x| < bpow (e + 1)]. *)
Definition ilog2 (x : R) : Z := Int_part (ln (Rabs x) / ln 2).

(** The integer nearest to [r], the even one of two at equal distance. *)
Definition nearest_even (r : R) : Z :=
  let f := Int_part r in
  let d := r - IZR f in
  if Rltb d (1 / 2) then f
  else if Rltb (1 / 2) d then (f + 1)%Z
  else if Z.even f then f else (f + 1)%Z.

(** Rounding to a significand of [prec] bits with least exponent [emin]. *)
Definition round_to (prec emin : Z) (v : R) : R :=
  let q := Z.max (ilog2 v - prec + 1) emin in
  IZR (nearest_even (v / bpow q)) * bpow q.

(** binary32 ([float]) and binary64 ([double]). *)
Definition round32 : R -> R := round_to 24 (-149).

Definition round64 : R -> R := round_to 53 (-1074).

Definition add32 (a b : R) : R := round32 (a + b).

Definition sub32 (a b : R) : R := round32 (a - b).

Definition mul32 (a b : R) : R := round32 (a * b).

Definition sqrt32 (a : R) : R := round32 (sqrt a).

Definition mul64 (a b : R) : R := round64 (a * b).

(** [toEigen] as a conversion from double to float: each coordinate is
    rounded to binary32. *)
Definition toEigen32 (p : Point) : Vector3f :=
  mkV3 (round32 (x p)) (round32 (y p)) (round32 (z p)).

(** Difference, squared norm and norm of [Eigen::Vector3f] in binary32.  The
    squares are summed as Eigen's unrolled reduction of a 3-vector does. *)
Definition vsub32 (a b : Vector3f) : Vector3f :=
  mkV3 (sub32 (x a) (x b)) (sub32 (y a) (y b)) (sub32 (z a) (z b)).

Definition squaredNorm32 (a : Vector3f) : R :=
  add32 (mul32 (x a) (x a)) (add32 (mul32 (y a) (y a)) (mul32 (z a) (z a))).

Definition norm32 (a : Vector3f) : R := sqrt32 (squaredNorm32 a).

(** ** Messages *)

Record Quaternion : Type := mkQuat { qx : R; qy : R; qz : R; qw : R }.

(** [geometry_msgs::PoseStamped]: the header is never read, so a stamped
    pose is its pose. *)
Record PoseStamped : Type := mkPose { position : Point; orientation : Quaternion }.

(** [geometry_msgs::Twist] (and [TwistStamped], header dropped). *)
Record Twist : Type := mkTwist { linear : Vector3f; angular : Vector3f }.

Definition RosTime : Type := Z.

Definition Duration : Type := Z.

Bind Scope Z_scope with RosTime Duration.

Definition toSec (d : Duration) : R := IZR d / 1000000000.

(** [ros::Duration(n)] for a whole number of seconds. *)
Definition DurationSec (n : Z) : Duration := (n * 1000000000)%Z.

Inductive waypoint_choice : Type :=
  | hover | costmap | tryPath | direct | reachHeight | goBack.

Definition waypoint_choice_eqb (a b : waypoint_choice) : bool :=
  match a, b with
  | hover, hover | costmap, costmap | tryPath, tryPath
  | direct, direct | reachHeight, reachHeight | goBack, goBack => true
  | _, _ => false
  end.

(** [avoidanceOutput]: the directive of the upstream planner
    ([planner_info_]); the fields the generator reads. *)
Record avoidanceOutput : Type := mkAvoidanceOutput {
  waypoint_type : waypoint_choice;
  obstacle_ahead : bool;
  velocity_sigmoid_slope : R;
  min_speed : R;
  max_speed : R;
  reach_altitude : bool;
  pose : PoseStamped;
  offboard_pose : PoseStamped;
  back_off_point : Point;
  back_off_start_point : Point;
  costmap_direction_e : R;
  costmap_direction_z : R;
  path_node_positions : list Point;
  last_path_time : RosTime
}.

Definition set_waypoint_type (v : waypoint_choice) (a : avoidanceOutput)
  : avoidanceOutput :=
  mkAvoidanceOutput v (obstacle_ahead a) (velocity_sigmoid_slope a)
    (min_speed a) (max_speed a) (reach_altitude a) (pose a) (offboard_pose a)
    (back_off_point a) (back_off_start_point a) (costmap_direction_e a)
    (costmap_direction_z a) (path_node_positions a) (last_path_time a).

(** The configuration read through [param_]. *)
Record waypointGeneratorParams : Type := mkParams {
  goal_acceptance_radius_in : R;
  goal_acceptance_radius_out : R;
  factor_close_to_goal_start_speed_limitation : R;
  factor_close_to_goal_stop_speed_limitation : R;
  max_speed_close_to_goal_factor : R;
  min_speed_close_to_goal : R
}.

(** [waypointResult] ([output_]); its mode label is [waypoint_type] in the
    source, [result_waypoint_type] here to tell it from the directive's. *)
Record waypointResult : Type := Build_waypointResult {
  result_waypoint_type : waypoint_choice;
  position_waypoint : PoseStamped;
  velocity_waypoint : Twist;
  goto_position : Point;
  adapted_goto_position : Point;
  smoothed_goto_position : Point
}.

(** ** Helpers defined outside the two source files *)

Record Externals : Type := mkExternals {
  (* histogram.h *)
  ALPHA_RES : Z;
  (* common.h, bodies in common.cpp *)
  velocityLinear : R -> R -> R -> R -> R;
  azimuthAnglefromCartesian : Vector3f -> Vector3f -> R;
  azimuthAngletoIndex : R -> Z -> Z;
  nextYaw : PoseStamped -> Point -> R;
  createPoseMsg : Point -> R -> PoseStamped;
  getAngularVelocity : R -> R -> R;
  fromPolarToCartesian : R -> R -> R -> Point -> Vector3f;
  (* planner_functions.h; the result is (returned flag, direction written) *)
  getDirectionFromTree : list Point -> Vector3f -> bool * Vector3f;
  (* the visible azimuth indices and the elevation bounds written by
     calculateFOV(h_FOV, v_FOV, z_FOV_idx, e_FOV_min, e_FOV_max, yaw, pitch) *)
  calculateFOV : R -> R -> R -> R -> list Z * Z * Z;
  (* tf *)
  getYaw : Quaternion -> R;
  getRPY : Quaternion -> R * R * R
}.

(** ** The generator's state *)

Record WaypointGenerator : Type := Build_WaypointGenerator {
  planner_info_ : avoidanceOutput;
  output_ : waypointResult;
  param_ : waypointGeneratorParams;
  last_wp_type_ : waypoint_choice;
  pose_ : PoseStamped;
  curr_vel_ : Twist;
  update_time_ : RosTime;
  current_time_ : RosTime;
  last_time_ : RosTime;
  velocity_time_ : RosTime;
  goal_ : Vector3f;
  hover_position_ : Vector3f;
  curr_yaw_ : R;
  last_yaw_ : R;
  new_yaw_ : R;
  yaw_reached_goal_ : R;
  curr_vel_magnitude_ : R;
  speed_ : R;
  last_position_waypoint_ : PoseStamped;
  last_velocity_ : Vector2f;
  reached_goal_ : bool;
  limit_speed_close_to_goal_ : bool;
  waypoint_outside_FOV_ : bool;
  only_yawed_ : bool;
  h_FOV_ : R;
  v_FOV_ : R;
  z_FOV_idx_ : list Z;
  e_FOV_min_ : Z;
  e_FOV_max_ : Z;
  max_jerk_limit_param_ : R;
  min_jerk_limit_param_ : R;
  (* the ROS clock: the n-th call of ros::Time::now() returns ros_clock n *)
  ros_clock : nat -> RosTime;
  ros_reads : nat
}.

(** Assignments to one member. *)

Definition set_result_waypoint_type (v : waypoint_choice) (s : waypointResult)
  : waypointResult :=
  Build_waypointResult v (position_waypoint s) (velocity_waypoint s)
    (goto_position s) (adapted_goto_position s) (smoothed_goto_position s).

Definition set_position_waypoint (v : PoseStamped) (s : waypointResult)
  : waypointResult :=
  Build_waypointResult (result_waypoint_type s) v (velocity_waypoint s)
    (goto_position s) (adapted_goto_position s) (smoothed_goto_position s).

Definition set_velocity_waypoint (v : Twist) (s : waypointResult)
  : waypointResult :=
  Build_waypointResult (result_waypoint_type s) (position_waypoint s) v
    (goto_position s) (adapted_goto_position s) (smoothed_goto_position s).

Definition set_goto_position (v : Point) (s : waypointResult)
  : waypointResult :=
  Build_waypointResult (result_waypoint_type s) (position_waypoint s)
    (velocity_waypoint s) v (adapted_goto_position s)
    (smoothed_goto_position s).

Definition set_adapted_goto_position (v : Point) (s : waypointResult)
  : waypointResult :=
  Build_waypointResult (result_waypoint_type s) (position_waypoint s)
    (velocity_waypoint s) (goto_position s) v (smoothed_goto_position s).

Definition set_smoothed_goto_position (v : Point) (s : waypointResult)
  : waypointResult :=
  Build_waypointResult (result_waypoint_type s) (position_waypoint s)
    (velocity_waypoint s) (goto_position s) (adapted_goto_position s) v.

Definition set_planner_info_ (v : avoidanceOutput) (s : WaypointGenerator)
  : WaypointGenerator :=
  Build_WaypointGenerator v (output_ s) (param_ s) (last_wp_type_ s) (pose_ s)
    (curr_vel_ s) (update_time_ s) (current_time_ s) (last_time_ s)
    (velocity_time_ s) (goal_ s) (hover_position_ s) (curr_yaw_ s)
    (last_yaw_ s) (new_yaw_ s) (yaw_reached_goal_ s) (curr_vel_magnitude_ s)
    (speed_ s) (last_position_waypoint_ s) (last_velocity_ s)
    (reached_goal_ s) (limit_speed_close_to_goal_ s) (waypoint_outside_FOV_ s)
    (only_yawed_ s) (h_FOV_ s) (v_FOV_ s) (z_FOV_idx_ s) (e_FOV_min_ s)
    (e_FOV_max_ s) (max_jerk_limit_param_ s) (min_jerk_limit_param_ s)
    (ros_clock s) (ros_reads s).

Definition set_output_ (v : waypointResult) (s : WaypointGenerator)
  : WaypointGenerator :=
  Build_WaypointGenerator (planner_info_ s) v (param_ s) (last_wp_type_ s)
    (pose_ s) (curr_vel_ s) (update_time_ s) (current_time_ s) (last_time_ s)
    (velocity_time_ s) (goal_ s) (hover_position_ s) (curr_yaw_ s)
    (last_yaw_ s) (new_yaw_ s) (yaw_reached_goal_ s) (curr_vel_magnitude_ s)
    (speed_ s) (last_position_waypoint_ s) (last_velocity_ s)
    (reached_goal_ s) (limit_speed_close_to_goal_ s) (waypoint_outside_FOV_ s)
    (only_yawed_ s) (h_FOV_ s) (v_FOV_ s) (z_FOV_idx_ s) (e_FOV_min_ s)
    (e_FOV_max_ s) (max_jerk_limit_param_ s) (min_jerk_limit_param_ s)
    (ros_clock s) (ros_reads s).

Definition set_last_wp_type_ (v : waypoint_choice) (s : WaypointGenerator)
  : WaypointGenerator :=
  Build_WaypointGenerator (planner_info_ s) (output_ s) (param_ s) v (pose_ s)
    (curr_vel_ s) (update_time_ s) (current_time_ s) (last_time_ s)
    (velocity_time_ s) (goal_ s) (hover_position_ s) (curr_yaw_ s)
    (last_yaw_ s) (new_yaw_ s) (yaw_reached_goal_ s) (curr_vel_magnitude_ s)
    (speed_ s) (last_position_waypoint_ s) (last_velocity_ s)
    (reached_goal_ s) (limit_speed_close_to_goal_ s) (waypoint_outside_FOV_ s)
    (only_yawed_ s) (h_FOV_ s) (v_FOV_ s) (z_FOV_idx_ s) (e_FOV_min_ s)
    (e_FOV_max_ s) (max_jerk_limit_param_ s) (min_jerk_limit_param_ s)
    (ros_clock s) (ros_reads s).

Definition set_pose_ (v : PoseStamped) (s : WaypointGenerator)
  : WaypointGenerator :=
  Build_WaypointGenerator (planner_info_ s) (output_ s) (param_ s)
    (last_wp_type_ s) v (curr_vel_ s) (update_time_ s) (current_time_ s)
    (last_time_ s) (velocity_time_ s) (goal_ s) (hover_position_ s)
    (curr_yaw_ s) (last_yaw_ s) (new_yaw_ s) (yaw_reached_goal_ s)
    (curr_vel_magnitude_ s) (speed_ s) (last_position_waypoint_ s)
    (last_velocity_ s) (reached_goal_ s) (limit_speed_close_to_goal_ s)
    (waypoint_outside_FOV_ s) (only_yawed_ s) (h_FOV_ s) (v_FOV_ s)
    (z_FOV_idx_ s) (e_FOV_min_ s) (e_FOV_max_ s) (max_jerk_limit_param_ s)
    (min_jerk_limit_param_ s) (ros_clock s) (ros_reads s).

Definition set_curr_vel_ (v : Twist) (s : WaypointGenerator)
  : WaypointGenerator :=
  Build_WaypointGenerator (planner_info_ s) (output_ s) (param_ s)
    (last_wp_type_ s) (pose_ s) v (update_time_ s) (current_time_ s)
    (last_time_ s) (velocity_time_ s) (goal_ s) (hover_position_ s)
    (curr_yaw_ s) (last_yaw_ s) (new_yaw_ s) (yaw_reached_goal_ s)
    (curr_vel_magnitude_ s) (speed_ s) (last_position_waypoint_ s)
    (last_velocity_ s) (reached_goal_ s) (limit_speed_close_to_goal_ s)
    (waypoint_outside_FOV_ s) (only_yawed_ s) (h_FOV_ s) (v_FOV_ s)
    (z_FOV_idx_ s) (e_FOV_min_ s) (e_FOV_max_ s) (max_jerk_limit_param_ s)
    (min_jerk_limit_param_ s) (ros_clock s) (ros_reads s).

Definition set_update_time_ (v : RosTime) (s : WaypointGenerator)
  : WaypointGenerator :=
  Build_WaypointGenerator (planner_info_ s) (output_ s) (param_ s)
    (last_wp_type_ s) (pose_ s) (curr_vel_ s) v (current_time_ s)
    (last_time_ s) (velocity_time_ s) (goal_ s) (hover_position_ s)
    (curr_yaw_ s) (last_yaw_ s) (new_yaw_ s) (yaw_reached_goal_ s)
    (curr_vel_magnitude_ s) (speed_ s) (last_position_waypoint_ s)
    (last_velocity_ s) (reached_goal_ s) (limit_speed_close_to_goal_ s)
    (waypoint_outside_FOV_ s) (only_yawed_ s) (h_FOV_ s) (v_FOV_ s)
    (z_FOV_idx_ s) (e_FOV_min_ s) (e_FOV_max_ s) (max_jerk_limit_param_ s)
    (min_jerk_limit_param_ s) (ros_clock s) (ros_reads s).

Definition set_current_time_ (v : RosTime) (s : WaypointGenerator)
  : WaypointGenerator :=
  Build_WaypointGenerator (planner_info_ s) (output_ s) (param_ s)
    (last_wp_type_ s) (pose_ s) (curr_vel_ s) (update_time_ s) v
    (last_time_ s) (velocity_time_ s) (goal_ s) (hover_position_ s)
    (curr_yaw_ s) (last_yaw_ s) (new_yaw_ s) (yaw_reached_goal_ s)
    (curr_vel_magnitude_ s) (speed_ s) (last_position_waypoint_ s)
    (last_velocity_ s) (reached_goal_ s) (limit_speed_close_to_goal_ s)
    (waypoint_outside_FOV_ s) (only_yawed_ s) (h_FOV_ s) (v_FOV_ s)
    (z_FOV_idx_ s) (e_FOV_min_ s) (e_FOV_max_ s) (max_jerk_limit_param_ s)
    (min_jerk_limit_param_ s) (ros_clock s) (ros_reads s).

Definition set_last_time_ (v : RosTime) (s : WaypointGenerator)
  : WaypointGenerator :=
  Build_WaypointGenerator (planner_info_ s) (output_ s) (param_ s)
    (last_wp_type_ s) (pose_ s) (curr_vel_ s) (update_time_ s)
    (current_time_ s) v (velocity_time_ s) (goal_ s) (hover_position_ s)
    (curr_yaw_ s) (last_yaw_ s) (new_yaw_ s) (yaw_reached_goal_ s)
    (curr_vel_magnitude_ s) (speed_ s) (last_position_waypoint_ s)
    (last_velocity_ s) (reached_goal_ s) (limit_speed_close_to_goal_ s)
    (waypoint_outside_FOV_ s) (only_yawed_ s) (h_FOV_ s) (v_FOV_ s)
    (z_FOV_idx_ s) (e_FOV_min_ s) (e_FOV_max_ s) (max_jerk_limit_param_ s)
    (min_jerk_limit_param_ s) (ros_clock s) (ros_reads s).

Definition set_velocity_time_ (v : RosTime) (s : WaypointGenerator)
  : WaypointGenerator :=
  Build_WaypointGenerator (planner_info_ s) (output_ s) (param_ s)
    (last_wp_type_ s) (pose_ s) (curr_vel_ s) (update_time_ s)
    (current_time_ s) (last_time_ s) v (goal_ s) (hover_position_ s)
    (curr_yaw_ s) (last_yaw_ s) (new_yaw_ s) (yaw_reached_goal_ s)
    (curr_vel_magnitude_ s) (speed_ s) (last_position_waypoint_ s)
    (last_velocity_ s) (reached_goal_ s) (limit_speed_close_to_goal_ s)
    (waypoint_outside_FOV_ s) (only_yawed_ s) (h_FOV_ s) (v_FOV_ s)
    (z_FOV_idx_ s) (e_FOV_min_ s) (e_FOV_max_ s) (max_jerk_limit_param_ s)
    (min_jerk_limit_param_ s) (ros_clock s) (ros_reads s).

Definition set_goal_ (v : Vector3f) (s : WaypointGenerator)
  : WaypointGenerator :=
  Build_WaypointGenerator (planner_info_ s) (output_ s) (param_ s)
    (last_wp_type_ s) (pose_ s) (curr_vel_ s) (update_time_ s)
    (current_time_ s) (last_time_ s) (velocity_time_ s) v (hover_position_ s)
    (curr_yaw_ s) (last_yaw_ s) (new_yaw_ s) (yaw_reached_goal_ s)
    (curr_vel_magnitude_ s) (speed_ s) (last_position_waypoint_ s)
    (last_velocity_ s) (reached_goal_ s) (limit_speed_close_to_goal_ s)
    (waypoint_outside_FOV_ s) (only_yawed_ s) (h_FOV_ s) (v_FOV_ s)
    (z_FOV_idx_ s) (e_FOV_min_ s) (e_FOV_max_ s) (max_jerk_limit_param_ s)
    (min_jerk_limit_param_ s) (ros_clock s) (ros_reads s).

Definition set_hover_position_ (v : Vector3f) (s : WaypointGenerator)
  : WaypointGenerator :=
  Build_WaypointGenerator (planner_info_ s) (output_ s) (param_ s)
    (last_wp_type_ s) (pose_ s) (curr_vel_ s) (update_time_ s)
    (current_time_ s) (last_time_ s) (velocity_time_ s) (goal_ s) v
    (curr_yaw_ s) (last_yaw_ s) (new_yaw_ s) (yaw_reached_goal_ s)
    (curr_vel_magnitude_ s) (speed_ s) (last_position_waypoint_ s)
    (last_velocity_ s) (reached_goal_ s) (limit_speed_close_to_goal_ s)
    (waypoint_outside_FOV_ s) (only_yawed_ s) (h_FOV_ s) (v_FOV_ s)
    (z_FOV_idx_ s) (e_FOV_min_ s) (e_FOV_max_ s) (max_jerk_limit_param_ s)
    (min_jerk_limit_param_ s) (ros_clock s) (ros_reads s).

Definition set_curr_yaw_ (v : R) (s : WaypointGenerator)
  : WaypointGenerator :=
  Build_WaypointGenerator (planner_info_ s) (output_ s) (param_ s)
    (last_wp_type_ s) (pose_ s) (curr_vel_ s) (update_time_ s)
    (current_time_ s) (last_time_ s) (velocity_time_ s) (goal_ s)
    (hover_position_ s) v (last_yaw_ s) (new_yaw_ s) (yaw_reached_goal_ s)
    (curr_vel_magnitude_ s) (speed_ s) (last_position_waypoint_ s)
    (last_velocity_ s) (reached_goal_ s) (limit_speed_close_to_goal_ s)
    (waypoint_outside_FOV_ s) (only_yawed_ s) (h_FOV_ s) (v_FOV_ s)
    (z_FOV_idx_ s) (e_FOV_min_ s) (e_FOV_max_ s) (max_jerk_limit_param_ s)
    (min_jerk_limit_param_ s) (ros_clock s) (ros_reads s).

Definition set_last_yaw_ (v : R) (s : WaypointGenerator)
  : WaypointGenerator :=
  Build_WaypointGenerator (planner_info_ s) (output_ s) (param_ s)
    (last_wp_type_ s) (pose_ s) (curr_vel_ s) (update_time_ s)
    (current_time_ s) (last_time_ s) (velocity_time_ s) (goal_ s)
    (hover_position_ s) (curr_yaw_ s) v (new_yaw_ s) (yaw_reached_goal_ s)
    (curr_vel_magnitude_ s) (speed_ s) (last_position_waypoint_ s)
    (last_velocity_ s) (reached_goal_ s) (limit_speed_close_to_goal_ s)
    (waypoint_outside_FOV_ s) (only_yawed_ s) (h_FOV_ s) (v_FOV_ s)
    (z_FOV_idx_ s) (e_FOV_min_ s) (e_FOV_max_ s) (max_jerk_limit_param_ s)
    (min_jerk_limit_param_ s) (ros_clock s) (ros_reads s).

Definition set_new_yaw_ (v : R) (s : WaypointGenerator)
  : WaypointGenerator :=
  Build_WaypointGenerator (planner_info_ s) (output_ s) (param_ s)
    (last_wp_type_ s) (pose_ s) (curr_vel_ s) (update_time_ s)
    (current_time_ s) (last_time_ s) (velocity_time_ s) (goal_ s)
    (hover_position_ s) (curr_yaw_ s) (last_yaw_ s) v (yaw_reached_goal_ s)
    (curr_vel_magnitude_ s) (speed_ s) (last_position_waypoint_ s)
    (last_velocity_ s) (reached_goal_ s) (limit_speed_close_to_goal_ s)
    (waypoint_outside_FOV_ s) (only_yawed_ s) (h_FOV_ s) (v_FOV_ s)
    (z_FOV_idx_ s) (e_FOV_min_ s) (e_FOV_max_ s) (max_jerk_limit_param_ s)
    (min_jerk_limit_param_ s) (ros_clock s) (ros_reads s).

Definition set_yaw_reached_goal_ (v : R) (s : WaypointGenerator)
  : WaypointGenerator :=
  Build_WaypointGenerator (planner_info_ s) (output_ s) (param_ s)
    (last_wp_type_ s) (pose_ s) (curr_vel_ s) (update_time_ s)
    (current_time_ s) (last_time_ s) (velocity_time_ s) (goal_ s)
    (hover_position_ s) (curr_yaw_ s) (last_yaw_ s) (new_yaw_ s) v
    (curr_vel_magnitude_ s) (speed_ s) (last_position_waypoint_ s)
    (last_velocity_ s) (reached_goal_ s) (limit_speed_close_to_goal_ s)
    (waypoint_outside_FOV_ s) (only_yawed_ s) (h_FOV_ s) (v_FOV_ s)
    (z_FOV_idx_ s) (e_FOV_min_ s) (e_FOV_max_ s) (max_jerk_limit_param_ s)
    (min_jerk_limit_param_ s) (ros_clock s) (ros_reads s).

Definition set_curr_vel_magnitude_ (v : R) (s : WaypointGenerator)
  : WaypointGenerator :=
  Build_WaypointGenerator (planner_info_ s) (output_ s) (param_ s)
    (last_wp_type_ s) (pose_ s) (curr_vel_ s) (update_time_ s)
    (current_time_ s) (last_time_ s) (velocity_time_ s) (goal_ s)
    (hover_position_ s) (curr_yaw_ s) (last_yaw_ s) (new_yaw_ s)
    (yaw_reached_goal_ s) v (speed_ s) (last_position_waypoint_ s)
    (last_velocity_ s) (reached_goal_ s) (limit_speed_close_to_goal_ s)
    (waypoint_outside_FOV_ s) (only_yawed_ s) (h_FOV_ s) (v_FOV_ s)
    (z_FOV_idx_ s) (e_FOV_min_ s) (e_FOV_max_ s) (max_jerk_limit_param_ s)
    (min_jerk_limit_param_ s) (ros_clock s) (ros_reads s).

Definition set_speed_ (v : R) (s : WaypointGenerator)
  : WaypointGenerator :=
  Build_WaypointGenerator (planner_info_ s) (output_ s) (param_ s)
    (last_wp_type_ s) (pose_ s) (curr_vel_ s) (update_time_ s)
    (current_time_ s) (last_time_ s) (velocity_time_ s) (goal_ s)
    (hover_position_ s) (curr_yaw_ s) (last_yaw_ s) (new_yaw_ s)
    (yaw_reached_goal_ s) (curr_vel_magnitude_ s) v
    (last_position_waypoint_ s) (last_velocity_ s) (reached_goal_ s)
    (limit_speed_close_to_goal_ s) (waypoint_outside_FOV_ s) (only_yawed_ s)
    (h_FOV_ s) (v_FOV_ s) (z_FOV_idx_ s) (e_FOV_min_ s) (e_FOV_max_ s)
    (max_jerk_limit_param_ s) (min_jerk_limit_param_ s) (ros_clock s)
    (ros_reads s).

Definition set_last_position_waypoint_ (v : PoseStamped) (s : WaypointGenerator)
  : WaypointGenerator :=
  Build_WaypointGenerator (planner_info_ s) (output_ s) (param_ s)
    (last_wp_type_ s) (pose_ s) (curr_vel_ s) (update_time_ s)
    (current_time_ s) (last_time_ s) (velocity_time_ s) (goal_ s)
    (hover_position_ s) (curr_yaw_ s) (last_yaw_ s) (new_yaw_ s)
    (yaw_reached_goal_ s) (curr_vel_magnitude_ s) (speed_ s) v
    (last_velocity_ s) (reached_goal_ s) (limit_speed_close_to_goal_ s)
    (waypoint_outside_FOV_ s) (only_yawed_ s) (h_FOV_ s) (v_FOV_ s)
    (z_FOV_idx_ s) (e_FOV_min_ s) (e_FOV_max_ s) (max_jerk_limit_param_ s)
    (min_jerk_limit_param_ s) (ros_clock s) (ros_reads s).

Definition set_last_velocity_ (v : Vector2f) (s : WaypointGenerator)
  : WaypointGenerator :=
  Build_WaypointGenerator (planner_info_ s) (output_ s) (param_ s)
    (last_wp_type_ s) (pose_ s) (curr_vel_ s) (update_time_ s)
    (current_time_ s) (last_time_ s) (velocity_time_ s) (goal_ s)
    (hover_position_ s) (curr_yaw_ s) (last_yaw_ s) (new_yaw_ s)
    (yaw_reached_goal_ s) (curr_vel_magnitude_ s) (speed_ s)
    (last_position_waypoint_ s) v (reached_goal_ s)
    (limit_speed_close_to_goal_ s) (waypoint_outside_FOV_ s) (only_yawed_ s)
    (h_FOV_ s) (v_FOV_ s) (z_FOV_idx_ s) (e_FOV_min_ s) (e_FOV_max_ s)
    (max_jerk_limit_param_ s) (min_jerk_limit_param_ s) (ros_clock s)
    (ros_reads s).

Definition set_reached_goal_ (v : bool) (s : WaypointGenerator)
  : WaypointGenerator :=
  Build_WaypointGenerator (planner_info_ s) (output_ s) (param_ s)
    (last_wp_type_ s) (pose_ s) (curr_vel_ s) (update_time_ s)
    (current_time_ s) (last_time_ s) (velocity_time_ s) (goal_ s)
    (hover_position_ s) (curr_yaw_ s) (last_yaw_ s) (new_yaw_ s)
    (yaw_reached_goal_ s) (curr_vel_magnitude_ s) (speed_ s)
    (last_position_waypoint_ s) (last_velocity_ s) v
    (limit_speed_close_to_goal_ s) (waypoint_outside_FOV_ s) (only_yawed_ s)
    (h_FOV_ s) (v_FOV_ s) (z_FOV_idx_ s) (e_FOV_min_ s) (e_FOV_max_ s)
    (max_jerk_limit_param_ s) (min_jerk_limit_param_ s) (ros_clock s)
    (ros_reads s).

Definition set_limit_speed_close_to_goal_ (v : bool) (s : WaypointGenerator)
  : WaypointGenerator :=
  Build_WaypointGenerator (planner_info_ s) (output_ s) (param_ s)
    (last_wp_type_ s) (pose_ s) (curr_vel_ s) (update_time_ s)
    (current_time_ s) (last_time_ s) (velocity_time_ s) (goal_ s)
    (hover_position_ s) (curr_yaw_ s) (last_yaw_ s) (new_yaw_ s)
    (yaw_reached_goal_ s) (curr_vel_magnitude_ s) (speed_ s)
    (last_position_waypoint_ s) (last_velocity_ s) (reached_goal_ s) v
    (waypoint_outside_FOV_ s) (only_yawed_ s) (h_FOV_ s) (v_FOV_ s)
    (z_FOV_idx_ s) (e_FOV_min_ s) (e_FOV_max_ s) (max_jerk_limit_param_ s)
    (min_jerk_limit_param_ s) (ros_clock s) (ros_reads s).

Definition set_waypoint_outside_FOV_ (v : bool) (s : WaypointGenerator)
  : WaypointGenerator :=
  Build_WaypointGenerator (planner_info_ s) (output_ s) (param_ s)
    (last_wp_type_ s) (pose_ s) (curr_vel_ s) (update_time_ s)
    (current_time_ s) (last_time_ s) (velocity_time_ s) (goal_ s)
    (hover_position_ s) (curr_yaw_ s) (last_yaw_ s) (new_yaw_ s)
    (yaw_reached_goal_ s) (curr_vel_magnitude_ s) (speed_ s)
    (last_position_waypoint_ s) (last_velocity_ s) (reached_goal_ s)
    (limit_speed_close_to_goal_ s) v (only_yawed_ s) (h_FOV_ s) (v_FOV_ s)
    (z_FOV_idx_ s) (e_FOV_min_ s) (e_FOV_max_ s) (max_jerk_limit_param_ s)
    (min_jerk_limit_param_ s) (ros_clock s) (ros_reads s).

Definition set_only_yawed_ (v : bool) (s : WaypointGenerator)
  : WaypointGenerator :=
  Build_WaypointGenerator (planner_info_ s) (output_ s) (param_ s)
    (last_wp_type_ s) (pose_ s) (curr_vel_ s) (update_time_ s)
    (current_time_ s) (last_time_ s) (velocity_time_ s) (goal_ s)
    (hover_position_ s) (curr_yaw_ s) (last_yaw_ s) (new_yaw_ s)
    (yaw_reached_goal_ s) (curr_vel_magnitude_ s) (speed_ s)
    (last_position_waypoint_ s) (last_velocity_ s) (reached_goal_ s)
    (limit_speed_close_to_goal_ s) (waypoint_outside_FOV_ s) v (h_FOV_ s)
    (v_FOV_ s) (z_FOV_idx_ s) (e_FOV_min_ s) (e_FOV_max_ s)
    (max_jerk_limit_param_ s) (min_jerk_limit_param_ s) (ros_clock s)
    (ros_reads s).

Definition set_h_FOV_ (v : R) (s : WaypointGenerator)
  : WaypointGenerator :=
  Build_WaypointGenerator (planner_info_ s) (output_ s) (param_ s)
    (last_wp_type_ s) (pose_ s) (curr_vel_ s) (update_time_ s)
    (current_time_ s) (last_time_ s) (velocity_time_ s) (goal_ s)
    (hover_position_ s) (curr_yaw_ s) (last_yaw_ s) (new_yaw_ s)
    (yaw_reached_goal_ s) (curr_vel_magnitude_ s) (speed_ s)
    (last_position_waypoint_ s) (last_velocity_ s) (reached_goal_ s)
    (limit_speed_close_to_goal_ s) (waypoint_outside_FOV_ s) (only_yawed_ s) v
    (v_FOV_ s) (z_FOV_idx_ s) (e_FOV_min_ s) (e_FOV_max_ s)
    (max_jerk_limit_param_ s) (min_jerk_limit_param_ s) (ros_clock s)
    (ros_reads s).

Definition set_v_FOV_ (v : R) (s : WaypointGenerator)
  : WaypointGenerator :=
  Build_WaypointGenerator (planner_info_ s) (output_ s) (param_ s)
    (last_wp_type_ s) (pose_ s) (curr_vel_ s) (update_time_ s)
    (current_time_ s) (last_time_ s) (velocity_time_ s) (goal_ s)
    (hover_position_ s) (curr_yaw_ s) (last_yaw_ s) (new_yaw_ s)
    (yaw_reached_goal_ s) (curr_vel_magnitude_ s) (speed_ s)
    (last_position_waypoint_ s) (last_velocity_ s) (reached_goal_ s)
    (limit_speed_close_to_goal_ s) (waypoint_outside_FOV_ s) (only_yawed_ s)
    (h_FOV_ s) v (z_FOV_idx_ s) (e_FOV_min_ s) (e_FOV_max_ s)
    (max_jerk_limit_param_ s) (min_jerk_limit_param_ s) (ros_clock s)
    (ros_reads s).

Definition set_z_FOV_idx_ (v : list Z) (s : WaypointGenerator)
  : WaypointGenerator :=
  Build_WaypointGenerator (planner_info_ s) (output_ s) (param_ s)
    (last_wp_type_ s) (pose_ s) (curr_vel_ s) (update_time_ s)
    (current_time_ s) (last_time_ s) (velocity_time_ s) (goal_ s)
    (hover_position_ s) (curr_yaw_ s) (last_yaw_ s) (new_yaw_ s)
    (yaw_reached_goal_ s) (curr_vel_magnitude_ s) (speed_ s)
    (last_position_waypoint_ s) (last_velocity_ s) (reached_goal_ s)
    (limit_speed_close_to_goal_ s) (waypoint_outside_FOV_ s) (only_yawed_ s)
    (h_FOV_ s) (v_FOV_ s) v (e_FOV_min_ s) (e_FOV_max_ s)
    (max_jerk_limit_param_ s) (min_jerk_limit_param_ s) (ros_clock s)
    (ros_reads s).

Definition set_e_FOV_min_ (v : Z) (s : WaypointGenerator)
  : WaypointGenerator :=
  Build_WaypointGenerator (planner_info_ s) (output_ s) (param_ s)
    (last_wp_type_ s) (pose_ s) (curr_vel_ s) (update_time_ s)
    (current_time_ s) (last_time_ s) (velocity_time_ s) (goal_ s)
    (hover_position_ s) (curr_yaw_ s) (last_yaw_ s) (new_yaw_ s)
    (yaw_reached_goal_ s) (curr_vel_magnitude_ s) (speed_ s)
    (last_position_waypoint_ s) (last_velocity_ s) (reached_goal_ s)
    (limit_speed_close_to_goal_ s) (waypoint_outside_FOV_ s) (only_yawed_ s)
    (h_FOV_ s) (v_FOV_ s) (z_FOV_idx_ s) v (e_FOV_max_ s)
    (max_jerk_limit_param_ s) (min_jerk_limit_param_ s) (ros_clock s)
    (ros_reads s).

Definition set_e_FOV_max_ (v : Z) (s : WaypointGenerator)
  : WaypointGenerator :=
  Build_WaypointGenerator (planner_info_ s) (output_ s) (param_ s)
    (last_wp_type_ s) (pose_ s) (curr_vel_ s) (update_time_ s)
    (current_time_ s) (last_time_ s) (velocity_time_ s) (goal_ s)
    (hover_position_ s) (curr_yaw_ s) (last_yaw_ s) (new_yaw_ s)
    (yaw_reached_goal_ s) (curr_vel_magnitude_ s) (speed_ s)
    (last_position_waypoint_ s) (last_velocity_ s) (reached_goal_ s)
    (limit_speed_close_to_goal_ s) (waypoint_outside_FOV_ s) (only_yawed_ s)
    (h_FOV_ s) (v_FOV_ s) (z_FOV_idx_ s) (e_FOV_min_ s) v
    (max_jerk_limit_param_ s) (min_jerk_limit_param_ s) (ros_clock s)
    (ros_reads s).

Definition set_ros_reads (v : nat) (s : WaypointGenerator)
  : WaypointGenerator :=
  Build_WaypointGenerator (planner_info_ s) (output_ s) (param_ s)
    (last_wp_type_ s) (pose_ s) (curr_vel_ s) (update_time_ s)
    (current_time_ s) (last_time_ s) (velocity_time_ s) (goal_ s)
    (hover_position_ s) (curr_yaw_ s) (last_yaw_ s) (new_yaw_ s)
    (yaw_reached_goal_ s) (curr_vel_magnitude_ s) (speed_ s)
    (last_position_waypoint_ s) (last_velocity_ s) (reached_goal_ s)
    (limit_speed_close_to_goal_ s) (waypoint_outside_FOV_ s) (only_yawed_ s)
    (h_FOV_ s) (v_FOV_ s) (z_FOV_idx_ s) (e_FOV_min_ s) (e_FOV_max_ s)
    (max_jerk_limit_param_ s) (min_jerk_limit_param_ s) (ros_clock s) v.

(** ** The methods of [WaypointGenerator] *)

Section Generator.

Variable ext : Externals.

(** [ros::Time::now()]. *)
Definition now (s : WaypointGenerator) : RosTime * WaypointGenerator :=
  (ros_clock s (ros_reads s), set_ros_reads (S (ros_reads s)) s).

(** An assignment to a member of [output_]. *)
Definition upd_output (f : waypointResult -> waypointResult)
  (s : WaypointGenerator) : WaypointGenerator :=
  set_output_ (f (output_ s)) s.

(** cpp:161-171 *)
Definition transformPositionToVelocityWaypoint (s : WaypointGenerator)
  : WaypointGenerator :=
  let wp := position (position_waypoint (output_ s)) in
  let p := position (pose_ s) in
  upd_output
    (set_velocity_waypoint
       (mkTwist (mkV3 (x wp - x p) (y wp - y p) (z wp - z p))
          (mkV3 0 0 (getAngularVelocity ext (new_yaw_ s) (curr_yaw_ s))))) s.

(** cpp:174-188; the returned flag is the new [reached_goal_].  The squared
    distance is the binary32 value [float sqrd_dist] of cpp:175, computed
    from the position narrowed by [toEigen]; it is widened to double without
    change and compared with the square of the radius, a product of
    doubles.  ([param_] is taken to hold doubles: [std::min] and [std::max]
    at cpp:324-326 need its members to be of the type of [speed_], which
    cpp:256 assigns the double returned by [velocityLinear].  For a radius
    that is a binary32 value with a binary32 square, such as 0.5 and 1.5, a
    product of floats is the same number.) *)
Definition withinGoalRadius (s : WaypointGenerator) : bool * WaypointGenerator :=
  let sqrd_dist :=
    squaredNorm32 (vsub32 (goal_ s) (toEigen32 (position (pose_ s)))) in
  let s :=
    if Rltb sqrd_dist
         (mul64 (goal_acceptance_radius_in (param_ s))
                (goal_acceptance_radius_in (param_ s)))
    then
      let s :=
        if negb (reached_goal_ s)
        then set_yaw_reached_goal_ (getYaw ext (orientation (pose_ s))) s
        else s in
      set_reached_goal_ true s
    else if Rgtb sqrd_dist
              (mul64 (goal_acceptance_radius_out (param_ s))
                     (goal_acceptance_radius_out (param_ s)))
    then set_reached_goal_ false s
    else s in
  (reached_goal_ s, s).

(** cpp:191-211 *)
Definition reachGoalAltitudeFirst (s : WaypointGenerator) : WaypointGenerator :=
  let s := upd_output (set_goto_position (position (offboard_pose (planner_info_ s)))) s in
  let s :=
    upd_output
      (fun o => set_goto_position
         (mkV3 (x (goto_position o)) (y (goto_position o)) (z (position (pose_ s)) + 0.5)) o)
      s in
  let diff := cwiseAbs (vsub (goal_ s) (toEigen (position (pose_ s)))) in
  let goal_acceptance_radius := 1 in
  let s :=
    if Rltb (x diff) goal_acceptance_radius && Rltb (y diff) goal_acceptance_radius
    then set_new_yaw_ (curr_yaw_ s) s
    else s in
  let pose_to_wp :=
    vsub (toEigen (goto_position (output_ s))) (toEigen (position (pose_ s))) in
  let pose_to_wp :=
    if Rgtb (norm pose_to_wp) 0.01 then normalized pose_to_wp else pose_to_wp in
  let pose_to_wp := vscale (min_speed (planner_info_ s)) pose_to_wp in
  upd_output
    (set_goto_position (toPoint (vadd (toEigen (position (pose_ s))) pose_to_wp))) s.

(** The locals of [smoothWaypoint] (cpp:214-232).  [smooth_jerk dt s target]
    is the jerk that the horizontal setpoint [target] asks for: the source's
    [jerk_diff] is [smooth_jerk dt s output_.adapted_goto_position]. *)
Definition smooth_vel_cur_xy (s : WaypointGenerator) : Vector2f :=
  mkV2 (x (linear (curr_vel_ s))) (y (linear (curr_vel_ s))).

Definition smooth_vel_sp_xy (dt : R) (s : WaypointGenerator) (target : Point)
  : Vector2f :=
  mkV2 ((x target - x (position (last_position_waypoint_ s))) / dt)
       ((y target - y (position (last_position_waypoint_ s))) / dt).

Definition smooth_accel_cur (dt : R) (s : WaypointGenerator) : Vector2f :=
  vdiv2 (vsub2 (smooth_vel_cur_xy s) (last_velocity_ s)) dt.

Definition smooth_jerk (dt : R) (s : WaypointGenerator) (target : Point)
  : Vector2f :=
  let accel_diff :=
    vdiv2 (vsub2 (smooth_vel_sp_xy dt s target) (smooth_vel_cur_xy s)) dt in
  vdiv2 (vsub2 accel_diff (smooth_accel_cur dt s)) dt.

(** The velocity-dependent maximum jerk (cpp:226-232). *)
Definition smooth_max_jerk (s : WaypointGenerator) : R :=
  let max_jerk := max_jerk_limit_param_ s in
  if Rgtb (min_jerk_limit_param_ s) 0.001 then
    let max_jerk := max_jerk * norm2 (smooth_vel_cur_xy s) in
    if Rltb max_jerk (min_jerk_limit_param_ s)
    then min_jerk_limit_param_ s else max_jerk
  else max_jerk.

(** cpp:213-248 *)
Definition smoothWaypoint (dt : R) (s : WaypointGenerator) : WaypointGenerator :=
  let vel_cur_xy := smooth_vel_cur_xy s in
  let vel_sp_xy := smooth_vel_sp_xy dt s (adapted_goto_position (output_ s)) in
  let accel_cur := smooth_accel_cur dt s in
  let jerk_diff := smooth_jerk dt s (adapted_goto_position (output_ s)) in
  let max_jerk := smooth_max_jerk s in
  let vel_sp_xy :=
    if Rgtb (squaredNorm2 jerk_diff) (max_jerk * max_jerk) && Rgtb max_jerk 0.001
    then
      let jerk_diff := vscale2 max_jerk (normalized2 jerk_diff) in
      vadd2 (vscale2 dt (vadd2 (vscale2 dt jerk_diff) accel_cur)) vel_cur_xy
    else vel_sp_xy in
  upd_output
    (set_smoothed_goto_position
       (mkV3 (x (position (last_position_waypoint_ s)) + x2 vel_sp_xy * dt)
             (y (position (last_position_waypoint_ s)) + y2 vel_sp_xy * dt)
             (z (adapted_goto_position (output_ s))))) s.

(** [adaptSpeed], block by block. *)

(** cpp:251-264: the speed ramps toward [max_speed], or toward [min_speed]
    when an obstacle is ahead. *)
Definition adaptSpeed_envelope (s : WaypointGenerator) : WaypointGenerator :=
  let (t, s) := now s in
  let since_last_velocity_sec := toSec (t - velocity_time_ s)%Z in
  let pi := planner_info_ s in
  if negb (obstacle_ahead pi) then
    let s := set_speed_ (Rmin (speed_ s) (max_speed pi)) s in
    set_speed_
      (velocityLinear ext (max_speed pi) (velocity_sigmoid_slope pi) (speed_ s)
         since_last_velocity_sec) s
  else
    let s := set_speed_ (Rmin (speed_ s) (min_speed pi)) s in
    set_speed_
      (velocityLinear ext (min_speed pi) (velocity_sigmoid_slope pi) (speed_ s)
         since_last_velocity_sec) s.

(** cpp:267-270: the azimuth index of the candidate point. *)
Definition adaptSpeed_z_index (s : WaypointGenerator) : Z :=
  let z_angle :=
    truncZ (azimuthAnglefromCartesian ext
              (toEigen (adapted_goto_position (output_ s)))
              (toEigen (position (pose_ s)))) in
  azimuthAngletoIndex ext (IZR z_angle) (ALPHA_RES ext).

(** cpp:278-286: the least index distance to a visible index, from 100. *)
Definition fov_ind_dist (z_FOV_idx : list Z) (z_index : Z) : Z :=
  fold_left
    (fun ind_dist idx =>
       if (Z.abs (idx - z_index) <? ind_dist)%Z
       then Z.abs (idx - z_index) else ind_dist)
    z_FOV_idx 100%Z.

(** cpp:287-289 *)
Definition fov_angle_diff (z_FOV_idx : list Z) (z_index : Z) : R :=
  let ind_dist := fov_ind_dist z_FOV_idx z_index in
  let angle_diff := IZR (Z.abs (ALPHA_RES ext * ind_dist)) in
  let hover_angle := 30 in
  Rmin angle_diff hover_angle.

(** cpp:266-297 *)
Definition adaptSpeed_FOV (s : WaypointGenerator) : WaypointGenerator :=
  let z_index := adaptSpeed_z_index s in
  let s :=
    if existsb (Z.eqb z_index) (z_FOV_idx_ s) then
      set_waypoint_outside_FOV_ false s
    else
      let s := set_waypoint_outside_FOV_ true s in
      if reach_altitude (planner_info_ s) && negb (reached_goal_ s) then
        let angle_diff := fov_angle_diff (z_FOV_idx_ s) z_index in
        let hover_angle := 30 in
        let s := set_speed_ (speed_ s * (1 - angle_diff / hover_angle)) s in
        let s := set_only_yawed_ false s in
        if Rltb (speed_ s) 0.01 then set_only_yawed_ true s else s
      else s in
  let (t, s) := now s in
  set_velocity_time_ t s.

(** cpp:299-303 *)
Definition adaptSpeed_delay (s : WaypointGenerator) : WaypointGenerator :=
  let (t, s) := now s in
  let since_update_sec := toSec (t - update_time_ s)%Z in
  let delta_dist := since_update_sec * curr_vel_magnitude_ s in
  set_speed_ (speed_ s + delta_dist) s.

(** cpp:305-327 *)
Definition adaptSpeed_closeToGoal (s : WaypointGenerator) : WaypointGenerator :=
  let pos_to_goal := cwiseAbs (vsub (goal_ s) (toEigen (position (pose_ s)))) in
  let start := factor_close_to_goal_start_speed_limitation (param_ s) in
  let stop := factor_close_to_goal_stop_speed_limitation (param_ s) in
  let s :=
    if Rltb (x pos_to_goal) (start * curr_vel_magnitude_ s)
       && Rltb (y pos_to_goal) (start * curr_vel_magnitude_ s)
    then set_limit_speed_close_to_goal_ true s
    else if Rgtb (x pos_to_goal) (stop * curr_vel_magnitude_ s)
            || Rgtb (y pos_to_goal) (stop * curr_vel_magnitude_ s)
    then set_limit_speed_close_to_goal_ false s
    else s in
  if limit_speed_close_to_goal_ s then
    let s :=
      set_speed_
        (Rmin (speed_ s) (max_speed_close_to_goal_factor (param_ s) * norm pos_to_goal))
        s in
    set_speed_ (Rmax (speed_ s) (min_speed_close_to_goal (param_ s))) s
  else s.

(** cpp:329-337 *)
Definition adaptSpeed_setWaypoint (s : WaypointGenerator) : WaypointGenerator :=
  let pose_to_wp :=
    vsub (toEigen (adapted_goto_position (output_ s)))
         (toEigen (position (pose_ s))) in
  let pose_to_wp :=
    if Rgtb (norm pose_to_wp) 0.01 then normalized pose_to_wp else pose_to_wp in
  let pose_to_wp := vscale (speed_ s) pose_to_wp in
  upd_output
    (set_adapted_goto_position
       (toPoint (vadd (toEigen (position (pose_ s))) pose_to_wp))) s.

(** cpp:250-342 *)
Definition adaptSpeed (s : WaypointGenerator) : WaypointGenerator :=
  adaptSpeed_setWaypoint
    (adaptSpeed_closeToGoal
       (adaptSpeed_delay (adaptSpeed_FOV (adaptSpeed_envelope s)))).

(** cpp:348-349: the tick interval handed to the smoother. *)
Definition path_dt (s : WaypointGenerator) : R :=
  let time_diff := (current_time_ s - last_time_ s)%Z in
  if Rgtb (toSec time_diff) 0 then toSec time_diff else 0.004.

(** cpp:346-369: the speed-adapted and the smoothed target. *)
Definition getPathMsg_target (s : WaypointGenerator) : WaypointGenerator :=
  let s := upd_output (fun o => set_adapted_goto_position (goto_position o) o) s in
  let dt := path_dt s in
  let s := set_new_yaw_ (nextYaw ext (pose_ s) (adapted_goto_position (output_ s))) s in
  let s := adaptSpeed s in
  let s := upd_output (fun o => set_smoothed_goto_position (adapted_goto_position o) o) s in
  if negb (reach_altitude (planner_info_ s)) then
    let s := reachGoalAltitudeFirst s in
    let s := upd_output (fun o => set_adapted_goto_position (goto_position o) o) s in
    upd_output (fun o => set_smoothed_goto_position (goto_position o) o) s
  else smoothWaypoint dt s.

(** cpp:371-385: the goal radius, the yaw and the final pose. *)
Definition getPathMsg_assemble (s : WaypointGenerator) : WaypointGenerator :=
  let (within, s) := withinGoalRadius s in
  let s :=
    if within
    then upd_output (set_smoothed_goto_position (toPoint (goal_ s))) s
    else s in
  let s := if reached_goal_ s then set_new_yaw_ (yaw_reached_goal_ s) s else s in
  let s :=
    upd_output
      (set_position_waypoint
         (createPoseMsg ext (smoothed_goto_position (output_ s)) (new_yaw_ s))) s in
  transformPositionToVelocityWaypoint s.

(** cpp:345-386 *)
Definition getPathMsg (s : WaypointGenerator) : WaypointGenerator :=
  getPathMsg_assemble (getPathMsg_target s).

(** cpp:130-139 *)
Definition goFast (s : WaypointGenerator) : WaypointGenerator :=
  let dir := normalized (vsub (goal_ s) (toEigen (position (pose_ s)))) in
  let s :=
    upd_output (set_goto_position (toPoint (vadd (toEigen (position (pose_ s))) dir))) s in
  getPathMsg s.

(** cpp:141-159 *)
Definition backOff (s : WaypointGenerator) : WaypointGenerator :=
  let dir :=
    vsub (toEigen (position (pose_ s))) (toEigen (back_off_point (planner_info_ s))) in
  let dir := mkV3 (x dir) (y dir) 0 in
  let dir := normalized dir in
  let dir := vscale 0.5 dir in
  let s :=
    upd_output (set_goto_position (toPoint (vadd (toEigen (position (pose_ s))) dir))) s in
  let s :=
    upd_output
      (fun o => set_goto_position
         (mkV3 (x (goto_position o)) (y (goto_position o))
               (z (back_off_start_point (planner_info_ s)))) o) s in
  let s :=
    upd_output
      (fun o => set_position_waypoint (createPoseMsg ext (goto_position o) (last_yaw_ s)) o)
      s in
  let s := transformPositionToVelocityWaypoint s in
  set_last_yaw_ (curr_yaw_ s) s.

(** cpp:46-65: the test that lets the tree's direction through; [t] is the
    clock reading of cpp:52.  [dist_goal] is the binary32 norm of cpp:50,
    widened to double without change. *)
Definition tryPath_use_tree (s : WaypointGenerator) (t : RosTime) : bool :=
  let tree_available :=
    fst (getDirectionFromTree ext (path_node_positions (planner_info_ s))
           (toEigen (position (pose_ s)))) in
  let dist_goal := norm32 (vsub32 (goal_ s) (toEigen32 (position (pose_ s)))) in
  let since_last_path := (t - last_path_time (planner_info_ s))%Z in
  tree_available
  && (obstacle_ahead (planner_info_ s) || Rgtb dist_goal 4)
  && (since_last_path <? DurationSec 5)%Z.

(** cpp:25-83: the switch over the directive's mode. *)
Definition dispatch (s : WaypointGenerator) : WaypointGenerator :=
  match waypoint_type (planner_info_ s) with
  | hover =>
      let s :=
        if negb (waypoint_choice_eqb (last_wp_type_ s) hover)
        then set_hover_position_ (toEigen (position (pose_ s))) s
        else s in
      let s := upd_output (set_goto_position (toPoint (hover_position_ s))) s in
      getPathMsg s
  | costmap =>
      let s :=
        upd_output
          (set_goto_position
             (toPoint
                (fromPolarToCartesian ext
                   (costmap_direction_e (planner_info_ s))
                   (costmap_direction_z (planner_info_ s)) 1
                   (position (pose (planner_info_ s)))))) s in
      getPathMsg s
  | tryPath =>
      let p :=
        snd (getDirectionFromTree ext (path_node_positions (planner_info_ s))
               (toEigen (position (pose_ s)))) in
      let (t, s') := now s in
      if tryPath_use_tree s t then
        let s :=
          upd_output
            (set_goto_position
               (toPoint
                  (fromPolarToCartesian ext (x p) (y p) 1
                     (position (pose (planner_info_ s')))))) s' in
        getPathMsg s
      else
        let s := goFast s' in
        upd_output (set_result_waypoint_type direct) s
  | direct => goFast s
  | reachHeight => goFast s
  | goBack => backOff s
  end.

(** cpp:19-23: the mode label and the timing of the tick. *)
Definition calculateWaypoint_begin (s : WaypointGenerator) : WaypointGenerator :=
  let s := upd_output (set_result_waypoint_type (waypoint_type (planner_info_ s))) s in
  let s := set_last_time_ (current_time_ s) s in
  let (t, s) := now s in
  set_current_time_ t s.

(** cpp:84-88: what the next tick remembers of this one. *)
Definition calculateWaypoint_end (s : WaypointGenerator) : WaypointGenerator :=
  let s := set_last_wp_type_ (waypoint_type (planner_info_ s)) s in
  let s := set_last_position_waypoint_ (position_waypoint (output_ s)) s in
  let s := set_last_yaw_ (curr_yaw_ s) s in
  set_last_velocity_
    (mkV2 (x (linear (curr_vel_ s))) (y (linear (curr_vel_ s)))) s.

(** cpp:14-89 *)
Definition calculateWaypoint (s : WaypointGenerator) : WaypointGenerator :=
  calculateWaypoint_end (dispatch (calculateWaypoint_begin s)).

(** cpp:91-94 *)
Definition setFOV (h_FOV v_FOV : R) (s : WaypointGenerator) : WaypointGenerator :=
  set_v_FOV_ v_FOV (set_h_FOV_ h_FOV s).

(** cpp:96-127.  The goal-change test of cpp:100 compares the binary32 norm
    of the difference to the narrowed new goal with the double literal
    [0.1]; cpp:107 stores the narrowed goal. *)
Definition updateState (act_pose goal : PoseStamped) (vel : Twist)
  (stay : bool) (t : RosTime) (s : WaypointGenerator) : WaypointGenerator :=
  let s :=
    if Rgtb (norm32 (vsub32 (goal_ s) (toEigen32 (position goal)))) (round64 0.1)
    then set_limit_speed_close_to_goal_ false (set_reached_goal_ false s)
    else s in
  let s := set_update_time_ t s in
  let s := set_pose_ act_pose s in
  let s := set_curr_vel_ vel s in
  let s := set_goal_ (toEigen32 (position goal)) s in
  let s := set_curr_yaw_ (getYaw ext (orientation (pose_ s))) s in
  let rpy := getRPY ext (orientation (pose_ s)) in
  let pitch := snd (fst rpy) in
  let yaw := snd rpy in
  let s := set_z_FOV_idx_ [] s in
  let fov := calculateFOV ext (h_FOV_ s) (v_FOV_ s) yaw pitch in
  let s := set_z_FOV_idx_ (fst (fst fov)) s in
  let s := set_e_FOV_min_ (snd (fst fov)) s in
  let s := set_e_FOV_max_ (snd fov) s in
  let s := set_curr_vel_magnitude_ (norm (linear (curr_vel_ s))) s in
  if stay
  then set_planner_info_ (set_waypoint_type hover (planner_info_ s)) s
  else s.

(** cpp:388-391 *)
Definition getWaypoints (s : WaypointGenerator) : waypointResult * WaypointGenerator :=
  let s := calculateWaypoint s in
  (output_ s, s).

(** cpp:393-395 *)
Definition setPlannerInfo (input : avoidanceOutput) (s : WaypointGenerator)
  : WaypointGenerator :=
  set_planner_info_ input s.

End Generator.

(** ** The direction computations of [goFast] and [backOff] on binary32

    [Eigen::Vector3f] holds IEEE-754 single-precision values.  The operations
    are those of the Standard Library's [SpecFloat] at precision 24 and
    maximal exponent 128.  Positions are taken after [toEigen]; results are
    shown before [toPoint] widens them to double, which keeps a NaN a NaN
    and turns no other value into one. *)

Module F32.

Definition prec : Z := 24.

Definition emax : Z := 128.

Definition float : Type := spec_float.

Definition add : float -> float -> float := SFadd prec emax.

Definition sub : float -> float -> float := SFsub prec emax.

Definition mul : float -> float -> float := SFmul prec emax.

Definition div : float -> float -> float := SFdiv prec emax.

Definition sqrt : float -> float := SFsqrt prec emax.

Definition zero : float := S754_zero false.

(** The literal [0.5f], that is 2^23 * 2^-24. *)
Definition half : float := S754_finite false 8388608 (-24).

Definition is_nan (a : float) : bool :=
  match a with S754_nan => true | _ => false end.

Definition is_zero (a : float) : bool :=
  match a with S754_zero _ => true | _ => false end.

Definition is_finite (a : float) : bool :=
  match a with S754_zero _ | S754_finite _ _ _ => true | _ => false end.

Record Vector3f : Type := mkV3 { x : float; y : float; z : float }.

Definition vadd (a b : Vector3f) : Vector3f :=
  mkV3 (add (x a) (x b)) (add (y a) (y b)) (add (z a) (z b)).

Definition vsub (a b : Vector3f) : Vector3f :=
  mkV3 (sub (x a) (x b)) (sub (y a) (y b)) (sub (z a) (z b)).

Definition vmul (a : Vector3f) (k : float) : Vector3f :=
  mkV3 (mul (x a) k) (mul (y a) k) (mul (z a) k).

Definition vdiv (a : Vector3f) (k : float) : Vector3f :=
  mkV3 (div (x a) k) (div (y a) k) (div (z a) k).

(** The sum of the squares, in the order of Eigen's unrolled reduction of a
    fixed-size 3-vector. *)
Definition squaredNorm (a : Vector3f) : float :=
  add (mul (x a) (x a)) (add (mul (y a) (y a)) (mul (z a) (z a))).

(** [normalized()] and [normalize()]:
    [z = squaredNorm(); if (z > 0) return n / sqrt(z); else return n;] *)
Definition normalized (a : Vector3f) : Vector3f :=
  let n2 := squaredNorm a in
  if SFltb zero n2 then vdiv a (sqrt n2) else a.

Definition vec_is_zero (a : Vector3f) : bool :=
  is_zero (x a) && is_zero (y a) && is_zero (z a).

Definition vec_has_nan (a : Vector3f) : bool :=
  is_nan (x a) || is_nan (y a) || is_nan (z a).

Definition vec_is_finite (a : Vector3f) : bool :=
  is_finite (x a) && is_finite (y a) && is_finite (z a).

(** cpp:131: [dir] of [goFast]. *)
Definition goFast_dir (pos goal : Vector3f) : Vector3f :=
  normalized (vsub goal pos).

(** cpp:132: the vector handed to [toPoint] for [output_.goto_position]. *)
Definition goFast_goto (pos goal : Vector3f) : Vector3f :=
  vadd pos (goFast_dir pos goal).

(** cpp:142-146: [dir] of [backOff]. *)
Definition backOff_dir (pos back_off_point : Vector3f) : Vector3f :=
  let dir := vsub pos back_off_point in
  let dir := mkV3 (x dir) (y dir) zero in
  let dir := normalized dir in
  vmul dir half.

(** cpp:148-149: [output_.goto_position]; its [z] is the double
    [back_off_start_point.z]. *)
Definition backOff_goto (pos back_off_point : Vector3f) (start_z : float)
  : Vector3f :=
  let g := vadd pos (backOff_dir pos back_off_point) in
  mkV3 (x g) (y g) start_z.

End F32.

(** ** Concrete helpers and states for the examples

    Every theorem below is proved for all [Externals].  The instance here
    only serves to run the methods on concrete inputs.  Its [velocityLinear]
    follows the spec and its tree reader reports the first path node.  Its
    geometry helpers are constant: the azimuth is 0 degrees, which common.h
    documents for a candidate that coincides with the position or lies on
    its positive y-axis (the case in the example states), and the index of
    that azimuth is 30 at the resolution of 6 degrees. *)

(** Modelled from the spec: [velocityLinear], declared in common.h with its
    body in common.cpp.  The spec (4.4) calls it a saturating ramp of the
    elapsed time toward the target bound; common.h says it returns a speed
    within the given limit. *)
Definition velocityLinear_ramp (max_vel slope v_old elapsed : R) : R :=
  let speed := v_old + slope * elapsed in
  if Rgtb speed max_vel then max_vel else speed.

Definition origin : Vector3f := mkV3 0 0 0.

Definition example_externals : Externals :=
  {| ALPHA_RES := 6;
     velocityLinear := velocityLinear_ramp;
     azimuthAnglefromCartesian := fun _ _ => 0;
     azimuthAngletoIndex := fun _ _ => 30%Z;
     nextYaw := fun _ _ => 0;
     createPoseMsg := fun p yaw => mkPose p (mkQuat 0 0 (sin (yaw / 2)) (cos (yaw / 2)));
     getAngularVelocity := fun desired curr => desired - curr;
     fromPolarToCartesian := fun _ _ r p => mkV3 (x p) (y p + r) (z p);
     getDirectionFromTree :=
       fun path _ =>
         match path with
         | nil => (false, origin)
         | node :: _ => (true, node)
         end;
     calculateFOV := fun _ _ _ _ => (nil, 0%Z, 0%Z);
     getYaw := fun _ => 0;
     getRPY := fun _ => (0, 0, 0) |}.

Definition pose_at (p : Point) : PoseStamped := mkPose p (mkQuat 0 0 0 1).

Definition at_rest : Twist := mkTwist origin origin.

(** A directive with speed limits 1 and 3, the target altitude reached. *)
Definition example_directive (mode : waypoint_choice) : avoidanceOutput :=
  mkAvoidanceOutput mode false 1 1 3 true (pose_at origin) (pose_at origin)
    origin origin 0 0 nil 0.

(** Acceptance radii 0.5 and 1.5; close-to-goal factors 3 and 4, speed
    factor 0.1 and minimum speed 0.5. *)
Definition example_params : waypointGeneratorParams := mkParams 0.5 1.5 3 4 0.1 0.5.

(** The generator at the origin, at rest, goal at the origin, speed 1,
    maximum jerk 1 with no velocity-dependent part, clock at 0. *)
Definition idle : WaypointGenerator :=
  Build_WaypointGenerator (example_directive direct)
    (Build_waypointResult hover (pose_at origin) at_rest origin origin origin)
    example_params hover (pose_at origin) at_rest 0 0 0 0 origin origin
    0 0 0 0 0 1 (pose_at origin) (mkV2 0 0) false false false false
    59 46 nil 0 0 1 0 (fun _ => 0%Z) 0.

(** One unit short of the goal at speed 1: inside the close-to-goal zone. *)
Definition near_goal : WaypointGenerator :=
  set_curr_vel_magnitude_ 1 (set_goal_ (mkV3 1 0 0) idle).

(** A quarter of a unit from the goal, inside the inner acceptance radius. *)
Definition arriving : WaypointGenerator := set_pose_ (pose_at (mkV3 0.25 0 0)) idle.

(** At the goal, with both sticky flags set. *)
Definition arrived : WaypointGenerator :=
  set_limit_speed_close_to_goal_ true (set_reached_goal_ true idle).

(** Cruising along +y at the maximum speed 3 toward a goal 20 away, the
    candidate point one unit ahead and its index visible, the state 0.1 s old
    at every clock reading. *)
Definition cruising : WaypointGenerator :=
  Build_WaypointGenerator (example_directive direct)
    (Build_waypointResult direct (pose_at origin) at_rest
       (mkV3 0 1 0) (mkV3 0 1 0) origin)
    example_params direct (pose_at origin) (mkTwist (mkV3 0 3 0) origin)
    0 0 0 0 (mkV3 0 20 0) origin
    0 0 0 0 3 3 (pose_at origin) (mkV2 0 3) false false false false
    59 46 (30 :: nil)%Z 0 0 1 0 (fun _ => 100000000%Z) 0.

(** The candidate index 30 is five indices (30 degrees) from the only
    visible index. *)
Definition looking_away : WaypointGenerator :=
  set_z_FOV_idx_ (35 :: nil)%Z (set_goal_ (mkV3 0 20 0) idle).

(** The adapted target two units ahead of the previous waypoint. *)
Definition stepping : WaypointGenerator :=
  set_output_
    (Build_waypointResult direct (pose_at origin) at_rest
       (mkV3 2 0 0) (mkV3 2 0 0) origin) idle.

(** The same with the jerk limit configured as 0. *)
Definition stepping_unlimited : WaypointGenerator :=
  Build_WaypointGenerator (example_directive direct)
    (Build_waypointResult direct (pose_at origin) at_rest
       (mkV3 2 0 0) (mkV3 2 0 0) origin)
    example_params hover (pose_at origin) at_rest 0 0 0 0 origin origin
    0 0 0 0 0 1 (pose_at origin) (mkV2 0 0) false false false false
    59 46 nil 0 0 0 0 (fun _ => 0%Z) 0.

(** [tryPath] with a path of one node refreshed at time 0, an obstacle
    ahead, and a clock that reads 6 s. *)
Definition stale_path : WaypointGenerator :=
  Build_WaypointGenerator
    (mkAvoidanceOutput tryPath true 1 1 3 true (pose_at origin) (pose_at origin)
       origin origin 0 0 (mkV3 0 0 0 :: nil) 0)
    (Build_waypointResult hover (pose_at origin) at_rest origin origin origin)
    example_params direct (pose_at origin) at_rest 0 0 0 0 (mkV3 10 0 0) origin
    0 0 0 0 0 1 (pose_at origin) (mkV2 0 0) false false false false
    59 46 nil 0 0 1 0 (fun _ => 6000000000%Z) 0.

(** [goBack] at (0,0,2) with the back-off point at (1,0,2) and the back-off
    start point at altitude 5. *)
Definition backing_off : WaypointGenerator :=
  Build_WaypointGenerator
    (mkAvoidanceOutput goBack true 1 1 3 true (pose_at origin) (pose_at origin)
       (mkV3 1 0 2) (mkV3 0 0 5) 0 0 nil 0)
    (Build_waypointResult hover (pose_at origin) at_rest origin origin origin)
    example_params direct (pose_at (mkV3 0 0 2)) at_rest 0 0 0 0 (mkV3 10 0 2) origin
    0 0 0 0 0 1 (pose_at origin) (mkV2 0 0) false false false false
    59 46 nil 0 0 1 0 (fun _ => 0%Z) 0.

(** Binary32 values: 1, 2, 3 and 5. *)
Definition f32_1 : F32.float := S754_finite false 8388608 (-23).

Definition f32_2 : F32.float := S754_finite false 8388608 (-22).

Definition f32_3 : F32.float := S754_finite false 12582912 (-22).

Definition f32_5 : F32.float := S754_finite false 10485760 (-21).

(** ** Notions used to state the properties *)

(** The squared distance of cpp:175 and the two squared radii of cpp:178
    and cpp:183-184, as [withinGoalRadius] computes them. *)
Definition sqrd_dist_to_goal (s : WaypointGenerator) : R :=
  squaredNorm32 (vsub32 (goal_ s) (toEigen32 (position (pose_ s)))).

Definition sqrd_radius_in (s : WaypointGenerator) : R :=
  mul64 (goal_acceptance_radius_in (param_ s)) (goal_acceptance_radius_in (param_ s)).

Definition sqrd_radius_out (s : WaypointGenerator) : R :=
  mul64 (goal_acceptance_radius_out (param_ s)) (goal_acceptance_radius_out (param_ s)).

(** The distance to the goal of cpp:50 and the distance that the goal moves
    by at cpp:100, as the code computes them. *)
Definition dist_to_goal32 (s : WaypointGenerator) : R :=
  norm32 (vsub32 (goal_ s) (toEigen32 (position (pose_ s)))).

Definition goal_moved32 (s : WaypointGenerator) (goal : PoseStamped) : R :=
  norm32 (vsub32 (goal_ s) (toEigen32 (position goal))).

(** The members that [getPathMsg] and the methods it calls never assign. *)
Record same_inputs (s s' : WaypointGenerator) : Prop := mk_same_inputs {
  si_planner_info : planner_info_ s' = planner_info_ s;
  si_param : param_ s' = param_ s;
  si_last_wp_type : last_wp_type_ s' = last_wp_type_ s;
  si_pose : pose_ s' = pose_ s;
  si_curr_vel : curr_vel_ s' = curr_vel_ s;
  si_update_time : update_time_ s' = update_time_ s;
  si_current_time : current_time_ s' = current_time_ s;
  si_last_time : last_time_ s' = last_time_ s;
  si_goal : goal_ s' = goal_ s;
  si_hover_position : hover_position_ s' = hover_position_ s;
  si_curr_yaw : curr_yaw_ s' = curr_yaw_ s;
  si_last_yaw : last_yaw_ s' = last_yaw_ s;
  si_curr_vel_magnitude : curr_vel_magnitude_ s' = curr_vel_magnitude_ s;
  si_last_position_waypoint : last_position_waypoint_ s' = last_position_waypoint_ s;
  si_last_velocity : last_velocity_ s' = last_velocity_ s;
  si_z_FOV_idx : z_FOV_idx_ s' = z_FOV_idx_ s;
  si_max_jerk : max_jerk_limit_param_ s' = max_jerk_limit_param_ s;
  si_min_jerk : min_jerk_limit_param_ s' = min_jerk_limit_param_ s;
  si_ros_clock : ros_clock s' = ros_clock s;
  si_result_type : result_waypoint_type (output_ s') = result_waypoint_type (output_ s)
}.

(** The members that only [withinGoalRadius] and the raw-goal stage assign. *)
Record same_goal_state (s s' : WaypointGenerator) : Prop := mk_same_goal_state {
  sg_reached_goal : reached_goal_ s' = reached_goal_ s;
  sg_yaw_reached_goal : yaw_reached_goal_ s' = yaw_reached_goal_ s;
  sg_goto_position : goto_position (output_ s') = goto_position (output_ s)
}.

Arguments si_planner_info {s s'} _.
Arguments si_param {s s'} _.
Arguments si_last_wp_type {s s'} _.
Arguments si_pose {s s'} _.
Arguments si_curr_vel {s s'} _.
Arguments si_update_time {s s'} _.
Arguments si_current_time {s s'} _.
Arguments si_last_time {s s'} _.
Arguments si_goal {s s'} _.
Arguments si_hover_position {s s'} _.
Arguments si_curr_yaw {s s'} _.
Arguments si_last_yaw {s s'} _.
Arguments si_curr_vel_magnitude {s s'} _.
Arguments si_last_position_waypoint {s s'} _.
Arguments si_last_velocity {s s'} _.
Arguments si_z_FOV_idx {s s'} _.
Arguments si_max_jerk {s s'} _.
Arguments si_min_jerk {s s'} _.
Arguments si_ros_clock {s s'} _.
Arguments si_result_type {s s'} _.
Arguments sg_reached_goal {s s'} _.
Arguments sg_yaw_reached_goal {s s'} _.
Arguments sg_goto_position {s s'} _.

(** What a handler keeps of the state it is entered with before it calls
    [getPathMsg]. *)
Record same_vehicle (s s' : WaypointGenerator) : Prop := mk_same_vehicle {
  sv_planner_info : planner_info_ s' = planner_info_ s;
  sv_param : param_ s' = param_ s;
  sv_pose : pose_ s' = pose_ s;
  sv_goal : goal_ s' = goal_ s;
  sv_current_time : current_time_ s' = current_time_ s;
  sv_last_time : last_time_ s' = last_time_ s;
  sv_reached_goal : reached_goal_ s' = reached_goal_ s;
  sv_yaw_reached_goal : yaw_reached_goal_ s' = yaw_reached_goal_ s
}.
Arguments sv_planner_info {s s'} _.
Arguments sv_param {s s'} _.
Arguments sv_pose {s s'} _.
Arguments sv_goal {s s'} _.
Arguments sv_current_time {s s'} _.
Arguments sv_last_time {s s'} _.
Arguments sv_reached_goal {s s'} _.
Arguments sv_yaw_reached_goal {s s'} _.

(** The law of the goal radius between the state [s] a tick starts from and
    the state [s'] it ends in, on the squared distance and the squared radii
    that the code compares: the flag is set below the inner radius, a set
    flag stays set up to the outer radius and is cleared only beyond it, a
    distance beyond the outer radius and not below the inner one clears the
    flag, the yaw is stored when the flag becomes set and kept while it
    stays set, and with the flag set the smoothed target is the goal and the
    yaw the stored one. *)
Definition goal_radius_law (ext : Externals) (s s' : WaypointGenerator) : Prop :=
  (sqrd_dist_to_goal s < sqrd_radius_in s -> reached_goal_ s' = true)
  /\ (reached_goal_ s = true ->
      sqrd_dist_to_goal s <= sqrd_radius_out s -> reached_goal_ s' = true)
  /\ (reached_goal_ s = true -> reached_goal_ s' = false ->
      sqrd_dist_to_goal s > sqrd_radius_out s)
  /\ (sqrd_radius_in s <= sqrd_dist_to_goal s ->
      sqrd_dist_to_goal s > sqrd_radius_out s -> reached_goal_ s' = false)
  /\ (reached_goal_ s = false -> reached_goal_ s' = true ->
      sqrd_dist_to_goal s < sqrd_radius_in s
      /\ yaw_reached_goal_ s' = getYaw ext (orientation (pose_ s)))
  /\ (reached_goal_ s = true -> yaw_reached_goal_ s' = yaw_reached_goal_ s)
  /\ (reached_goal_ s' = true ->
      smoothed_goto_position (output_ s') = toPoint (goal_ s)
      /\ new_yaw_ s' = yaw_reached_goal_ s'
      /\ position_waypoint (output_ s') =
         createPoseMsg ext (toPoint (goal_ s)) (yaw_reached_goal_ s')).

(** ** Tactics *)

Ltac split_ifs :=
  repeat match goal with
         | |- context [if ?c then _ else _] => destruct c
         end.

Ltac frame_by_cases :=
  unfold now, upd_output; split_ifs; constructor; reflexivity.

Ltac Rdecide :=
  unfold Rgtb, Rltb, Rabs, Rmin, Rmax;
  repeat match goal with
         | |- context [Rlt_dec ?a ?b] => destruct (Rlt_dec a b); try lra
         | |- context [Rle_dec ?a ?b] => destruct (Rle_dec a b); try lra
         | |- context [Rcase_abs ?a] => destruct (Rcase_abs a); try lra
         end.


(** ** More states for the examples, and the speed state *)

(** About to hold at (1,2,3): the directive asks for [hover], the tick
    before ran in [direct] mode. *)
Definition hold_start : WaypointGenerator :=
  set_planner_info_ (example_directive hover)
    (set_pose_ (pose_at (mkV3 1 2 3)) (set_last_wp_type_ direct idle)).

(** Taking off from the origin toward a goal 3 overhead: the target
    altitude is not reached yet, the offboard position is the origin and
    [min_speed] is 1. *)
Definition taking_off : WaypointGenerator :=
  set_planner_info_
    (mkAvoidanceOutput reachHeight false 1 1 3 false (pose_at origin) (pose_at origin)
       origin origin 0 0 nil 0)
    (set_goal_ (mkV3 0 0 3) idle).

(** [cruising] with the jerk limit configured as 0. *)
Definition cruising_unlimited : WaypointGenerator :=
  Build_WaypointGenerator (example_directive direct)
    (Build_waypointResult direct (pose_at origin) at_rest
       (mkV3 0 1 0) (mkV3 0 1 0) origin)
    example_params direct (pose_at origin) (mkTwist (mkV3 0 3 0) origin)
    0 0 0 0 (mkV3 0 20 0) origin
    0 0 0 0 3 3 (pose_at origin) (mkV2 0 3) false false false false
    59 46 (30 :: nil)%Z 0 0 0 0 (fun _ => 100000000%Z) 0.

(** [costmap] mode at the origin; the pose the planner stored with its
    directive is (5,5,5). *)
Definition following_costmap : WaypointGenerator :=
  set_planner_info_
    (mkAvoidanceOutput costmap false 1 1 3 true (pose_at (mkV3 5 5 5)) (pose_at origin)
       origin origin 0 0 nil 0)
    idle.

(** Three inputs on a threshold.  [just_inside] is 0.499999999 from its
    goal, with the inner radius 0.5. *)
Definition just_inside : WaypointGenerator :=
  set_pose_ (pose_at (mkV3 0.499999999 0 0)) idle.

(** [tryPath] with a path of one node refreshed at the clock's time and no
    obstacle ahead; the goal is at x = 4 and the vehicle a billionth of a
    unit behind the origin. *)
Definition just_beyond_four : WaypointGenerator :=
  Build_WaypointGenerator
    (mkAvoidanceOutput tryPath false 1 1 3 true (pose_at origin) (pose_at origin)
       origin origin 0 0 (mkV3 0 0 0 :: nil) 0)
    (Build_waypointResult hover (pose_at origin) at_rest origin origin origin)
    example_params direct (pose_at (mkV3 (-0.000000001) 0 0)) at_rest 0 0 0 0
    (mkV3 4 0 0) origin
    0 0 0 0 0 1 (pose_at origin) (mkV2 0 0) false false false false
    59 46 nil 0 0 1 0 (fun _ => 0%Z) 0.

(** A goal 0.09999999999 from the goal that [arrived] stores. *)
Definition goal_nudged : PoseStamped := pose_at (mkV3 0.09999999999 0 0).

(** The helpers of the examples with the candidate seen just short of the
    +-180 degree seam: azimuth 177 degrees, the last index (59) of the 60
    at the resolution of 6 degrees. *)
Definition seam_externals : Externals :=
  {| ALPHA_RES := 6;
     velocityLinear := velocityLinear_ramp;
     azimuthAnglefromCartesian := fun _ _ => 177;
     azimuthAngletoIndex := fun _ _ => 59%Z;
     nextYaw := fun _ _ => 0;
     createPoseMsg := fun p yaw => mkPose p (mkQuat 0 0 (sin (yaw / 2)) (cos (yaw / 2)));
     getAngularVelocity := fun desired curr => desired - curr;
     fromPolarToCartesian := fun _ _ r p => mkV3 (x p) (y p + r) (z p);
     getDirectionFromTree :=
       fun path _ =>
         match path with
         | nil => (false, origin)
         | node :: _ => (true, node)
         end;
     calculateFOV := fun _ _ _ _ => (nil, 0%Z, 0%Z);
     getYaw := fun _ => 0;
     getRPY := fun _ => (0, 0, 0) |}.

(** Cruising along -y at the maximum speed 3 toward a goal 20 away, the
    target altitude reached and the goal not; the candidate point is one
    unit ahead, a little to the side; the visible indices are the first ten
    (azimuths from -180 to -120 degrees), the other side of the seam. *)
Definition facing_seam : WaypointGenerator :=
  Build_WaypointGenerator (example_directive direct)
    (Build_waypointResult direct (pose_at origin) at_rest
       (mkV3 0.05 (-1) 0) (mkV3 0.05 (-1) 0) origin)
    example_params direct (pose_at origin) (mkTwist (mkV3 0 (-3) 0) origin)
    0 0 0 0 (mkV3 1 (-20) 0) origin
    0 0 0 0 3 3 (pose_at origin) (mkV2 0 (-3)) false false false false
    59 46 (0 :: 1 :: 2 :: 3 :: 4 :: 5 :: 6 :: 7 :: 8 :: 9 :: nil)%Z
    0 0 1 0 (fun _ => 100000000%Z) 0.

(** The angular distance in the words of the spec: between two azimuth
    indices it is taken the shorter way round the circle of 360 degrees,
    and the distance to the visible set is the least of these, capped at 30
    degrees. *)
Definition spec_index_angle (res a b : Z) : Z :=
  let d := ((Z.abs (a - b) * res) mod 360)%Z in
  Z.min d (360 - d).

Definition spec_fov_angle_diff (res : Z) (z_FOV_idx : list Z) (z_index : Z) : R :=
  Rmin
    (IZR (fold_left (fun least idx => Z.min least (spec_index_angle res idx z_index))
            z_FOV_idx 360%Z))
    30.

(** The members that only [adaptSpeed] assigns. *)
Record same_speed_state (s s' : WaypointGenerator) : Prop := mk_same_speed_state {
  ss_speed : speed_ s' = speed_ s;
  ss_velocity_time : velocity_time_ s' = velocity_time_ s;
  ss_limit_speed : limit_speed_close_to_goal_ s' = limit_speed_close_to_goal_ s;
  ss_only_yawed : only_yawed_ s' = only_yawed_ s;
  ss_waypoint_outside_FOV : waypoint_outside_FOV_ s' = waypoint_outside_FOV_ s
}.
Arguments ss_speed {s s'} _.
Arguments ss_velocity_time {s s'} _.
Arguments ss_limit_speed {s s'} _.
Arguments ss_only_yawed {s s'} _.
Arguments ss_waypoint_outside_FOV {s s'} _.
(** * Properties *)

(** ** Arithmetic of the comparisons and of the norm *)

Lemma Rltb_true (a b : R) : Rltb a b = true <-> a < b.
Proof. unfold Rltb; destruct (Rlt_dec a b); split; intros; easy. Qed.

Lemma Rltb_false (a b : R) : Rltb a b = false <-> ~ a < b.
Proof. unfold Rltb; destruct (Rlt_dec a b); split; intros; easy. Qed.

Lemma squaredNorm_nonneg (a : Vector3f) : 0 <= squaredNorm a.
Proof. unfold squaredNorm. nra. Qed.

Lemma norm_nonneg (a : Vector3f) : 0 <= norm a.
Proof. apply sqrt_pos. Qed.

Lemma norm_sqr (a : Vector3f) : norm a * norm a = squaredNorm a.
Proof. apply sqrt_sqrt, squaredNorm_nonneg. Qed.

Lemma squaredNorm2_nonneg (a : Vector2f) : 0 <= squaredNorm2 a.
Proof. unfold squaredNorm2. nra. Qed.

(** ** Frame: what the stages of a tick leave alone *)

Lemma same_inputs_refl (s : WaypointGenerator) : same_inputs s s.
Proof. constructor; reflexivity. Qed.

Lemma same_inputs_trans (s1 s2 s3 : WaypointGenerator) :
  same_inputs s1 s2 -> same_inputs s2 s3 -> same_inputs s1 s3.
Proof. intros [] []; constructor; congruence. Qed.

Lemma same_goal_state_trans (s1 s2 s3 : WaypointGenerator) :
  same_goal_state s1 s2 -> same_goal_state s2 s3 -> same_goal_state s1 s3.
Proof. intros [] []; constructor; congruence. Qed.

Lemma reached_goal_upd_output f (s : WaypointGenerator) :
  reached_goal_ (upd_output f s) = reached_goal_ s.
Proof. reflexivity. Qed.

Lemma yaw_reached_goal_upd_output f (s : WaypointGenerator) :
  yaw_reached_goal_ (upd_output f s) = yaw_reached_goal_ s.
Proof. reflexivity. Qed.

Section Frames.

Variable ext : Externals.

Lemma adaptSpeed_envelope_frame (s : WaypointGenerator) :
  same_inputs s (adaptSpeed_envelope ext s)
  /\ same_goal_state s (adaptSpeed_envelope ext s).
Proof. unfold adaptSpeed_envelope; split; frame_by_cases. Qed.

Lemma adaptSpeed_FOV_frame (s : WaypointGenerator) :
  same_inputs s (adaptSpeed_FOV ext s)
  /\ same_goal_state s (adaptSpeed_FOV ext s).
Proof. unfold adaptSpeed_FOV; split; frame_by_cases. Qed.

Lemma adaptSpeed_delay_frame (s : WaypointGenerator) :
  same_inputs s (adaptSpeed_delay s) /\ same_goal_state s (adaptSpeed_delay s).
Proof. unfold adaptSpeed_delay; split; frame_by_cases. Qed.

Lemma adaptSpeed_closeToGoal_frame (s : WaypointGenerator) :
  same_inputs s (adaptSpeed_closeToGoal s)
  /\ same_goal_state s (adaptSpeed_closeToGoal s).
Proof. unfold adaptSpeed_closeToGoal; split; frame_by_cases. Qed.

Lemma adaptSpeed_setWaypoint_frame (s : WaypointGenerator) :
  same_inputs s (adaptSpeed_setWaypoint s)
  /\ same_goal_state s (adaptSpeed_setWaypoint s).
Proof.
  unfold adaptSpeed_setWaypoint, upd_output; split; constructor; reflexivity.
Qed.

Lemma adaptSpeed_frame (s : WaypointGenerator) :
  same_inputs s (adaptSpeed ext s) /\ same_goal_state s (adaptSpeed ext s).
Proof.
  unfold adaptSpeed.
  pose proof (adaptSpeed_envelope_frame s) as [I1 G1].
  pose proof (adaptSpeed_FOV_frame (adaptSpeed_envelope ext s)) as [I2 G2].
  pose proof (adaptSpeed_delay_frame (adaptSpeed_FOV ext (adaptSpeed_envelope ext s)))
    as [I3 G3].
  pose proof (adaptSpeed_closeToGoal_frame
                (adaptSpeed_delay (adaptSpeed_FOV ext (adaptSpeed_envelope ext s))))
    as [I4 G4].
  pose proof (adaptSpeed_setWaypoint_frame
                (adaptSpeed_closeToGoal
                   (adaptSpeed_delay (adaptSpeed_FOV ext (adaptSpeed_envelope ext s)))))
    as [I5 G5].
  split.
  - exact (same_inputs_trans _ _ _ I1 (same_inputs_trans _ _ _ I2
             (same_inputs_trans _ _ _ I3 (same_inputs_trans _ _ _ I4 I5)))).
  - exact (same_goal_state_trans _ _ _ G1 (same_goal_state_trans _ _ _ G2
             (same_goal_state_trans _ _ _ G3 (same_goal_state_trans _ _ _ G4 G5)))).
Qed.

Lemma reachGoalAltitudeFirst_frame (s : WaypointGenerator) :
  same_inputs s (reachGoalAltitudeFirst s)
  /\ reached_goal_ (reachGoalAltitudeFirst s) = reached_goal_ s
  /\ yaw_reached_goal_ (reachGoalAltitudeFirst s) = yaw_reached_goal_ s.
Proof.
  unfold reachGoalAltitudeFirst, upd_output; cbn.
  destruct (_ && _); (split; [constructor; reflexivity | split; reflexivity]).
Qed.

Lemma smoothWaypoint_frame (dt : R) (s : WaypointGenerator) :
  same_inputs s (smoothWaypoint dt s) /\ same_goal_state s (smoothWaypoint dt s).
Proof.
  unfold smoothWaypoint, upd_output; split; constructor; reflexivity.
Qed.

Lemma set_new_yaw_frame (v : R) (s : WaypointGenerator) :
  same_inputs s (set_new_yaw_ v s) /\ same_goal_state s (set_new_yaw_ v s).
Proof. split; constructor; reflexivity. Qed.

Lemma upd_adapted_frame (f : waypointResult -> Point) (s : WaypointGenerator) :
  let s' := upd_output (fun o => set_adapted_goto_position (f o) o) s in
  same_inputs s s' /\ same_goal_state s s'.
Proof. split; constructor; reflexivity. Qed.

Lemma upd_smoothed_frame (f : waypointResult -> Point) (s : WaypointGenerator) :
  let s' := upd_output (fun o => set_smoothed_goto_position (f o) o) s in
  same_inputs s s' /\ same_goal_state s s'.
Proof. split; constructor; reflexivity. Qed.

(** [getPathMsg_target] leaves the inputs and the goal flags alone; it keeps
    the raw goal point as well once the target altitude is reached. *)
Lemma getPathMsg_target_frame (s : WaypointGenerator) :
  same_inputs s (getPathMsg_target ext s)
  /\ reached_goal_ (getPathMsg_target ext s) = reached_goal_ s
  /\ yaw_reached_goal_ (getPathMsg_target ext s) = yaw_reached_goal_ s
  /\ (reach_altitude (planner_info_ s) = true ->
      goto_position (output_ (getPathMsg_target ext s)) = goto_position (output_ s)).
Proof.
  unfold getPathMsg_target.
  generalize (path_dt (upd_output (fun o => set_adapted_goto_position (goto_position o) o) s)).
  intros dt.
  destruct (upd_adapted_frame goto_position s) as [I0 G0].
  remember (upd_output (fun o => set_adapted_goto_position (goto_position o) o) s) as s0.
  destruct (set_new_yaw_frame (nextYaw ext (pose_ s0) (adapted_goto_position (output_ s0))) s0)
    as [I1 G1].
  remember (set_new_yaw_ (nextYaw ext (pose_ s0) (adapted_goto_position (output_ s0))) s0)
    as s1.
  destruct (adaptSpeed_frame s1) as [I2 G2].
  remember (adaptSpeed ext s1) as s2.
  destruct (upd_smoothed_frame adapted_goto_position s2) as [I3 G3].
  remember (upd_output (fun o => set_smoothed_goto_position (adapted_goto_position o) o) s2)
    as s3.
  assert (I : same_inputs s s3)
    by exact (same_inputs_trans _ _ _ I0 (same_inputs_trans _ _ _ I1
                (same_inputs_trans _ _ _ I2 I3))).
  assert (G : same_goal_state s s3)
    by exact (same_goal_state_trans _ _ _ G0 (same_goal_state_trans _ _ _ G1
                (same_goal_state_trans _ _ _ G2 G3))).
  clear I0 G0 I1 G1 I2 G2 I3 G3 Heqs0 Heqs1 Heqs2 Heqs3.
  assert (Hpi : planner_info_ s3 = planner_info_ s) by exact (si_planner_info I).
  rewrite Hpi.
  destruct (reach_altitude (planner_info_ s)); cbn [negb].
  - destruct (smoothWaypoint_frame dt s3) as [I4 G4].
    pose proof (same_goal_state_trans _ _ _ G G4) as [? ? ?].
    split; [exact (same_inputs_trans _ _ _ I I4)|]. auto.
  - destruct (reachGoalAltitudeFirst_frame s3) as (I4 & R4 & Y4).
    destruct G as [GR GY _].
    destruct (upd_adapted_frame goto_position (reachGoalAltitudeFirst s3)) as [I5 G5].
    remember (upd_output (fun o => set_adapted_goto_position (goto_position o) o)
                (reachGoalAltitudeFirst s3)) as s5.
    destruct (upd_smoothed_frame goto_position s5) as [I6 G6].
    destruct G5 as [R5 Y5 _]. destruct G6 as [R6 Y6 _].
    split; [|split; [|split]].
    + exact (same_inputs_trans _ _ _ I (same_inputs_trans _ _ _ I4
               (same_inputs_trans _ _ _ I5 I6))).
    + congruence.
    + congruence.
    + discriminate.
Qed.

End Frames.
(** ** Rounding: the values it takes *)

Lemma bpow_pos (e : Z) : 0 < bpow e.
Proof. apply powerRZ_lt. lra. Qed.

Lemma bpow_add (a b : Z) : bpow (a + b) = bpow a * bpow b.
Proof. apply powerRZ_add. lra. Qed.

Lemma bpow_nonneg_IZR (k : Z) : (0 <= k)%Z -> bpow k = IZR (2 ^ k).
Proof.
  intros Hk. unfold bpow. rewrite <- (Z2Nat.id k Hk) at 1.
  rewrite <- pow_powerRZ, pow_IZR, Z2Nat.id by exact Hk. reflexivity.
Qed.

Lemma ln_bpow (e : Z) : ln (bpow e) = IZR e * ln 2.
Proof. unfold bpow. rewrite powerRZ_Rpower by lra. apply ln_Rpower. Qed.

Lemma ln_2_pos : 0 < ln 2.
Proof. pose proof ln_lt_2. lra. Qed.

Lemma ilog2_unique (v : R) (e : Z) :
  bpow e <= Rabs v < bpow (e + 1) -> ilog2 v = e.
Proof.
  intros (Hlo & Hhi). unfold ilog2. symmetry. apply Int_part_spec.
  pose proof ln_2_pos as H2. pose proof (bpow_pos e) as He.
  assert (Hl : IZR e * ln 2 <= ln (Rabs v)).
  { rewrite <- ln_bpow. destruct Hlo as [Hlt | ->]; [| lra].
    apply Rlt_le, ln_increasing; assumption. }
  assert (Hh : ln (Rabs v) < IZR (e + 1) * ln 2).
  { rewrite <- ln_bpow. apply ln_increasing; lra. }
  rewrite plus_IZR in Hh.
  assert (Hq : ln (Rabs v) = ln (Rabs v) / ln 2 * ln 2) by (field; lra).
  rewrite Hq in Hl, Hh. clear Hq. revert Hl Hh.
  generalize (ln (Rabs v) / ln 2). intros q Hl Hh.
  assert (H1 : IZR e <= q) by (apply Rmult_le_reg_r with (ln 2); lra).
  assert (H3 : q < IZR e + 1) by (apply Rmult_lt_reg_r with (ln 2); lra).
  split; lra.
Qed.

(** An upper bound on the magnitude bounds the exponent. *)
Lemma ilog2_lt (v : R) (e : Z) : v <> 0 -> Rabs v < bpow e -> (ilog2 v < e)%Z.
Proof.
  intros Hv Hhi. unfold ilog2.
  destruct (base_Int_part (ln (Rabs v) / ln 2)) as (Hle & _).
  pose proof ln_2_pos as H2.
  assert (Hpos : 0 < Rabs v) by (apply Rabs_pos_lt; exact Hv).
  assert (Hh : ln (Rabs v) < IZR e * ln 2)
    by (rewrite <- ln_bpow; apply ln_increasing; assumption).
  assert (Hq : ln (Rabs v) = ln (Rabs v) / ln 2 * ln 2) by (field; lra).
  rewrite Hq in Hh. clear Hq. revert Hle Hh.
  generalize (ln (Rabs v) / ln 2). intros q Hle Hh.
  assert (H3 : q < IZR e) by (apply Rmult_lt_reg_r with (ln 2); lra).
  apply lt_IZR. lra.
Qed.

Lemma nearest_even_close (r : R) (n : Z) :
  Rabs (r - IZR n) < 1 / 2 -> nearest_even r = n.
Proof.
  intros Hc. unfold nearest_even.
  destruct (base_Int_part r) as (Hle & Hgt).
  apply Rabs_def2 in Hc. destruct Hc as (Hc1 & Hc2).
  assert (Hcase : (n = Int_part r \/ n = Int_part r + 1)%Z).
  { assert (H1 : (Int_part r - 1 < n)%Z) by (apply lt_IZR; rewrite minus_IZR; lra).
    assert (H2 : (n < Int_part r + 2)%Z) by (apply lt_IZR; rewrite plus_IZR; lra).
    lia. }
  destruct Hcase as [-> | ->].
  - replace (Rltb (r - IZR (Int_part r)) (1 / 2)) with true
      by (symmetry; apply Rltb_true; lra).
    reflexivity.
  - rewrite plus_IZR in Hc1, Hc2.
    replace (Rltb (r - IZR (Int_part r)) (1 / 2)) with false
      by (symmetry; apply Rltb_false; lra).
    replace (Rltb (1 / 2) (r - IZR (Int_part r))) with true
      by (symmetry; apply Rltb_true; lra).
    reflexivity.
Qed.

Lemma nearest_even_IZR (n : Z) : nearest_even (IZR n) = n.
Proof.
  apply nearest_even_close. rewrite Rminus_diag, Rabs_R0. lra.
Qed.

(** The rounded value from the binade of [v] and the nearest multiple of
    the unit in the last place. *)
Lemma round_to_eq (prec emin : Z) (v : R) (e n : Z) :
  bpow e <= Rabs v < bpow (e + 1) ->
  Rabs (v / bpow (Z.max (e - prec + 1) emin) - IZR n) < 1 / 2 ->
  round_to prec emin v = IZR n * bpow (Z.max (e - prec + 1) emin).
Proof.
  intros Hb Hn. unfold round_to. rewrite (ilog2_unique v e Hb).
  rewrite (nearest_even_close _ n Hn). reflexivity.
Qed.

(** A value of the format is not changed. *)
Lemma round_to_grid (prec emin : Z) (m k : Z) :
  (0 < prec)%Z -> (Z.abs m < 2 ^ prec)%Z -> (emin <= k)%Z ->
  round_to prec emin (IZR m * bpow k) = IZR m * bpow k.
Proof.
  intros Hprec Hm Hk. unfold round_to.
  destruct (Z.eq_dec m 0) as [-> | Hm0].
  - rewrite Rmult_0_l. unfold Rdiv. rewrite Rmult_0_l, nearest_even_IZR. lra.
  - set (v := IZR m * bpow k).
    assert (Hv : v <> 0).
    { unfold v. pose proof (bpow_pos k). apply Rmult_integral_contrapositive_currified;
        [apply not_0_IZR; exact Hm0 | lra]. }
    assert (Hlt : (ilog2 v < k + prec)%Z).
    { apply ilog2_lt; [exact Hv |]. unfold v.
      rewrite Rabs_mult, (Rabs_pos_eq (bpow k)) by (apply Rlt_le, bpow_pos).
      rewrite Z.add_comm, bpow_add. apply Rmult_lt_compat_r; [apply bpow_pos |].
      rewrite bpow_nonneg_IZR by lia. rewrite <- abs_IZR. apply IZR_lt. exact Hm. }
    set (q := Z.max (ilog2 v - prec + 1) emin).
    assert (Hq : (q <= k)%Z) by (unfold q; lia).
    assert (E : v / bpow q = IZR (m * 2 ^ (k - q))).
    { unfold v. rewrite mult_IZR, <- bpow_nonneg_IZR by lia.
      replace k with ((k - q) + q)%Z at 1 by lia. rewrite bpow_add.
      pose proof (bpow_pos q). field. lra. }
    rewrite E, nearest_even_IZR, <- E. pose proof (bpow_pos q). field. lra.
Qed.

Lemma round32_grid (m k : Z) :
  (Z.abs m < 2 ^ 24)%Z -> (-149 <= k)%Z -> round32 (IZR m * bpow k) = IZR m * bpow k.
Proof. intros. apply round_to_grid; [lia | assumption | assumption]. Qed.

Lemma round64_grid (m k : Z) :
  (Z.abs m < 2 ^ 53)%Z -> (-1074 <= k)%Z -> round64 (IZR m * bpow k) = IZR m * bpow k.
Proof. intros. apply round_to_grid; [lia | assumption | assumption]. Qed.

(** Whole numbers below [2^24] are binary32 values. *)
Lemma round32_IZR (m : Z) : (Z.abs m < 2 ^ 24)%Z -> round32 (IZR m) = IZR m.
Proof.
  intros Hm. pose proof (round32_grid m 0 Hm) as H.
  unfold bpow in H. rewrite powerRZ_O, Rmult_1_r in H. apply H. lia.
Qed.

Lemma round64_IZR (m : Z) : (Z.abs m < 2 ^ 53)%Z -> round64 (IZR m) = IZR m.
Proof.
  intros Hm. pose proof (round64_grid m 0 Hm) as H.
  unfold bpow in H. rewrite powerRZ_O, Rmult_1_r in H. apply H. lia.
Qed.

Lemma bpow_neg_IZR (k : Z) : (0 <= k)%Z -> bpow (- k) = / IZR (2 ^ k).
Proof.
  intros Hk. unfold bpow. rewrite powerRZ_neg'. fold (bpow k).
  rewrite bpow_nonneg_IZR by exact Hk. reflexivity.
Qed.

Ltac bpow_num :=
  repeat match goal with
         | |- context [bpow (Zneg ?p)] =>
             change (bpow (Zneg p)) with (bpow (- Zpos p));
             rewrite (bpow_neg_IZR (Zpos p)) by lia
         | |- context [bpow (Zpos ?p)] =>
             rewrite (bpow_nonneg_IZR (Zpos p)) by lia
         | |- context [bpow 0] =>
             rewrite (bpow_nonneg_IZR 0) by lia
         end;
  repeat match goal with
         | |- context [IZR (2 ^ ?k)] =>
             let v := eval vm_compute in (2 ^ k)%Z in
             change (2 ^ k)%Z with v
         end.

(** A value on the grid of the format is left as it is. *)
Lemma round32_exact (v : R) (m k : Z) :
  v = IZR m * bpow k -> (Z.abs m < 2 ^ 24)%Z -> (-149 <= k)%Z -> round32 v = v.
Proof. intros -> Hm Hk. apply round32_grid; assumption. Qed.

Lemma round64_exact (v : R) (m k : Z) :
  v = IZR m * bpow k -> (Z.abs m < 2 ^ 53)%Z -> (-1074 <= k)%Z -> round64 v = v.
Proof. intros -> Hm Hk. apply round64_grid; assumption. Qed.

Lemma round32_0 : round32 0 = 0.
Proof. apply (round32_IZR 0). reflexivity. Qed.

Lemma round32_1 : round32 1 = 1.
Proof. apply (round32_IZR 1). reflexivity. Qed.

(** The double nearest to 0.1, the threshold of cpp:100. *)
Lemma round64_tenth : round64 0.1 = 7205759403792794 / 72057594037927936.
Proof.
  unfold round64.
  rewrite (round_to_eq 53 (-1074) 0.1 (-4) 7205759403792794).
  - change (Z.max (-4 - 53 + 1) (-1074)) with (-56)%Z. bpow_num. lra.
  - change (-4 + 1)%Z with (-3)%Z. rewrite Rabs_pos_eq by lra. bpow_num. lra.
  - change (Z.max (-4 - 53 + 1) (-1074)) with (-56)%Z. bpow_num.
    apply Rabs_def1; lra.
Qed.

Lemma round64_tenth_bounds : 0.1 < round64 0.1 < 0.2.
Proof. rewrite round64_tenth. lra. Qed.

Ltac round_side := first [ lia | reflexivity | (bpow_num; lra) ].

(** The squared distance of the code between two points with whole
    coordinates below 1024 is exact. *)
Lemma sqrd_dist32_int (a1 a2 a3 b1 b2 b3 n : Z) :
  (Z.abs a1 < 1024)%Z -> (Z.abs a2 < 1024)%Z -> (Z.abs a3 < 1024)%Z ->
  (Z.abs b1 < 1024)%Z -> (Z.abs b2 < 1024)%Z -> (Z.abs b3 < 1024)%Z ->
  n = ((a1 - b1) * (a1 - b1) + ((a2 - b2) * (a2 - b2) + (a3 - b3) * (a3 - b3)))%Z ->
  squaredNorm32 (vsub32 (mkV3 (IZR a1) (IZR a2) (IZR a3))
                   (toEigen32 (mkV3 (IZR b1) (IZR b2) (IZR b3)))) = IZR n.
Proof.
  intros A1 A2 A3 B1 B2 B3 ->.
  unfold squaredNorm32, vsub32, toEigen32, add32, sub32, mul32. cbn [x y z].
  rewrite (round32_IZR b1), (round32_IZR b2), (round32_IZR b3) by lia.
  rewrite <- !minus_IZR.
  assert (D1 : (Z.abs (a1 - b1) < 2048)%Z) by lia.
  assert (D2 : (Z.abs (a2 - b2) < 2048)%Z) by lia.
  assert (D3 : (Z.abs (a3 - b3) < 2048)%Z) by lia.
  revert D1 D2 D3.
  generalize (a1 - b1)%Z (a2 - b2)%Z (a3 - b3)%Z. intros d1 d2 d3 D1 D2 D3.
  rewrite (round32_IZR d1), (round32_IZR d2), (round32_IZR d3) by lia.
  rewrite <- !mult_IZR.
  assert (Q1 : (0 <= d1 * d1 < 4194304)%Z) by nia.
  assert (Q2 : (0 <= d2 * d2 < 4194304)%Z) by nia.
  assert (Q3 : (0 <= d3 * d3 < 4194304)%Z) by nia.
  revert Q1 Q2 Q3.
  generalize (d1 * d1)%Z (d2 * d2)%Z (d3 * d3)%Z. intros q1 q2 q3 Q1 Q2 Q3.
  rewrite (round32_IZR q1), (round32_IZR q2), (round32_IZR q3) by lia.
  rewrite <- plus_IZR, (round32_IZR (q2 + q3)) by lia.
  rewrite <- plus_IZR. apply round32_IZR. lia.
Qed.

Lemma example_sqrd_radius_in : mul64 0.5 0.5 = 0.25.
Proof.
  unfold mul64. replace (0.5 * 0.5) with 0.25 by lra.
  apply (round64_exact 0.25 1 (-2)); round_side.
Qed.

Lemma example_sqrd_radius_out : mul64 1.5 1.5 = 2.25.
Proof.
  unfold mul64. replace (1.5 * 1.5) with 2.25 by lra.
  apply (round64_exact 2.25 9 (-2)); round_side.
Qed.
(** ** The goal radius and the final pose *)

Section Assemble.

Variable ext : Externals.

Lemma withinGoalRadius_flag (s : WaypointGenerator) :
  fst (withinGoalRadius ext s) = reached_goal_ (snd (withinGoalRadius ext s))
  /\ reached_goal_ (snd (withinGoalRadius ext s)) =
     (if Rltb (sqrd_dist_to_goal s) (sqrd_radius_in s) then true
      else if Rgtb (sqrd_dist_to_goal s) (sqrd_radius_out s) then false
      else reached_goal_ s)
  /\ yaw_reached_goal_ (snd (withinGoalRadius ext s)) =
     (if Rltb (sqrd_dist_to_goal s) (sqrd_radius_in s) && negb (reached_goal_ s)
      then getYaw ext (orientation (pose_ s))
      else yaw_reached_goal_ s).
Proof.
  unfold withinGoalRadius, sqrd_dist_to_goal, sqrd_radius_in, sqrd_radius_out.
  cbn [fst snd].
  destruct (Rltb _ _); [destruct (reached_goal_ s) | destruct (Rgtb _ _)];
    cbn; repeat split; reflexivity.
Qed.

Lemma withinGoalRadius_frame (s : WaypointGenerator) :
  same_inputs s (snd (withinGoalRadius ext s))
  /\ output_ (snd (withinGoalRadius ext s)) = output_ s
  /\ new_yaw_ (snd (withinGoalRadius ext s)) = new_yaw_ s.
Proof.
  unfold withinGoalRadius. cbn [fst snd].
  destruct (Rltb _ _); [destruct (reached_goal_ s) | destruct (Rgtb _ _)];
    (split; [constructor; reflexivity | split; reflexivity]).
Qed.

(** What cpp:371-385 leave in the state, in terms of the state after
    [withinGoalRadius]. *)
Lemma getPathMsg_assemble_spec (s : WaypointGenerator) :
  let w := snd (withinGoalRadius ext s) in
  let s' := getPathMsg_assemble ext s in
  same_inputs s s'
  /\ reached_goal_ s' = reached_goal_ w
  /\ yaw_reached_goal_ s' = yaw_reached_goal_ w
  /\ goto_position (output_ s') = goto_position (output_ s)
  /\ smoothed_goto_position (output_ s') =
     (if reached_goal_ w then toPoint (goal_ s) else smoothed_goto_position (output_ s))
  /\ new_yaw_ s' = (if reached_goal_ w then yaw_reached_goal_ w else new_yaw_ s)
  /\ position_waypoint (output_ s') =
     createPoseMsg ext (smoothed_goto_position (output_ s')) (new_yaw_ s').
Proof.
  intros w s'. subst s'. unfold getPathMsg_assemble.
  destruct (withinGoalRadius_flag s) as (Hfst & _ & _).
  destruct (withinGoalRadius_frame s) as (Iw & Ow & Nw).
  assert (Hg : goal_ w = goal_ s) by exact (si_goal Iw).
  destruct (withinGoalRadius ext s) as [within w0] eqn:E.
  cbn [fst snd] in *. subst w. subst within.
  destruct Iw.
  destruct (reached_goal_ w0) eqn:Er;
    unfold transformPositionToVelocityWaypoint, upd_output;
    cbn; rewrite ?Er; cbn; rewrite ?Ow, ?Nw, ?Hg;
    (split; [constructor; cbn; (reflexivity || congruence) |]);
    repeat split; (reflexivity || congruence).
Qed.

End Assemble.
Section GoalRadius.

Variable ext : Externals.

(** [getPathMsg] obeys the law of the goal radius. *)
Lemma getPathMsg_goal_radius (s : WaypointGenerator) :
  goal_radius_law ext s (getPathMsg ext s).
Proof.
  unfold goal_radius_law.
  unfold getPathMsg.
  destruct (getPathMsg_target_frame ext s) as (It & Rt & Yt & _).
  remember (getPathMsg_target ext s) as st eqn:Est. clear Est.
  destruct (getPathMsg_assemble_spec ext st) as (Ia & Ra & Ya & _ & Sa & Na & Pa).
  destruct (withinGoalRadius_flag ext st) as (_ & Rw & Yw).
  remember (getPathMsg_assemble ext st) as sa eqn:Esa. clear Esa.
  remember (snd (withinGoalRadius ext st)) as w eqn:Ew. clear Ew.
  assert (Hd : sqrd_dist_to_goal st = sqrd_dist_to_goal s).
  { unfold sqrd_dist_to_goal.
    replace (goal_ st) with (goal_ s) by (symmetry; exact (si_goal It)).
    replace (pose_ st) with (pose_ s) by (symmetry; exact (si_pose It)). reflexivity. }
  assert (Hin : sqrd_radius_in st = sqrd_radius_in s).
  { unfold sqrd_radius_in. replace (param_ st) with (param_ s)
      by (symmetry; exact (si_param It)).
    reflexivity. }
  assert (Hout : sqrd_radius_out st = sqrd_radius_out s).
  { unfold sqrd_radius_out. replace (param_ st) with (param_ s)
      by (symmetry; exact (si_param It)).
    reflexivity. }
  assert (Hg : goal_ st = goal_ s) by exact (si_goal It).
  assert (Hp : pose_ st = pose_ s) by exact (si_pose It).
  rewrite Hd, Hin, Hout, Rt in Rw. rewrite Hd, Hin, Rt, Yt, Hp in Yw.
  rewrite Hg in Sa. rewrite <- Ra in Sa, Na. rewrite <- Ya in Na.
  rewrite Rw in Ra. rewrite Yw in Ya. clear Rw Yw Hd Hin Hout Hg Hp It Rt Yt Ia.
  assert (Hpin : reached_goal_ sa = true ->
      smoothed_goto_position (output_ sa) = toPoint (goal_ s)
      /\ new_yaw_ sa = yaw_reached_goal_ sa
      /\ position_waypoint (output_ sa) =
         createPoseMsg ext (toPoint (goal_ s)) (yaw_reached_goal_ sa)).
  { intros H. rewrite H in Sa, Na. rewrite Pa, Sa, Na. auto. }
  clear Sa Na Pa.
  unfold Rgtb in Ra.
  destruct (Rltb (sqrd_dist_to_goal s) (sqrd_radius_in s)) eqn:Ein;
    [apply Rltb_true in Ein | apply Rltb_false in Ein].
  - (* below the inner radius *)
    cbn [andb] in Ya.
    split; [intros _; exact Ra |]. split; [intros _ _; exact Ra |].
    split; [intros _ Hf; congruence |]. split; [intros Hle _; lra |].
    split; [intros Hs _; split; [exact Ein | rewrite Ya, Hs; reflexivity] |].
    split; [intros Hs; rewrite Ya, Hs; reflexivity | exact Hpin].
  - cbn [andb] in Ya.
    destruct (Rltb (sqrd_radius_out s) (sqrd_dist_to_goal s)) eqn:Eout;
      [apply Rltb_true in Eout | apply Rltb_false in Eout].
    + (* beyond the outer radius *)
      split; [intros Hlt; contradiction |].
      split; [intros _ Hle; lra |].
      split; [intros _ _; exact Eout |]. split; [intros _ _; exact Ra |].
      split; [intros _ Ht; congruence |].
      split; [intros _; exact Ya | exact Hpin].
    + (* in the band between the two radii *)
      split; [intros Hlt; contradiction |].
      split; [intros Hs _; rewrite Ra; exact Hs |].
      split; [intros Hs Hf; congruence |].
      split; [intros _ Hgt; unfold Rgt in Hgt; contradiction |].
      split; [intros Hs Ht; congruence |].
      split; [intros _; exact Ya | exact Hpin].
Qed.

End GoalRadius.
(** ** One tick *)

Section Tick.

Variable ext : Externals.

Lemma getPathMsg_frame (s : WaypointGenerator) :
  same_inputs s (getPathMsg ext s)
  /\ (reach_altitude (planner_info_ s) = true ->
      goto_position (output_ (getPathMsg ext s)) = goto_position (output_ s)).
Proof.
  unfold getPathMsg.
  destruct (getPathMsg_target_frame ext s) as (It & _ & _ & Gt).
  destruct (getPathMsg_assemble_spec ext (getPathMsg_target ext s))
    as (Ia & _ & _ & Ga & _).
  split.
  - exact (same_inputs_trans _ _ _ It Ia).
  - intros H. rewrite Ga. apply Gt, H.
Qed.

Lemma getWaypoints_eq (s : WaypointGenerator) :
  getWaypoints ext s = (output_ (calculateWaypoint ext s), calculateWaypoint ext s).
Proof. reflexivity. Qed.

Lemma calculateWaypoint_eq (s : WaypointGenerator) :
  calculateWaypoint ext s =
  calculateWaypoint_end (dispatch ext (calculateWaypoint_begin s)).
Proof. reflexivity. Qed.

Lemma calculateWaypoint_end_output (s : WaypointGenerator) :
  output_ (calculateWaypoint_end s) = output_ s
  /\ hover_position_ (calculateWaypoint_end s) = hover_position_ s
  /\ planner_info_ (calculateWaypoint_end s) = planner_info_ s.
Proof. unfold calculateWaypoint_end; cbn; auto. Qed.

Lemma calculateWaypoint_begin_fields (s : WaypointGenerator) :
  let s1 := calculateWaypoint_begin s in
  planner_info_ s1 = planner_info_ s
  /\ pose_ s1 = pose_ s
  /\ goal_ s1 = goal_ s
  /\ last_wp_type_ s1 = last_wp_type_ s
  /\ hover_position_ s1 = hover_position_ s
  /\ ros_clock s1 = ros_clock s
  /\ ros_reads s1 = S (ros_reads s)
  /\ result_waypoint_type (output_ s1) = waypoint_type (planner_info_ s).
Proof. unfold calculateWaypoint_begin, now; cbn; repeat split; reflexivity. Qed.

(** Every handler but [backOff] ends in [getPathMsg]; the fallback of
    [tryPath] relabels its output afterwards. *)
Lemma dispatch_runs_getPathMsg (b : WaypointGenerator) :
  waypoint_type (planner_info_ b) <> goBack ->
  exists u,
    same_vehicle b u
    /\ (dispatch ext b = getPathMsg ext u
        \/ dispatch ext b = upd_output (set_result_waypoint_type direct) (getPathMsg ext u)).
Proof.
  intros Hmode. unfold dispatch.
  destruct (waypoint_type (planner_info_ b)); try contradiction.
  - (* hover *)
    destruct (negb (waypoint_choice_eqb (last_wp_type_ b) hover));
      (eexists; split; [| left; reflexivity]; constructor; reflexivity).
  - (* costmap *)
    eexists; split; [| left; reflexivity]; constructor; reflexivity.
  - (* tryPath *)
    unfold now. destruct (tryPath_use_tree ext b _).
    + eexists; split; [| left; reflexivity]; constructor; reflexivity.
    + unfold goFast. eexists; split; [| right; reflexivity]; constructor; reflexivity.
  - (* direct *)
    unfold goFast. eexists; split; [| left; reflexivity]; constructor; reflexivity.
  - (* reachHeight *)
    unfold goFast. eexists; split; [| left; reflexivity]; constructor; reflexivity.
Qed.

Lemma calculateWaypoint_begin_goal_state (s : WaypointGenerator) :
  param_ (calculateWaypoint_begin s) = param_ s
  /\ reached_goal_ (calculateWaypoint_begin s) = reached_goal_ s
  /\ yaw_reached_goal_ (calculateWaypoint_begin s) = yaw_reached_goal_ s.
Proof. unfold calculateWaypoint_begin, now; cbn; repeat split; reflexivity. Qed.

Lemma calculateWaypoint_end_goal_state (s : WaypointGenerator) :
  reached_goal_ (calculateWaypoint_end s) = reached_goal_ s
  /\ yaw_reached_goal_ (calculateWaypoint_end s) = yaw_reached_goal_ s
  /\ new_yaw_ (calculateWaypoint_end s) = new_yaw_ s.
Proof. unfold calculateWaypoint_end; cbn; repeat split; reflexivity. Qed.

Lemma goal_radius_law_transfer (a a' b b' : WaypointGenerator) :
  pose_ b = pose_ a -> goal_ b = goal_ a -> param_ b = param_ a ->
  reached_goal_ b = reached_goal_ a -> yaw_reached_goal_ b = yaw_reached_goal_ a ->
  reached_goal_ b' = reached_goal_ a' -> yaw_reached_goal_ b' = yaw_reached_goal_ a' ->
  new_yaw_ b' = new_yaw_ a' ->
  smoothed_goto_position (output_ b') = smoothed_goto_position (output_ a') ->
  position_waypoint (output_ b') = position_waypoint (output_ a') ->
  goal_radius_law ext a a' -> goal_radius_law ext b b'.
Proof.
  unfold goal_radius_law, sqrd_dist_to_goal, sqrd_radius_in, sqrd_radius_out.
  intros -> -> -> -> -> -> -> -> -> -> H. exact H.
Qed.

Lemma path_dt_cases (s : WaypointGenerator) :
  let measured := toSec (current_time_ s - last_time_ s)%Z in
  (measured <= 0 -> path_dt s = 0.004)
  /\ (0 < measured -> path_dt s = measured)
  /\ 0 < path_dt s.
Proof.
  cbv zeta. unfold path_dt, Rgtb.
  destruct (Rltb 0 (toSec (current_time_ s - last_time_ s)%Z)) eqn:E;
    [apply Rltb_true in E | apply Rltb_false in E];
    repeat split; intros; lra.
Qed.

(** Once the target altitude is reached [getPathMsg] smooths the adapted
    target with the interval [path_dt]. *)
Lemma getPathMsg_target_smooths (s : WaypointGenerator) :
  reach_altitude (planner_info_ s) = true ->
  getPathMsg_target ext s =
  smoothWaypoint (path_dt s)
    (upd_output (fun o => set_smoothed_goto_position (adapted_goto_position o) o)
       (adaptSpeed ext
          (set_new_yaw_ (nextYaw ext (pose_ s) (goto_position (output_ s)))
             (upd_output (fun o => set_adapted_goto_position (goto_position o) o) s)))).
Proof.
  intros H. unfold getPathMsg_target.
  match goal with
  | |- context [negb (reach_altitude (planner_info_ (upd_output ?f (adaptSpeed ext ?u))))] =>
      destruct (adaptSpeed_frame ext u) as [Iu _];
      destruct (upd_smoothed_frame adapted_goto_position (adaptSpeed ext u)) as [Iv _];
      cbv zeta in Iv;
      replace (planner_info_ (upd_output f (adaptSpeed ext u))) with (planner_info_ s)
        by (rewrite (si_planner_info Iv), (si_planner_info Iu); reflexivity)
  end.
  rewrite H. reflexivity.
Qed.

(** In every mode but [goBack] the tick calls [getPathMsg] on a state that
    carries the two times set at the start of the tick. *)
Lemma tick_path_dt (s : WaypointGenerator) :
  waypoint_type (planner_info_ s) <> goBack ->
  exists u,
    (dispatch ext (calculateWaypoint_begin s) = getPathMsg ext u
     \/ dispatch ext (calculateWaypoint_begin s) =
        upd_output (set_result_waypoint_type direct) (getPathMsg ext u))
    /\ path_dt u = path_dt (calculateWaypoint_begin s).
Proof.
  intros Hmode.
  destruct (calculateWaypoint_begin_fields s) as (Bpi & _).
  cbv zeta in Bpi.
  assert (Hmode' : waypoint_type (planner_info_ (calculateWaypoint_begin s)) <> goBack)
    by (rewrite Bpi; exact Hmode).
  destruct (dispatch_runs_getPathMsg (calculateWaypoint_begin s) Hmode')
    as (u & V & Hrun).
  exists u. split; [exact Hrun |].
  unfold path_dt. rewrite (sv_current_time V), (sv_last_time V). reflexivity.
Qed.

(** C8.  The interval handed to the smoother is the measured time between
    the previous tick and this one when that is positive, and the fixed
    0.004 s otherwise; it is positive in both cases.  [calculateWaypoint]
    measures from the previous [current_time_] to the clock reading of this
    tick, every handler but [backOff] calls [getPathMsg] with these two
    times, and [getPathMsg] smooths with that interval once the target
    altitude is reached. *)
Theorem smoother_interval (s : WaypointGenerator) :
  let measured := toSec (current_time_ s - last_time_ s)%Z in
  (measured <= 0 -> path_dt s = 0.004)
  /\ (0 < measured -> path_dt s = measured)
  /\ 0 < path_dt s
  /\ (current_time_ (calculateWaypoint_begin s) - last_time_ (calculateWaypoint_begin s)
      = ros_clock s (ros_reads s) - current_time_ s)%Z
  /\ (waypoint_type (planner_info_ s) <> goBack ->
      exists u,
        (dispatch ext (calculateWaypoint_begin s) = getPathMsg ext u
         \/ dispatch ext (calculateWaypoint_begin s) =
            upd_output (set_result_waypoint_type direct) (getPathMsg ext u))
        /\ path_dt u = path_dt (calculateWaypoint_begin s))
  /\ (reach_altitude (planner_info_ s) = true ->
      getPathMsg_target ext s =
      smoothWaypoint (path_dt s)
        (upd_output (fun o => set_smoothed_goto_position (adapted_goto_position o) o)
           (adaptSpeed ext
              (set_new_yaw_ (nextYaw ext (pose_ s) (goto_position (output_ s)))
                 (upd_output (fun o => set_adapted_goto_position (goto_position o) o) s))))).
Proof.
  destruct (path_dt_cases s) as (H1 & H2 & H3).
  split; [exact H1 |]. split; [exact H2 |]. split; [exact H3 |].
  split; [reflexivity |].
  split; [apply tick_path_dt | apply getPathMsg_target_smooths].
Qed.


Lemma sqr_pos_of_neq (a b : R) : a <> b -> 0 < (a - b) * (a - b).
Proof. intros H. destruct (Rtotal_order a b) as [L | [E | G]]; [nra | contradiction | nra]. Qed.

Lemma squaredNorm_pos (a b : Vector3f) : a <> b -> 0 < squaredNorm (vsub a b).
Proof.
  intros Hne. unfold squaredNorm, vsub; cbn.
  pose proof (Rle_0_sqr (x a - x b)) as Hx.
  pose proof (Rle_0_sqr (y a - y b)) as Hy.
  pose proof (Rle_0_sqr (z a - z b)) as Hz.
  unfold Rsqr in Hx, Hy, Hz.
  destruct (Req_dec (x a) (x b)) as [Ex | Ex];
    [| apply sqr_pos_of_neq in Ex; lra].
  destruct (Req_dec (y a) (y b)) as [Ey | Ey];
    [| apply sqr_pos_of_neq in Ey; lra].
  destruct (Req_dec (z a) (z b)) as [Ez | Ez];
    [| apply sqr_pos_of_neq in Ez; lra].
  exfalso. apply Hne. destruct a, b; cbn in *; congruence.
Qed.

(** A normalized vector of positive length is a unit vector. *)
Lemma norm_normalized (a : Vector3f) : 0 < squaredNorm a -> norm (normalized a) = 1.
Proof.
  intros Hpos. unfold normalized, Rgtb.
  assert (E : Rltb 0 (squaredNorm a) = true) by (apply Rltb_true; exact Hpos).
  rewrite E. unfold norm at 1.
  assert (Hs : 0 < sqrt (squaredNorm a)) by (apply sqrt_lt_R0; exact Hpos).
  assert (Hss : sqrt (squaredNorm a) * sqrt (squaredNorm a) = squaredNorm a)
    by (apply sqrt_sqrt; lra).
  replace (squaredNorm (vdiv a (sqrt (squaredNorm a)))) with 1; [apply sqrt_1|].
  unfold vdiv; unfold squaredNorm at 1; cbn.
  unfold squaredNorm in Hss at 3.
  field_simplify_eq; [| lra]. lra.
Qed.

Lemma dispatch_tryPath (u : WaypointGenerator) :
  waypoint_type (planner_info_ u) = tryPath ->
  dispatch ext u =
  (if tryPath_use_tree ext u (ros_clock u (ros_reads u)) then
     getPathMsg ext
       (upd_output
          (set_goto_position
             (toPoint
                (fromPolarToCartesian ext
                   (x (snd (getDirectionFromTree ext
                              (path_node_positions (planner_info_ u))
                              (toEigen (position (pose_ u))))))
                   (y (snd (getDirectionFromTree ext
                              (path_node_positions (planner_info_ u))
                              (toEigen (position (pose_ u))))))
                   1 (position (pose (planner_info_ u))))))
          (snd (now u)))
   else upd_output (set_result_waypoint_type direct) (goFast ext (snd (now u)))).
Proof. intros H. unfold dispatch. rewrite H. reflexivity. Qed.

Lemma tryPath_use_tree_iff (s : WaypointGenerator) (t : RosTime) :
  tryPath_use_tree ext s t = true <->
  fst (getDirectionFromTree ext (path_node_positions (planner_info_ s))
         (toEigen (position (pose_ s)))) = true
  /\ (obstacle_ahead (planner_info_ s) = true \/ dist_to_goal32 s > 4)
  /\ (t - last_path_time (planner_info_ s) < DurationSec 5)%Z.
Proof.
  unfold tryPath_use_tree, dist_to_goal32, Rgtb.
  rewrite !andb_true_iff, orb_true_iff, Rltb_true, Z.ltb_lt.
  unfold Rgt. tauto.
Qed.


End Tick.

Lemma arriving_sqrd_dist : sqrd_dist_to_goal arriving = 0.0625.
Proof.
  unfold sqrd_dist_to_goal, squaredNorm32, vsub32, toEigen32, add32, sub32, mul32,
    arriving, idle, origin.
  cbn [goal_ pose_ set_pose_ position pose_at x y z].
  rewrite round32_0, (round32_exact 0.25 1 (-2)) by round_side.
  replace (0 - 0) with 0 by lra. replace (0 - 0.25) with (-0.25) by lra.
  rewrite round32_0, (round32_exact (-0.25) (-1) (-2)) by round_side.
  replace (0 * 0) with 0 by lra. replace (-0.25 * -0.25) with 0.0625 by lra.
  rewrite round32_0, (round32_exact 0.0625 1 (-4)) by round_side.
  replace (0 + 0) with 0 by lra. rewrite round32_0.
  replace (0.0625 + 0) with 0.0625 by lra.
  apply (round32_exact 0.0625 1 (-4)); round_side.
Qed.


(** C8 at work: [idle] has seen no time pass between its two last ticks. *)
Lemma smoother_interval_example :
  toSec (current_time_ idle - last_time_ idle) <= 0 /\ path_dt idle = 0.004.
Proof.
  assert (H : toSec (current_time_ idle - last_time_ idle) <= 0)
    by (unfold toSec; cbn; lra).
  split; [exact H |].
  exact (proj1 (smoother_interval example_externals idle) H).
Defined.

Lemma stale_path_unit_step :
  vadd origin (normalized (vsub (mkV3 10 0 0) origin)) = mkV3 1 0 0.
Proof.
  unfold normalized, vsub, origin; cbn [x y z].
  assert (Hn : squaredNorm (mkV3 (10 - 0) (0 - 0) (0 - 0)) = 10 * 10)
    by (unfold squaredNorm; cbn; lra).
  rewrite Hn, sqrt_square by lra.
  replace (Rgtb (10 * 10) 0) with true by (symmetry; apply Rltb_true; lra).
  unfold vadd, vdiv; cbn [x y z]. f_equal; lra.
Qed.

(** ** [updateState] *)

Section UpdateState.

Variable ext : Externals.

Lemma updateState_fields (act_pose goal : PoseStamped) (vel : Twist)
  (stay : bool) (t : RosTime) (s : WaypointGenerator) :
  let s' := updateState ext act_pose goal vel stay t s in
  planner_info_ s' =
    (if stay then set_waypoint_type hover (planner_info_ s) else planner_info_ s)
  /\ pose_ s' = act_pose
  /\ goal_ s' = toEigen32 (position goal)
  /\ last_wp_type_ s' = last_wp_type_ s
  /\ hover_position_ s' = hover_position_ s
  /\ output_ s' = output_ s.
Proof.
  unfold updateState. destruct (Rgtb _ _), stay; cbn; repeat split; reflexivity.
Qed.


Lemma hover_target (b : WaypointGenerator) (target : Vector3f) :
  target = (if waypoint_choice_eqb (last_wp_type_ b) hover
            then hover_position_ b else toEigen (position (pose_ b))) ->
  (if negb (waypoint_choice_eqb (last_wp_type_ b) hover)
   then set_hover_position_ (toEigen (position (pose_ b))) b
   else b) = set_hover_position_ target b.
Proof.
  intros ->.
  destruct (waypoint_choice_eqb (last_wp_type_ b) hover); cbn [negb].
  - destruct b; reflexivity.
  - reflexivity.
Qed.

(** The hover handler (cpp:26-35). *)
Lemma dispatch_hover (b : WaypointGenerator) :
  waypoint_type (planner_info_ b) = hover ->
  let target :=
    if waypoint_choice_eqb (last_wp_type_ b) hover
    then hover_position_ b else toEigen (position (pose_ b)) in
  dispatch ext b =
  getPathMsg ext
    (upd_output (set_goto_position (toPoint target)) (set_hover_position_ target b)).
Proof.
  intros Hmode target.
  unfold dispatch. rewrite Hmode. cbv zeta. rewrite (hover_target b target eq_refl).
  cbn [hover_position_ set_hover_position_]. reflexivity.
Qed.

(** A tick in [hover] mode. *)
Lemma hover_tick (u : WaypointGenerator) :
  waypoint_type (planner_info_ u) = hover ->
  let target :=
    if waypoint_choice_eqb (last_wp_type_ u) hover
    then hover_position_ u else toEigen (position (pose_ u)) in
  dispatch ext (calculateWaypoint_begin u) =
  getPathMsg ext
    (upd_output (set_goto_position (toPoint target))
       (set_hover_position_ target (calculateWaypoint_begin u)))
  /\ result_waypoint_type (fst (getWaypoints ext u)) = hover
  /\ hover_position_ (snd (getWaypoints ext u)) = target
  /\ (reach_altitude (planner_info_ u) = true ->
      goto_position (fst (getWaypoints ext u)) = toPoint target).
Proof.
  intros Hmode target.
  destruct (calculateWaypoint_begin_fields u)
    as (Bpi & Bpose & _ & Blast & Bhover & _ & _ & Btype).
  cbv zeta in Bpi, Bpose, Blast, Bhover, Btype.
  rewrite getWaypoints_eq, calculateWaypoint_eq. cbn [fst snd].
  assert (Hmode' : waypoint_type (planner_info_ (calculateWaypoint_begin u)) = hover)
    by (rewrite Bpi; exact Hmode).
  pose proof (dispatch_hover (calculateWaypoint_begin u) Hmode') as Hdisp.
  cbv zeta in Hdisp. rewrite Blast, Bhover, Bpose in Hdisp. fold target in Hdisp.
  clearbody target.
  revert Bpi Btype Hdisp. generalize (calculateWaypoint_begin u). intros b Bpi Btype Hdisp.
  destruct (calculateWaypoint_end_output (dispatch ext b)) as (Eout & Ehov & _).
  rewrite Eout, Ehov, Hdisp.
  destruct (getPathMsg_frame ext
              (upd_output (set_goto_position (toPoint target))
                 (set_hover_position_ target b))) as (Ig & Gg).
  split; [reflexivity |]. split; [| split].
  - rewrite (si_result_type Ig). cbn. congruence.
  - rewrite (si_hover_position Ig). reflexivity.
  - intros H. rewrite Gg; [reflexivity |].
    cbn [planner_info_ upd_output set_output_ set_hover_position_]. congruence.
Qed.

(** C10.  After [updateState] with the hold-in-place flag set, the stored
    directive has mode [hover] whatever mode it had; the [getWaypoints] that
    follows runs the hover handler: it labels its output [hover], freezes
    the position just supplied as hover target unless the previous tick was
    a hover already, hands that target to [getPathMsg], and (the target
    altitude reached) reports it as the raw goal point. *)
Theorem updateState_stay_hovers (act_pose goal : PoseStamped) (vel : Twist)
  (t : RosTime) (s : WaypointGenerator) :
  let s1 := updateState ext act_pose goal vel true t s in
  let out := fst (getWaypoints ext s1) in
  let s2 := snd (getWaypoints ext s1) in
  let target :=
    if waypoint_choice_eqb (last_wp_type_ s) hover
    then hover_position_ s else toEigen (position act_pose) in
  waypoint_type (planner_info_ s1) = hover
  /\ dispatch ext (calculateWaypoint_begin s1) =
     getPathMsg ext
       (upd_output (set_goto_position (toPoint target))
          (set_hover_position_ target (calculateWaypoint_begin s1)))
  /\ result_waypoint_type out = hover
  /\ hover_position_ s2 = target
  /\ (reach_altitude (planner_info_ s) = true -> goto_position out = toPoint target).
Proof.
  cbv zeta.
  destruct (updateState_fields act_pose goal vel true t s)
    as (Upi & Upose & _ & Ulast & Uhover & _).
  cbv zeta in Upi, Upose, Ulast, Uhover.
  assert (Hmode : waypoint_type
                    (planner_info_ (updateState ext act_pose goal vel true t s)) = hover)
    by (rewrite Upi; reflexivity).
  pose proof (hover_tick (updateState ext act_pose goal vel true t s) Hmode) as Htick.
  cbv zeta in Htick. rewrite Ulast, Uhover, Upose, Upi in Htick.
  split; [exact Hmode | exact Htick].
Qed.

End UpdateState.

Lemma goal_moved_one_unit : goal_moved32 arrived (pose_at (mkV3 1 0 0)) = 1.
Proof.
  unfold goal_moved32, norm32, sqrt32, squaredNorm32, vsub32, toEigen32,
    add32, sub32, mul32, arrived, idle, origin.
  cbn [goal_ set_limit_speed_close_to_goal_ set_reached_goal_ position pose_at x y z].
  rewrite round32_0, round32_1.
  replace (0 - 0) with 0 by lra. replace (0 - 1) with (-1) by lra.
  rewrite round32_0, (round32_IZR (-1)) by reflexivity.
  replace (0 * 0) with 0 by lra. replace (-1 * -1) with 1 by lra.
  rewrite round32_0, round32_1.
  replace (0 + 0) with 0 by lra. rewrite round32_0.
  replace (1 + 0) with 1 by lra. rewrite round32_1, sqrt_1.
  exact round32_1.
Qed.

(** ** Backing off *)

Section BackOff.

Variable ext : Externals.

Lemma dispatch_goBack (b : WaypointGenerator) :
  waypoint_type (planner_info_ b) = goBack -> dispatch ext b = backOff ext b.
Proof. intros H. unfold dispatch. rewrite H. reflexivity. Qed.

Lemma backOff_output (b : WaypointGenerator) :
  let pos := toEigen (position (pose_ b)) in
  let away := vsub pos (toEigen (back_off_point (planner_info_ b))) in
  let dir := normalized (mkV3 (x away) (y away) 0) in
  let goal_point :=
    mkV3 (x pos + 0.5 * x dir) (y pos + 0.5 * y dir)
         (z (back_off_start_point (planner_info_ b))) in
  goto_position (output_ (backOff ext b)) = goal_point
  /\ position_waypoint (output_ (backOff ext b)) =
     createPoseMsg ext goal_point (last_yaw_ b).
Proof. unfold backOff, transformPositionToVelocityWaypoint, upd_output. split; reflexivity. Qed.

Lemma squaredNorm_horizontal_pos (a b : R) :
  a <> 0 \/ b <> 0 -> 0 < squaredNorm (mkV3 a b 0).
Proof.
  intros H. unfold squaredNorm; cbn.
  pose proof (Rle_0_sqr a) as Ha. pose proof (Rle_0_sqr b) as Hb.
  unfold Rsqr in Ha, Hb.
  destruct H as [H | H].
  - assert (0 < a * a) by (destruct (Rtotal_order a 0) as [L | [E | G]]; [nra | contradiction | nra]).
    lra.
  - assert (0 < b * b) by (destruct (Rtotal_order b 0) as [L | [E | G]]; [nra | contradiction | nra]).
    lra.
Qed.

Lemma normalized_z0 (a b : R) : z (normalized (mkV3 a b 0)) = 0.
Proof.
  unfold normalized. destruct (Rgtb _ _); cbn; [| reflexivity].
  unfold Rdiv. apply Rmult_0_l.
Qed.


End BackOff.

(** ** Speed adaptation *)

(** The least index distance found by the loop of cpp:278-286: never above
    100 nor above the distance to a visible index, and either 100 or the
    distance to one of the visible indices. *)
Lemma fov_ind_dist_fold (l : list Z) (z_index d0 : Z) :
  let step := fun ind_dist idx =>
    if (Z.abs (idx - z_index) <? ind_dist)%Z then Z.abs (idx - z_index) else ind_dist in
  let d := fold_left step l d0 in
  (d <= d0)%Z
  /\ (forall idx, In idx l -> (d <= Z.abs (idx - z_index))%Z)
  /\ (d = d0 \/ exists idx, In idx l /\ d = Z.abs (idx - z_index)).
Proof.
  cbv zeta. revert d0. induction l as [| i l IH]; intros d0; cbn [fold_left].
  - split; [lia |]. split; [intros idx [] | left; reflexivity].
  - destruct (IH (if (Z.abs (i - z_index) <? d0)%Z then Z.abs (i - z_index) else d0))
      as (Hle & Hall & Hex).
    destruct (Z.ltb_spec (Z.abs (i - z_index)) d0) as [Hlt | Hge].
    + split; [lia |]. split.
      * intros idx [<- | Hin]; [exact Hle | apply Hall, Hin].
      * right. destruct Hex as [-> | (idx & Hin & ->)].
        -- exists i. split; [left; reflexivity | reflexivity].
        -- exists idx. split; [right; exact Hin | reflexivity].
    + split; [lia |]. split.
      * intros idx [<- | Hin]; [lia | apply Hall, Hin].
      * destruct Hex as [-> | (idx & Hin & ->)]; [left; reflexivity |].
        right. exists idx. split; [right; exact Hin | reflexivity].
Qed.

Lemma fov_ind_dist_spec (l : list Z) (z_index : Z) :
  (0 <= fov_ind_dist l z_index <= 100)%Z
  /\ (forall idx, In idx l -> (fov_ind_dist l z_index <= Z.abs (idx - z_index))%Z)
  /\ (fov_ind_dist l z_index = 100%Z
      \/ exists idx, In idx l /\ fov_ind_dist l z_index = Z.abs (idx - z_index)).
Proof.
  destruct (fov_ind_dist_fold l z_index 100) as (Hle & Hall & Hex).
  cbv zeta in Hle, Hall, Hex. fold (fov_ind_dist l z_index) in Hle, Hall, Hex.
  split; [| split; assumption].
  split; [| exact Hle].
  destruct Hex as [-> | (idx & _ & ->)]; lia.
Qed.

Section SpeedAdaptation.

Variable ext : Externals.

Lemma fov_angle_diff_range (l : list Z) (z_index : Z) :
  0 <= fov_angle_diff ext l z_index <= 30.
Proof.
  unfold fov_angle_diff.
  assert (H : 0 <= IZR (Z.abs (ALPHA_RES ext * fov_ind_dist l z_index)))
    by (apply IZR_le, Z.abs_nonneg).
  unfold Rmin. destruct (Rle_dec _ _); lra.
Qed.

(** The candidate index is the same before and after the envelope step. *)
Lemma adaptSpeed_envelope_output (s : WaypointGenerator) :
  output_ (adaptSpeed_envelope ext s) = output_ s
  /\ only_yawed_ (adaptSpeed_envelope ext s) = only_yawed_ s.
Proof. unfold adaptSpeed_envelope, now. split_ifs; split; reflexivity. Qed.

Lemma adaptSpeed_z_index_envelope (s : WaypointGenerator) :
  adaptSpeed_z_index ext (adaptSpeed_envelope ext s) = adaptSpeed_z_index ext s.
Proof.
  unfold adaptSpeed_z_index.
  destruct (adaptSpeed_envelope_output s) as (-> & _).
  rewrite (si_pose (proj1 (adaptSpeed_envelope_frame ext s))). reflexivity.
Qed.

(** What the steps after the FOV block do to [speed_] and [only_yawed_]. *)
Lemma adaptSpeed_after_FOV (s : WaypointGenerator) :
  let s' := adaptSpeed_setWaypoint (adaptSpeed_closeToGoal (adaptSpeed_delay s)) in
  let delta_dist :=
    toSec (ros_clock s (ros_reads s) - update_time_ s)%Z * curr_vel_magnitude_ s in
  only_yawed_ s' = only_yawed_ s
  /\ (limit_speed_close_to_goal_ s' = false -> speed_ s' = speed_ s + delta_dist)
  /\ (limit_speed_close_to_goal_ s' = true ->
      speed_ s' =
      Rmax (Rmin (speed_ s + delta_dist)
              (max_speed_close_to_goal_factor (param_ s)
               * norm (cwiseAbs (vsub (goal_ s) (toEigen (position (pose_ s)))))))
           (min_speed_close_to_goal (param_ s))).
Proof.
  unfold adaptSpeed_setWaypoint, adaptSpeed_closeToGoal, adaptSpeed_delay, now, upd_output.
  cbn.
  destruct (_ && _); cbn; [| destruct (_ || _); cbn;
    [| destruct (limit_speed_close_to_goal_ s) eqn:El; cbn; rewrite ?El]];
    repeat split; intros; try reflexivity; try discriminate.
Qed.

(** The FOV block (cpp:266-297) for a candidate outside the visible set,
    the target altitude reached and the goal not reached. *)
Lemma adaptSpeed_FOV_outside (s : WaypointGenerator) :
  existsb (Z.eqb (adaptSpeed_z_index ext s)) (z_FOV_idx_ s) = false ->
  reach_altitude (planner_info_ s) = true ->
  reached_goal_ s = false ->
  let angle_diff := fov_angle_diff ext (z_FOV_idx_ s) (adaptSpeed_z_index ext s) in
  let s' := adaptSpeed_FOV ext s in
  speed_ s' = speed_ s * (1 - angle_diff / 30)
  /\ only_yawed_ s' = Rltb (speed_ s * (1 - angle_diff / 30)) 0.01
  /\ waypoint_outside_FOV_ s' = true.
Proof.
  intros Hout Halt Hgoal angle_diff s'. subst s' angle_diff.
  unfold adaptSpeed_FOV, now. rewrite Hout. cbn. rewrite Halt, Hgoal. cbn.
  destruct (Rltb _ _); cbn; repeat split; reflexivity.
Qed.

Lemma adaptSpeed_reads (s : WaypointGenerator) :
  ros_reads (adaptSpeed_envelope ext s) = S (ros_reads s)
  /\ ros_reads (adaptSpeed_FOV ext s) = S (ros_reads s).
Proof. unfold adaptSpeed_envelope, adaptSpeed_FOV, now. split; split_ifs; reflexivity. Qed.

(** The FOV block multiplies the speed by a factor between 0 and 1. *)
Lemma adaptSpeed_FOV_factor (s : WaypointGenerator) :
  exists f, 0 <= f <= 1 /\ speed_ (adaptSpeed_FOV ext s) = speed_ s * f.
Proof.
  unfold adaptSpeed_FOV, now.
  destruct (existsb _ _); [exists 1; split; [lra | cbn; lra] |].
  destruct (_ && _); [| exists 1; split; [lra | cbn; lra]].
  exists (1 - fov_angle_diff ext (z_FOV_idx_ s) (adaptSpeed_z_index ext s) / 30).
  pose proof (fov_angle_diff_range (z_FOV_idx_ s) (adaptSpeed_z_index ext s)) as H.
  split; [lra |]. cbn. destruct (Rltb _ _); reflexivity.
Qed.

Lemma adaptSpeed_envelope_speed (s : WaypointGenerator) :
  speed_ (adaptSpeed_envelope ext s) =
  let elapsed := toSec (ros_clock s (ros_reads s) - velocity_time_ s)%Z in
  let limit :=
    if obstacle_ahead (planner_info_ s)
    then min_speed (planner_info_ s) else max_speed (planner_info_ s) in
  velocityLinear ext limit (velocity_sigmoid_slope (planner_info_ s))
    (Rmin (speed_ s) limit) elapsed.
Proof.
  unfold adaptSpeed_envelope, now. cbn.
  destruct (obstacle_ahead (planner_info_ s)); reflexivity.
Qed.

(** The close-to-goal flag after the last three blocks of [adaptSpeed]. *)
Lemma adaptSpeed_close_flag (s : WaypointGenerator) :
  let pos_to_goal := cwiseAbs (vsub (goal_ s) (toEigen (position (pose_ s)))) in
  let start :=
    factor_close_to_goal_start_speed_limitation (param_ s) * curr_vel_magnitude_ s in
  let stop :=
    factor_close_to_goal_stop_speed_limitation (param_ s) * curr_vel_magnitude_ s in
  limit_speed_close_to_goal_
    (adaptSpeed_setWaypoint (adaptSpeed_closeToGoal (adaptSpeed_delay s))) =
  if Rltb (x pos_to_goal) start && Rltb (y pos_to_goal) start then true
  else if Rgtb (x pos_to_goal) stop || Rgtb (y pos_to_goal) stop then false
  else limit_speed_close_to_goal_ s.
Proof.
  unfold adaptSpeed_setWaypoint, adaptSpeed_closeToGoal, adaptSpeed_delay, now, upd_output.
  cbn.
  destruct (_ && _); cbn; [reflexivity |].
  destruct (_ || _); cbn; [reflexivity |].
  destruct (limit_speed_close_to_goal_ s) eqn:El; cbn; rewrite ?El; reflexivity.
Qed.

Lemma adaptSpeed_FOV_limit (s : WaypointGenerator) :
  limit_speed_close_to_goal_ (adaptSpeed_FOV ext (adaptSpeed_envelope ext s))
  = limit_speed_close_to_goal_ s
  /\ ros_reads (adaptSpeed_FOV ext (adaptSpeed_envelope ext s)) = S (S (ros_reads s))
  /\ same_inputs s (adaptSpeed_FOV ext (adaptSpeed_envelope ext s)).
Proof.
  destruct (adaptSpeed_reads s) as (Re & _).
  destruct (adaptSpeed_reads (adaptSpeed_envelope ext s)) as (_ & Rf).
  destruct (adaptSpeed_envelope_frame ext s) as (Ie & _).
  destruct (adaptSpeed_FOV_frame ext (adaptSpeed_envelope ext s)) as (If & _).
  split; [| split].
  - transitivity (limit_speed_close_to_goal_ (adaptSpeed_envelope ext s)).
    + unfold adaptSpeed_FOV, now. split_ifs; reflexivity.
    + unfold adaptSpeed_envelope, now. split_ifs; reflexivity.
  - rewrite Rf, Re. reflexivity.
  - exact (same_inputs_trans _ _ _ Ie If).
Qed.

Lemma adaptSpeed_FOV_visible (s : WaypointGenerator) :
  existsb (Z.eqb (adaptSpeed_z_index ext s)) (z_FOV_idx_ s) = true ->
  speed_ (adaptSpeed_FOV ext s) = speed_ s.
Proof. intros H. unfold adaptSpeed_FOV, now. rewrite H. reflexivity. Qed.

(** The speed that scales the step, from the speed left by the FOV block. *)
Lemma adaptSpeed_speed (s : WaypointGenerator) :
  let v2 := speed_ (adaptSpeed_FOV ext (adaptSpeed_envelope ext s)) in
  let delta_dist :=
    toSec (ros_clock s (S (S (ros_reads s))) - update_time_ s)%Z
    * curr_vel_magnitude_ s in
  let pos_to_goal := cwiseAbs (vsub (goal_ s) (toEigen (position (pose_ s)))) in
  let start :=
    factor_close_to_goal_start_speed_limitation (param_ s) * curr_vel_magnitude_ s in
  let stop :=
    factor_close_to_goal_stop_speed_limitation (param_ s) * curr_vel_magnitude_ s in
  let engaged :=
    if Rltb (x pos_to_goal) start && Rltb (y pos_to_goal) start then true
    else if Rgtb (x pos_to_goal) stop || Rgtb (y pos_to_goal) stop then false
    else limit_speed_close_to_goal_ s in
  speed_ (adaptSpeed ext s) =
  if engaged
  then Rmax (Rmin (v2 + delta_dist)
               (max_speed_close_to_goal_factor (param_ s) * norm pos_to_goal))
            (min_speed_close_to_goal (param_ s))
  else v2 + delta_dist.
Proof.
  cbv zeta. unfold adaptSpeed.
  destruct (adaptSpeed_FOV_limit s) as (L & R & I).
  pose proof (adaptSpeed_close_flag (adaptSpeed_FOV ext (adaptSpeed_envelope ext s))) as F.
  destruct (adaptSpeed_after_FOV (adaptSpeed_FOV ext (adaptSpeed_envelope ext s)))
    as (_ & Hno & Hyes).
  cbv zeta in F, Hno, Hyes.
  rewrite L, (si_goal I), (si_pose I), (si_param I), (si_curr_vel_magnitude I) in F.
  rewrite R, (si_ros_clock I), (si_update_time I), (si_curr_vel_magnitude I) in Hno, Hyes.
  rewrite (si_param I), (si_goal I), (si_pose I) in Hyes.
  revert F Hno Hyes.
  generalize (adaptSpeed_setWaypoint
                (adaptSpeed_closeToGoal
                   (adaptSpeed_delay (adaptSpeed_FOV ext (adaptSpeed_envelope ext s))))).
  intros s' F Hno Hyes. rewrite <- F.
  destruct (limit_speed_close_to_goal_ s'); [apply Hyes | apply Hno]; reflexivity.
Qed.

(** With a resolution of at least one degree the start value 100 of the
    loop does not show: [fov_angle_diff] is the capped angle to the nearest
    visible index. *)
Lemma fov_angle_diff_nearest (l : list Z) (z_index nearest : Z) :
  (1 <= ALPHA_RES ext)%Z ->
  In nearest l ->
  (forall idx, In idx l -> (Z.abs (nearest - z_index) <= Z.abs (idx - z_index))%Z) ->
  fov_angle_diff ext l z_index
  = Rmin (IZR (ALPHA_RES ext * Z.abs (nearest - z_index))) 30.
Proof.
  intros Hres Hin Hmin. unfold fov_angle_diff.
  destruct (fov_ind_dist_spec l z_index) as ((H0 & H100) & Hall & Hex).
  specialize (Hall nearest Hin).
  assert (Hcase : fov_ind_dist l z_index = Z.abs (nearest - z_index)
                  \/ (fov_ind_dist l z_index = 100
                      /\ 100 <= Z.abs (nearest - z_index))%Z).
  { destruct Hex as [E | (idx & Hi & E)].
    - destruct (Z.eq_dec (Z.abs (nearest - z_index)) 100) as [E' | N];
        [left; lia | right; lia].
    - left. specialize (Hmin idx Hi). lia. }
  destruct Hcase as [-> | (-> & Hfar)].
  - rewrite Z.abs_mul, (Z.abs_eq (ALPHA_RES ext)), Z.abs_idemp by lia. reflexivity.
  - assert (A1 : 30 <= IZR (Z.abs (ALPHA_RES ext * 100)))
      by (apply (IZR_le 30); lia).
    assert (A2 : 30 <= IZR (ALPHA_RES ext * Z.abs (nearest - z_index)))
      by (apply (IZR_le 30); nia).
    rewrite !Rmin_right by assumption. reflexivity.
Qed.

(** X21.  The FOV block as the code has it.  When the azimuth index of the
    candidate point is not among the visible indices, the target altitude
    is reached and the goal is not, the block multiplies the speed left by
    the envelope step by [1 - angle_diff / 30].  [angle_diff] is the
    resolution times the least difference of index numbers to a visible
    index (a difference of 100 when none is nearer), capped at 30 degrees;
    at 30 degrees the speed is 0.  Index numbers are subtracted as
    integers, with no wrap at the +-180 degree seam.  After [adaptSpeed]
    the yaw-only flag is set exactly when the slowed speed is below 0.01. *)
Theorem fov_slowdown (s : WaypointGenerator) :
  let z_index := adaptSpeed_z_index ext s in
  existsb (Z.eqb z_index) (z_FOV_idx_ s) = false ->
  reach_altitude (planner_info_ s) = true ->
  reached_goal_ s = false ->
  let e := adaptSpeed_envelope ext s in
  let ind_dist := fov_ind_dist (z_FOV_idx_ s) z_index in
  let angle_diff := Rmin (IZR (Z.abs (ALPHA_RES ext * ind_dist))) 30 in
  let slowed := speed_ e * (1 - angle_diff / 30) in
  speed_ (adaptSpeed_FOV ext e) = slowed
  /\ (only_yawed_ (adaptSpeed ext s) = true <-> slowed < 0.01)
  /\ waypoint_outside_FOV_ (adaptSpeed_FOV ext e) = true
  /\ (forall idx, In idx (z_FOV_idx_ s) -> (ind_dist <= Z.abs (idx - z_index))%Z)
  /\ (ind_dist = 100%Z
      \/ exists idx, In idx (z_FOV_idx_ s) /\ ind_dist = Z.abs (idx - z_index))
  /\ (forall nearest,
         (1 <= ALPHA_RES ext)%Z ->
         In nearest (z_FOV_idx_ s) ->
         (forall idx, In idx (z_FOV_idx_ s) ->
                      (Z.abs (nearest - z_index) <= Z.abs (idx - z_index))%Z) ->
         angle_diff = Rmin (IZR (ALPHA_RES ext * Z.abs (nearest - z_index))) 30)
  /\ 0 <= angle_diff <= 30
  /\ (angle_diff = 30 -> slowed = 0 /\ only_yawed_ (adaptSpeed ext s) = true).
Proof.
  intros z_index Hout Halt Hgoal e ind_dist angle_diff slowed.
  destruct (adaptSpeed_envelope_frame ext s) as (Ie & Ge).
  fold e in Ie, Ge.
  assert (Hz : adaptSpeed_z_index ext e = z_index) by apply adaptSpeed_z_index_envelope.
  assert (Hout' : existsb (Z.eqb (adaptSpeed_z_index ext e)) (z_FOV_idx_ e) = false)
    by (rewrite Hz, (si_z_FOV_idx Ie); exact Hout).
  assert (Halt' : reach_altitude (planner_info_ e) = true)
    by (rewrite (si_planner_info Ie); exact Halt).
  assert (Hgoal' : reached_goal_ e = false)
    by (rewrite (sg_reached_goal Ge); exact Hgoal).
  destruct (adaptSpeed_FOV_outside e Hout' Halt' Hgoal') as (Hs & Hy & Hw).
  cbv zeta in Hs, Hy, Hw. rewrite Hz, (si_z_FOV_idx Ie) in Hs, Hy.
  change (fov_angle_diff ext (z_FOV_idx_ s) z_index) with angle_diff in Hs, Hy.
  fold slowed in Hs, Hy.
  destruct (adaptSpeed_after_FOV (adaptSpeed_FOV ext e)) as (Hkeep & _).
  cbv zeta in Hkeep.
  change (only_yawed_ (adaptSpeed ext s) = only_yawed_ (adaptSpeed_FOV ext e)) in Hkeep.
  rewrite Hy in Hkeep.
  destruct (fov_ind_dist_spec (z_FOV_idx_ s) z_index) as (_ & Hall & Hex).
  pose proof (fov_angle_diff_range (z_FOV_idx_ s) z_index) as Hrange.
  change (fov_angle_diff ext (z_FOV_idx_ s) z_index) with angle_diff in Hrange.
  pose proof (fov_angle_diff_nearest (z_FOV_idx_ s) z_index) as Hnear.
  change (fov_angle_diff ext (z_FOV_idx_ s) z_index) with angle_diff in Hnear.
  clearbody e. clearbody angle_diff.
  split; [exact Hs |]. split; [rewrite Hkeep; apply Rltb_true |].
  split; [exact Hw |]. split; [exact Hall |]. split; [exact Hex |].
  split; [intros nearest H1 H2 H3; exact (Hnear nearest H1 H2 H3) |].
  split; [exact Hrange |].
  intros H30. assert (H0 : slowed = 0) by (subst slowed; rewrite H30; lra).
  split; [exact H0 |]. rewrite Hkeep. apply Rltb_true. lra.
Qed.

(** C1 (as the code has it).  If [velocityLinear] never returns more than
    the limit it is given, the envelope step leaves a speed of at most the
    current limit: [max_speed] with no obstacle ahead, [min_speed] with one.
    With a limit that is not negative the FOV block keeps the speed under
    the limit; the delay compensation then adds the time since the state
    update times the speed magnitude, and close to the goal the speed is cut
    to a share of the remaining distance and raised to
    [min_speed_close_to_goal].  The speed that scales the step is therefore
    at most the larger of limit plus compensation and
    [min_speed_close_to_goal]. *)
Theorem adaptSpeed_speed_bound (s : WaypointGenerator) :
  (forall max_vel slope v_old elapsed,
      velocityLinear ext max_vel slope v_old elapsed <= max_vel) ->
  let limit :=
    if obstacle_ahead (planner_info_ s)
    then min_speed (planner_info_ s) else max_speed (planner_info_ s) in
  0 <= limit ->
  let delta_dist :=
    toSec (ros_clock s (S (S (ros_reads s))) - update_time_ s)%Z
    * curr_vel_magnitude_ s in
  speed_ (adaptSpeed_envelope ext s) <= limit
  /\ speed_ (adaptSpeed_FOV ext (adaptSpeed_envelope ext s)) <= limit
  /\ speed_ (adaptSpeed ext s)
     <= Rmax (limit + delta_dist) (min_speed_close_to_goal (param_ s)).
Proof.
  intros Hcap limit Hlimit delta_dist.
  assert (H1 : speed_ (adaptSpeed_envelope ext s) <= limit)
    by (rewrite adaptSpeed_envelope_speed; apply Hcap).
  destruct (adaptSpeed_envelope_frame ext s) as (Ie & _).
  destruct (adaptSpeed_reads s) as (Re & _).
  unfold adaptSpeed.
  revert H1 Ie Re. generalize (adaptSpeed_envelope ext s). intros e H1 Ie Re.
  destruct (adaptSpeed_FOV_factor e) as (f & Hf & Ef).
  assert (H2 : speed_ (adaptSpeed_FOV ext e) <= limit) by (rewrite Ef; nra).
  destruct (adaptSpeed_FOV_frame ext e) as (If & _).
  destruct (adaptSpeed_reads e) as (_ & Rf).
  assert (I : same_inputs s (adaptSpeed_FOV ext e))
    by exact (same_inputs_trans _ _ _ Ie If).
  assert (R : ros_reads (adaptSpeed_FOV ext e) = S (S (ros_reads s)))
    by (rewrite Rf, Re; reflexivity).
  split; [exact H1 |]. split; [exact H2 |].
  destruct (adaptSpeed_after_FOV (adaptSpeed_FOV ext e)) as (_ & Hno & Hyes).
  cbv zeta in Hno, Hyes.
  rewrite R, (si_ros_clock I), (si_update_time I), (si_curr_vel_magnitude I) in Hno, Hyes.
  rewrite (si_param I), (si_goal I), (si_pose I) in Hyes.
  fold delta_dist in Hno, Hyes.
  revert H2 Hno Hyes. generalize (speed_ (adaptSpeed_FOV ext e)). intros v2 H2.
  generalize (adaptSpeed_setWaypoint
                (adaptSpeed_closeToGoal (adaptSpeed_delay (adaptSpeed_FOV ext e)))).
  intros s' Hno Hyes.
  destruct (limit_speed_close_to_goal_ s').
  - rewrite (Hyes eq_refl).
    apply Rmax_lub; [| apply Rmax_r].
    apply Rle_trans with (2 := Rmax_l _ _).
    apply Rle_trans with (1 := Rmin_l _ _). lra.
  - rewrite (Hno eq_refl). apply Rle_trans with (2 := Rmax_l _ _). lra.
Qed.

End SpeedAdaptation.

(** X21 at work, on the scenario of the spec: the nearest visible index is 30
    degrees away. *)
Lemma fov_slowdown_example :
  existsb (Z.eqb (adaptSpeed_z_index example_externals looking_away))
    (z_FOV_idx_ looking_away) = false
  /\ reach_altitude (planner_info_ looking_away) = true
  /\ reached_goal_ looking_away = false
  /\ speed_ (adaptSpeed_FOV example_externals
               (adaptSpeed_envelope example_externals looking_away)) = 0
  /\ only_yawed_ (adaptSpeed example_externals looking_away) = true.
Proof.
  destruct (fov_slowdown example_externals looking_away eq_refl eq_refl eq_refl)
    as (Hs & _ & _ & _ & _ & _ & _ & H30).
  assert (Ha : Rmin (IZR (Z.abs (ALPHA_RES example_externals
                       * fov_ind_dist (z_FOV_idx_ looking_away)
                           (adaptSpeed_z_index example_externals looking_away)))) 30 = 30).
  { replace (Z.abs _) with 30%Z by reflexivity. Rdecide. }
  destruct (H30 Ha) as (H0 & Hy).
  split; [reflexivity |]. split; [reflexivity |]. split; [reflexivity |].
  split; [rewrite Hs; exact H0 | exact Hy].
Defined.

Lemma toSec_tenth : toSec 100000000 = 0.1.
Proof. unfold toSec. lra. Qed.

Lemma velocityLinear_ramp_le (max_vel slope v_old elapsed : R) :
  velocityLinear_ramp max_vel slope v_old elapsed <= max_vel.
Proof. unfold velocityLinear_ramp. Rdecide. Qed.

(** Close to the goal the speed is [min_speed_close_to_goal], whatever the
    helpers return. *)
Lemma near_goal_speed (ext : Externals) : speed_ (adaptSpeed ext near_goal) = 0.5.
Proof.
  rewrite adaptSpeed_speed.
  generalize (speed_ (adaptSpeed_FOV ext (adaptSpeed_envelope ext near_goal))). intros v2.
  cbn [near_goal idle set_curr_vel_magnitude_ set_goal_ goal_ pose_ param_ position
       curr_vel_magnitude_ ros_clock ros_reads update_time_ limit_speed_close_to_goal_
       toEigen cwiseAbs vsub x y z pose_at origin example_params
       factor_close_to_goal_start_speed_limitation
       factor_close_to_goal_stop_speed_limitation
       max_speed_close_to_goal_factor min_speed_close_to_goal].
  assert (Hn : norm (cwiseAbs (vsub (mkV3 1 0 0) origin)) = 1).
  { unfold norm, squaredNorm, cwiseAbs, vsub, origin; cbn [x y z].
    replace (Rabs (1 - 0)) with 1 by Rdecide.
    replace (Rabs (0 - 0)) with 0 by Rdecide.
    replace (1 * 1 + 0 * 0 + 0 * 0) with 1 by lra. apply sqrt_1. }
  rewrite Hn.
  replace (Rltb (Rabs (1 - 0)) (3 * 1)) with true by (symmetry; apply Rltb_true; Rdecide).
  replace (Rltb (Rabs (0 - 0)) (3 * 1)) with true by (symmetry; apply Rltb_true; Rdecide).
  cbn [andb]. Rdecide.
Qed.

(** At cruise the delay compensation adds 0.1 s times the speed 3. *)
Lemma cruising_speed : speed_ (adaptSpeed example_externals cruising) = 3.3.
Proof.
  rewrite adaptSpeed_speed.
  assert (Hv2 : speed_ (adaptSpeed_FOV example_externals
                          (adaptSpeed_envelope example_externals cruising)) = 3).
  { rewrite adaptSpeed_FOV_visible.
    - rewrite adaptSpeed_envelope_speed.
      cbn [cruising planner_info_ example_directive obstacle_ahead max_speed min_speed
           velocity_sigmoid_slope speed_ ros_clock ros_reads velocity_time_
           velocityLinear example_externals].
      replace (100000000 - 0)%Z with 100000000%Z by reflexivity.
      rewrite toSec_tenth. unfold velocityLinear_ramp. Rdecide.
    - rewrite adaptSpeed_z_index_envelope,
        (si_z_FOV_idx (proj1 (adaptSpeed_envelope_frame example_externals cruising))).
      reflexivity. }
  rewrite Hv2.
  cbn [cruising goal_ pose_ param_ position
       curr_vel_magnitude_ ros_clock ros_reads update_time_ limit_speed_close_to_goal_
       toEigen pose_at example_params
       factor_close_to_goal_start_speed_limitation
       factor_close_to_goal_stop_speed_limitation
       max_speed_close_to_goal_factor min_speed_close_to_goal].
  replace (100000000 - 0)%Z with 100000000%Z by reflexivity.
  rewrite toSec_tenth.
  unfold cwiseAbs, vsub, origin; cbn [x y z].
  replace (Rltb (Rabs (20 - 0)) (3 * 3)) with false by (symmetry; apply Rltb_false; Rdecide).
  replace (Rgtb (Rabs (20 - 0)) (4 * 3)) with true by (symmetry; apply Rltb_true; Rdecide).
  rewrite andb_false_r, orb_true_r. lra.
Qed.

(** C1 (as the code has it) at work. *)
Lemma adaptSpeed_speed_bound_example :
  (forall max_vel slope v_old elapsed,
      velocityLinear example_externals max_vel slope v_old elapsed <= max_vel)
  /\ 0 <= max_speed (planner_info_ cruising)
  /\ speed_ (adaptSpeed_envelope example_externals cruising) <= 3
  /\ speed_ (adaptSpeed example_externals cruising) <= Rmax (3 + 0.1 * 3) 0.5.
Proof.
  assert (H1 : forall max_vel slope v_old elapsed,
             velocityLinear example_externals max_vel slope v_old elapsed <= max_vel)
    by exact velocityLinear_ramp_le.
  assert (H2 : 0 <= max_speed (planner_info_ cruising)) by (cbn; lra).
  pose proof (adaptSpeed_speed_bound example_externals cruising H1 H2) as (A & _ & C).
  rewrite <- toSec_tenth.
  split; [exact H1 |]. split; [exact H2 |]. split; [exact A | exact C].
Defined.

(** C1 as stated fails: with [min_speed] 1 and [max_speed] 3 the speed that
    scales the step is 0.5 close to the goal and 3.3 at cruise. *)
Lemma adaptSpeed_speed_outside_bounds :
  ~ (min_speed (planner_info_ near_goal)
     <= speed_ (adaptSpeed example_externals near_goal)
     <= max_speed (planner_info_ near_goal))
  /\ ~ (min_speed (planner_info_ cruising)
        <= speed_ (adaptSpeed example_externals cruising)
        <= max_speed (planner_info_ cruising)).
Proof. rewrite near_goal_speed, cruising_speed. cbn. split; lra. Qed.
(** ** The jerk-limited smoother *)

Lemma norm2_nonneg (a : Vector2f) : 0 <= norm2 a.
Proof. apply sqrt_pos. Qed.

Lemma vector2f_eq (a b : Vector2f) : x2 a = x2 b -> y2 a = y2 b -> a = b.
Proof. destruct a, b; cbn; intros -> ->; reflexivity. Qed.

(** A vector scaled to the length [k >= 0] along a direction that is not
    zero has squared length [k * k]. *)
Lemma squaredNorm2_scaled_normalized (k : R) (a : Vector2f) :
  0 < squaredNorm2 a ->
  squaredNorm2 (vscale2 k (normalized2 a)) = k * k.
Proof.
  intros Hpos. unfold normalized2, Rgtb.
  assert (E : Rltb 0 (squaredNorm2 a) = true) by (apply Rltb_true; exact Hpos).
  rewrite E.
  assert (Hs : 0 < sqrt (squaredNorm2 a)) by (apply sqrt_lt_R0; exact Hpos).
  assert (Hss : sqrt (squaredNorm2 a) * sqrt (squaredNorm2 a) = squaredNorm2 a)
    by (apply sqrt_sqrt; lra).
  revert Hs Hss. generalize (sqrt (squaredNorm2 a)). intros r Hs Hss.
  unfold squaredNorm2 in Hss. unfold squaredNorm2, vscale2, vdiv2; cbn.
  assert (Hr : r <> 0) by lra.
  replace (k * (x2 a / r) * (k * (x2 a / r)) + k * (y2 a / r) * (k * (y2 a / r)))
    with (k * k * ((x2 a * x2 a + y2 a * y2 a) / (r * r))) by (field; exact Hr).
  rewrite <- Hss. field. nra.
Qed.

(** The jerk asked for by the setpoint reached with velocity [v]. *)
Lemma smooth_jerk_of_velocity (dt : R) (s : WaypointGenerator) (v : Vector2f) (z0 : R) :
  dt <> 0 ->
  smooth_jerk dt s
    (mkV3 (x (position (last_position_waypoint_ s)) + x2 v * dt)
          (y (position (last_position_waypoint_ s)) + y2 v * dt) z0)
  = vdiv2 (vsub2 (vdiv2 (vsub2 v (smooth_vel_cur_xy s)) dt) (smooth_accel_cur dt s)) dt.
Proof.
  intros Hdt. unfold smooth_jerk, smooth_vel_sp_xy. cbn [x y z].
  apply vector2f_eq; cbn; field; exact Hdt.
Qed.

Lemma smooth_max_jerk_eq (s : WaypointGenerator) :
  smooth_max_jerk s =
  if Rgtb (min_jerk_limit_param_ s) 0.001
  then Rmax (max_jerk_limit_param_ s * norm2 (smooth_vel_cur_xy s))
            (min_jerk_limit_param_ s)
  else max_jerk_limit_param_ s.
Proof.
  unfold smooth_max_jerk. destruct (Rgtb _ _); [| reflexivity].
  unfold Rltb, Rmax. destruct (Rlt_dec _ _), (Rle_dec _ _); lra.
Qed.


Lemma stepping_max_jerk : smooth_max_jerk stepping = 1.
Proof. unfold smooth_max_jerk. cbn. Rdecide. Qed.


(** With a computed maximum of at most 0.001 the target is not smoothed. *)
Lemma smoothWaypoint_unlimited (dt : R) (s : WaypointGenerator) :
  dt <> 0 ->
  smooth_max_jerk s <= 0.001 ->
  smoothed_goto_position (output_ (smoothWaypoint dt s)) = adapted_goto_position (output_ s).
Proof.
  intros Hdt Hmax. unfold smoothWaypoint, upd_output. cbn.
  replace (Rgtb (smooth_max_jerk s) 0.001) with false
    by (symmetry; apply Rltb_false; lra).
  rewrite andb_false_r. unfold smooth_vel_sp_xy; cbn.
  destruct (adapted_goto_position (output_ s)) as [tx ty tz]; cbn.
  f_equal; field; exact Hdt.
Qed.

(** ** Zero-length directions on binary32 *)

Lemma F32_sub_zero_finite (a b : F32.float) :
  F32.is_zero (F32.sub a b) = true ->
  F32.is_finite a = true /\ F32.is_finite b = true.
Proof.
  unfold F32.sub.
  destruct a as [sa | sa | | sa ma ea], b as [sb | sb | | sb mb eb];
    try destruct sa; try destruct sb; cbn;
    intros H; try discriminate H; split; reflexivity.
Qed.

Lemma F32_sub_self (a : F32.float) :
  F32.is_finite a = true -> F32.is_zero (F32.sub a a) = true.
Proof.
  unfold F32.sub.
  destruct a as [sa | sa | | sa ma ea]; intros H; try discriminate H.
  - destruct sa; reflexivity.
  - unfold SFsub. rewrite Z.sub_diag. reflexivity.
Qed.

Lemma F32_compare_refl (a : F32.float) :
  F32.is_finite a = true -> SFeqb a a = true.
Proof.
  unfold SFeqb.
  destruct a as [sa | sa | | sa ma ea]; intros H; try discriminate H.
  - reflexivity.
  - unfold SFcompare.
    destruct sa; rewrite Z.compare_refl, Pos.compare_cont_refl; reflexivity.
Qed.

(** Adding a zero to a finite value gives that value, not a NaN. *)
Lemma F32_add_zero (a d : F32.float) :
  F32.is_finite a = true -> F32.is_zero d = true ->
  F32.is_nan (F32.add a d) = false /\ SFeqb (F32.add a d) a = true.
Proof.
  unfold F32.add. intros Ha Hd.
  destruct d as [sd | sd | | sd md ed]; try discriminate Hd.
  destruct a as [sa | sa | | sa ma ea]; try discriminate Ha.
  - destruct sa, sd; cbn; split; reflexivity.
  - cbn [SFadd]. split; [reflexivity |].
    apply F32_compare_refl. reflexivity.
Qed.

Lemma F32_mul_zero_half (d : F32.float) :
  F32.is_zero d = true -> F32.is_zero (F32.mul d F32.half) = true.
Proof. destruct d; cbn; intros H; (discriminate H || reflexivity). Qed.

Lemma F32_squaredNorm_zero (v : F32.Vector3f) :
  F32.vec_is_zero v = true -> F32.squaredNorm v = F32.zero.
Proof.
  unfold F32.vec_is_zero, F32.squaredNorm. destruct v as [a b c]. cbn [F32.x F32.y F32.z].
  rewrite !andb_true_iff. intros [[Ha Hb] Hc].
  destruct a as [sa | | | ]; try discriminate Ha.
  destruct b as [sb | | | ]; try discriminate Hb.
  destruct c as [sc | | | ]; try discriminate Hc.
  destruct sa, sb, sc; reflexivity.
Qed.

(** A zero vector goes through [normalized] unchanged. *)
Lemma F32_normalized_zero (v : F32.Vector3f) :
  F32.vec_is_zero v = true -> F32.normalized v = v.
Proof.
  intros H. unfold F32.normalized. rewrite (F32_squaredNorm_zero v H). reflexivity.
Qed.

(** Without the test on the squared norm the division would be 0 / 0. *)
Remark F32_zero_over_zero_norm (v : F32.Vector3f) :
  F32.vec_is_zero v = true ->
  F32.vec_has_nan (F32.vdiv v (F32.sqrt (F32.squaredNorm v))) = true.
Proof.
  intros H. rewrite (F32_squaredNorm_zero v H).
  destruct v as [a b c]. unfold F32.vec_is_zero in H. cbn [F32.x F32.y F32.z] in H.
  rewrite !andb_true_iff in H. destruct H as [[Ha Hb] Hc].
  destruct a as [sa | | | ]; try discriminate Ha. reflexivity.
Qed.

(** C4.  When the vector to normalize has zero length the step is a zero
    step and the goal point holds no NaN: in [goFast], whenever goal minus
    position is the zero vector (so whenever the goal equals a finite
    position), the direction stays that zero vector and the goal point
    compares equal to the position; in [backOff], whenever the horizontal
    offset from the back-off point is zero, the step is zero, x and y of the
    goal point compare equal to those of the position, and z is the z of
    the back-off start point. *)
Theorem zero_direction_zero_step :
  (forall pos goal : F32.Vector3f,
      F32.vec_is_zero (F32.vsub goal pos) = true ->
      F32.goFast_dir pos goal = F32.vsub goal pos
      /\ F32.vec_has_nan (F32.goFast_goto pos goal) = false
      /\ SFeqb (F32.x (F32.goFast_goto pos goal)) (F32.x pos) = true
      /\ SFeqb (F32.y (F32.goFast_goto pos goal)) (F32.y pos) = true
      /\ SFeqb (F32.z (F32.goFast_goto pos goal)) (F32.z pos) = true)
  /\ (forall pos : F32.Vector3f,
         F32.vec_is_finite pos = true ->
         F32.vec_is_zero (F32.vsub pos pos) = true)
  /\ (forall (pos back_off_point : F32.Vector3f) (start_z : F32.float),
         F32.is_zero (F32.x (F32.vsub pos back_off_point)) = true ->
         F32.is_zero (F32.y (F32.vsub pos back_off_point)) = true ->
         F32.vec_is_zero (F32.backOff_dir pos back_off_point) = true
         /\ F32.is_nan (F32.x (F32.backOff_goto pos back_off_point start_z)) = false
         /\ F32.is_nan (F32.y (F32.backOff_goto pos back_off_point start_z)) = false
         /\ SFeqb (F32.x (F32.backOff_goto pos back_off_point start_z)) (F32.x pos) = true
         /\ SFeqb (F32.y (F32.backOff_goto pos back_off_point start_z)) (F32.y pos) = true
         /\ F32.z (F32.backOff_goto pos back_off_point start_z) = start_z).
Proof.
  split; [| split].
  - intros pos goal Hz.
    assert (Hdir : F32.goFast_dir pos goal = F32.vsub goal pos)
      by (apply F32_normalized_zero; exact Hz).
    unfold F32.goFast_goto. rewrite Hdir.
    unfold F32.vec_is_zero in Hz. rewrite !andb_true_iff in Hz.
    destruct Hz as [[Hx Hy] Hzz].
    unfold F32.vsub in Hx, Hy, Hzz. cbn [F32.x F32.y F32.z] in Hx, Hy, Hzz.
    destruct (F32_sub_zero_finite _ _ Hx) as (_ & Fx).
    destruct (F32_sub_zero_finite _ _ Hy) as (_ & Fy).
    destruct (F32_sub_zero_finite _ _ Hzz) as (_ & Fz).
    destruct (F32_add_zero _ _ Fx Hx) as (Nx & Ex).
    destruct (F32_add_zero _ _ Fy Hy) as (Ny & Ey).
    destruct (F32_add_zero _ _ Fz Hzz) as (Nz & Ez).
    unfold F32.vec_has_nan, F32.vadd, F32.vsub. cbn [F32.x F32.y F32.z].
    rewrite Nx, Ny, Nz. repeat split; assumption.
  - intros pos Hf. unfold F32.vec_is_finite in Hf. rewrite !andb_true_iff in Hf.
    destruct Hf as [[Fx Fy] Fz].
    unfold F32.vec_is_zero, F32.vsub. cbn [F32.x F32.y F32.z].
    rewrite !F32_sub_self by assumption. reflexivity.
  - intros pos bop start_z Hx Hy.
    unfold F32.vsub in Hx, Hy. cbn [F32.x F32.y F32.z] in Hx, Hy.
    assert (Hv : F32.vec_is_zero
                   (F32.mkV3 (F32.sub (F32.x pos) (F32.x bop))
                             (F32.sub (F32.y pos) (F32.y bop)) F32.zero) = true)
      by (unfold F32.vec_is_zero; cbn [F32.x F32.y F32.z]; rewrite Hx, Hy; reflexivity).
    assert (Hdir : F32.backOff_dir pos bop =
                   F32.vmul (F32.mkV3 (F32.sub (F32.x pos) (F32.x bop))
                                      (F32.sub (F32.y pos) (F32.y bop)) F32.zero) F32.half).
    { unfold F32.backOff_dir, F32.vsub. cbn [F32.x F32.y F32.z].
      rewrite (F32_normalized_zero _ Hv). reflexivity. }
    pose proof (F32_mul_zero_half _ Hx) as Mx.
    pose proof (F32_mul_zero_half _ Hy) as My.
    destruct (F32_sub_zero_finite _ _ Hx) as (Fx & _).
    destruct (F32_sub_zero_finite _ _ Hy) as (Fy & _).
    destruct (F32_add_zero _ _ Fx Mx) as (Nx & Ex).
    destruct (F32_add_zero _ _ Fy My) as (Ny & Ey).
    unfold F32.backOff_goto. rewrite Hdir.
    unfold F32.vec_is_zero, F32.vadd, F32.vmul. cbn [F32.x F32.y F32.z].
    rewrite Mx, My. repeat split; assumption.
Qed.

(** C4 at work: goal and back-off point at the position (1,2,3), the
    back-off point one unit lower. *)
Lemma zero_direction_example :
  F32.vec_is_zero (F32.vsub (F32.mkV3 f32_1 f32_2 f32_3) (F32.mkV3 f32_1 f32_2 f32_3)) = true
  /\ F32.vec_has_nan
       (F32.goFast_goto (F32.mkV3 f32_1 f32_2 f32_3) (F32.mkV3 f32_1 f32_2 f32_3)) = false
  /\ F32.vec_is_zero
       (F32.backOff_dir (F32.mkV3 f32_1 f32_2 f32_3) (F32.mkV3 f32_1 f32_2 f32_1)) = true
  /\ F32.z (F32.backOff_goto (F32.mkV3 f32_1 f32_2 f32_3) (F32.mkV3 f32_1 f32_2 f32_1) f32_5)
     = f32_5.
Proof.
  destruct zero_direction_zero_step as (Hfast & Hself & Hback).
  assert (Hz : F32.vec_is_zero
                 (F32.vsub (F32.mkV3 f32_1 f32_2 f32_3) (F32.mkV3 f32_1 f32_2 f32_3)) = true)
    by (apply Hself; reflexivity).
  destruct (Hfast _ _ Hz) as (_ & Hnan & _).
  destruct (Hback (F32.mkV3 f32_1 f32_2 f32_3) (F32.mkV3 f32_1 f32_2 f32_1) f32_5
              eq_refl eq_refl) as (Hdir & _ & _ & _ & _ & Hzz).
  split; [exact Hz |]. split; [exact Hnan |]. split; [exact Hdir | exact Hzz].
Defined.

(** ** Vectors: lengths of scaled and normalized steps *)

Lemma vector3f_eq (a b : Vector3f) : x a = x b -> y a = y b -> z a = z b -> a = b.
Proof. destruct a, b; cbn; intros -> -> ->; reflexivity. Qed.

Lemma vsub_vadd (a b : Vector3f) : vsub (vadd a b) a = b.
Proof. apply vector3f_eq; cbn; lra. Qed.

Lemma squaredNorm_vscale (k : R) (a : Vector3f) :
  squaredNorm (vscale k a) = (k * k) * squaredNorm a.
Proof. unfold squaredNorm, vscale; cbn. ring. Qed.

Lemma norm_vscale (k : R) (a : Vector3f) : norm (vscale k a) = Rabs k * norm a.
Proof.
  unfold norm. rewrite squaredNorm_vscale.
  rewrite sqrt_mult by (try apply squaredNorm_nonneg; nra).
  f_equal. replace (k * k) with (Rsqr k) by reflexivity. apply sqrt_Rsqr_abs.
Qed.

Lemma squaredNorm_cwiseAbs (a : Vector3f) : squaredNorm (cwiseAbs a) = squaredNorm a.
Proof.
  unfold squaredNorm, cwiseAbs; cbn.
  assert (H : forall r, Rabs r * Rabs r = r * r)
    by (intros r; rewrite <- Rabs_mult; apply Rabs_pos_eq; nra).
  rewrite !H. reflexivity.
Qed.

Lemma norm_cwiseAbs (a : Vector3f) : norm (cwiseAbs a) = norm a.
Proof. unfold norm. rewrite squaredNorm_cwiseAbs. reflexivity. Qed.

Lemma norm_pos_squaredNorm (a : Vector3f) (c : R) :
  0 <= c -> norm a > c -> 0 < squaredNorm a.
Proof.
  intros Hc Hn. pose proof (squaredNorm_nonneg a) as H0.
  destruct (Req_dec (squaredNorm a) 0) as [E | N]; [| lra].
  unfold norm in Hn. rewrite E, sqrt_0 in Hn. lra.
Qed.

Lemma normalized_pos (a : Vector3f) :
  0 < squaredNorm a -> normalized a = vdiv a (norm a).
Proof.
  intros H. unfold normalized, Rgtb.
  replace (Rltb 0 (squaredNorm a)) with true by (symmetry; apply Rltb_true; exact H).
  reflexivity.
Qed.

Lemma normalized_zero (a : Vector3f) : squaredNorm a = 0 -> normalized a = a.
Proof.
  intros H. unfold normalized, Rgtb. rewrite H.
  replace (Rltb 0 0) with false by (symmetry; apply Rltb_false; lra).
  reflexivity.
Qed.

(** ** The shape of a tick *)

Section TickShape.

Variable ext : Externals.

(** The state a handler hands to [getPathMsg] is the state it was entered
    with, but for the raw goal point, the hover position and the number of
    clock readings. *)
Lemma dispatch_shape (b : WaypointGenerator) :
  waypoint_type (planner_info_ b) <> goBack ->
  exists g h n,
    let u :=
      upd_output (set_goto_position g) (set_hover_position_ h (set_ros_reads n b)) in
    (n = ros_reads b \/ n = S (ros_reads b))
    /\ (dispatch ext b = getPathMsg ext u
        \/ (waypoint_type (planner_info_ b) = tryPath
            /\ dispatch ext b =
               upd_output (set_result_waypoint_type direct) (getPathMsg ext u))).
Proof.
  intros Hmode. unfold dispatch.
  destruct (waypoint_type (planner_info_ b)) eqn:Em; try contradiction.
  - (* hover *)
    exists (toPoint
              (if waypoint_choice_eqb (last_wp_type_ b) hover
               then hover_position_ b else toEigen (position (pose_ b)))),
           (if waypoint_choice_eqb (last_wp_type_ b) hover
            then hover_position_ b else toEigen (position (pose_ b))),
           (ros_reads b).
    split; [left; reflexivity |]. left.
    destruct (waypoint_choice_eqb (last_wp_type_ b) hover); destruct b; reflexivity.
  - (* costmap *)
    eexists _, (hover_position_ b), (ros_reads b).
    split; [left; reflexivity |]. left. destruct b; reflexivity.
  - (* tryPath *)
    unfold now. destruct (tryPath_use_tree ext b _).
    + eexists _, (hover_position_ b), (S (ros_reads b)).
      split; [right; reflexivity |]. left. destruct b; reflexivity.
    + unfold goFast. eexists _, (hover_position_ b), (S (ros_reads b)).
      split; [right; reflexivity |]. right. split; [reflexivity |].
      destruct b; reflexivity.
  - (* direct *)
    unfold goFast. eexists _, (hover_position_ b), (ros_reads b).
    split; [left; reflexivity |]. left. destruct b; reflexivity.
  - (* reachHeight *)
    unfold goFast. eexists _, (hover_position_ b), (ros_reads b).
    split; [left; reflexivity |]. left. destruct b; reflexivity.
Qed.

(** [getPathMsg] ends in [transformPositionToVelocityWaypoint]. *)
Lemma getPathMsg_assemble_velocity (t : WaypointGenerator) :
  let t' := getPathMsg_assemble ext t in
  velocity_waypoint (output_ t') =
  mkTwist
    (vsub (position (position_waypoint (output_ t'))) (position (pose_ t)))
    (mkV3 0 0 (getAngularVelocity ext (new_yaw_ t') (curr_yaw_ t))).
Proof.
  unfold getPathMsg_assemble.
  destruct (withinGoalRadius_frame ext t) as (Iw & _ & _).
  pose proof (si_pose Iw) as Hp. pose proof (si_curr_yaw Iw) as Hy.
  destruct (withinGoalRadius ext t) as [within w]. cbn [snd] in Hp, Hy.
  unfold transformPositionToVelocityWaypoint, upd_output.
  destruct within, (reached_goal_ w) eqn:Er; cbn; rewrite ?Er; cbn;
    rewrite Hp, Hy; reflexivity.
Qed.

Lemma getPathMsg_velocity (s : WaypointGenerator) :
  let s' := getPathMsg ext s in
  velocity_waypoint (output_ s') =
  mkTwist
    (vsub (position (position_waypoint (output_ s'))) (position (pose_ s)))
    (mkV3 0 0 (getAngularVelocity ext (new_yaw_ s') (curr_yaw_ s))).
Proof.
  cbv zeta. unfold getPathMsg.
  destruct (getPathMsg_target_frame ext s) as (It & _).
  rewrite <- (si_pose It), <- (si_curr_yaw It).
  apply getPathMsg_assemble_velocity.
Qed.

End TickShape.

(** ** What every tick publishes and keeps *)

Section TickOutput.

Variable ext : Externals.

(** What cpp:19-23 keep: everything but the label, the two tick times and
    the count of clock readings. *)
Lemma calculateWaypoint_begin_keeps (s : WaypointGenerator) :
  let b := calculateWaypoint_begin s in
  pose_ b = pose_ s
  /\ curr_yaw_ b = curr_yaw_ s
  /\ last_yaw_ b = last_yaw_ s
  /\ new_yaw_ b = new_yaw_ s
  /\ curr_vel_ b = curr_vel_ s
  /\ planner_info_ b = planner_info_ s
  /\ goal_ b = goal_ s
  /\ last_time_ b = current_time_ s
  /\ current_time_ b = ros_clock s (ros_reads s).
Proof. unfold calculateWaypoint_begin, now; cbn; repeat split; reflexivity. Qed.

Lemma backOff_velocity (b : WaypointGenerator) :
  let b' := backOff ext b in
  velocity_waypoint (output_ b') =
  mkTwist
    (vsub (position (position_waypoint (output_ b'))) (position (pose_ b)))
    (mkV3 0 0 (getAngularVelocity ext (new_yaw_ b') (curr_yaw_ b))).
Proof. reflexivity. Qed.

Lemma dispatch_velocity (b : WaypointGenerator) :
  let b' := dispatch ext b in
  velocity_waypoint (output_ b') =
  mkTwist
    (vsub (position (position_waypoint (output_ b'))) (position (pose_ b)))
    (mkV3 0 0 (getAngularVelocity ext (new_yaw_ b') (curr_yaw_ b))).
Proof.
  cbv zeta.
  destruct (waypoint_choice_eqb (waypoint_type (planner_info_ b)) goBack) eqn:Em.
  - assert (E : waypoint_type (planner_info_ b) = goBack)
      by (destruct (waypoint_type (planner_info_ b)); (reflexivity || discriminate)).
    rewrite (dispatch_goBack ext b E). apply backOff_velocity.
  - assert (N : waypoint_type (planner_info_ b) <> goBack)
      by (intros E; rewrite E in Em; discriminate).
    destruct (dispatch_shape ext b N) as (g & h & n & _ & Hrun).
    cbv zeta in Hrun.
    pose proof (getPathMsg_velocity ext
                  (upd_output (set_goto_position g)
                     (set_hover_position_ h (set_ros_reads n b)))) as Hv.
    cbv zeta in Hv.
    change (pose_ (upd_output (set_goto_position g)
                     (set_hover_position_ h (set_ros_reads n b))))
      with (pose_ b) in Hv.
    change (curr_yaw_ (upd_output (set_goto_position g)
                         (set_hover_position_ h (set_ros_reads n b))))
      with (curr_yaw_ b) in Hv.
    revert Hrun Hv.
    generalize (getPathMsg ext
                  (upd_output (set_goto_position g)
                     (set_hover_position_ h (set_ros_reads n b)))).
    intros p [-> | (_ & ->)] Hv; [exact Hv |].
    exact Hv.
Qed.

(** X1.  On every tick, whatever the mode, the velocity waypoint is the offset
    of the published position waypoint from the vehicle's position; its
    angular part has no roll and no pitch rate, and its yaw rate is
    [getAngularVelocity] of the yaw target left in [new_yaw_] and the current
    yaw. *)
Theorem velocity_waypoint_of_tick (s : WaypointGenerator) :
  let out := fst (getWaypoints ext s) in
  let s' := snd (getWaypoints ext s) in
  linear (velocity_waypoint out)
  = vsub (position (position_waypoint out)) (position (pose_ s))
  /\ angular (velocity_waypoint out)
     = mkV3 0 0 (getAngularVelocity ext (new_yaw_ s') (curr_yaw_ s)).
Proof.
  cbv zeta. rewrite getWaypoints_eq, calculateWaypoint_eq. cbn [fst snd].
  destruct (calculateWaypoint_begin_keeps s) as (Hp & Hy & _).
  cbv zeta in Hp, Hy.
  pose proof (dispatch_velocity (calculateWaypoint_begin s)) as Hv.
  cbv zeta in Hv. rewrite Hp, Hy in Hv.
  revert Hv. generalize (dispatch ext (calculateWaypoint_begin s)). intros d Hv.
  destruct (calculateWaypoint_end_output d) as (Ho & _).
  destruct (calculateWaypoint_end_goal_state d) as (_ & _ & Hn).
  rewrite Ho, Hn, Hv. split; reflexivity.
Qed.

End TickOutput.

Section TickFrame.

Variable ext : Externals.

Lemma mode_goBack_dec (m : waypoint_choice) : m = goBack \/ m <> goBack.
Proof. destruct m; (left; reflexivity) || (right; discriminate). Qed.

(** What no handler assigns. *)
Lemma dispatch_keeps (b : WaypointGenerator) :
  let b' := dispatch ext b in
  planner_info_ b' = planner_info_ b
  /\ param_ b' = param_ b
  /\ pose_ b' = pose_ b
  /\ curr_vel_ b' = curr_vel_ b
  /\ goal_ b' = goal_ b
  /\ curr_yaw_ b' = curr_yaw_ b
  /\ curr_vel_magnitude_ b' = curr_vel_magnitude_ b
  /\ update_time_ b' = update_time_ b
  /\ z_FOV_idx_ b' = z_FOV_idx_ b
  /\ max_jerk_limit_param_ b' = max_jerk_limit_param_ b
  /\ min_jerk_limit_param_ b' = min_jerk_limit_param_ b
  /\ current_time_ b' = current_time_ b
  /\ last_time_ b' = last_time_ b
  /\ ros_clock b' = ros_clock b.
Proof.
  cbv zeta.
  destruct (mode_goBack_dec (waypoint_type (planner_info_ b))) as [E | N].
  - rewrite (dispatch_goBack ext b E). repeat split; reflexivity.
  - destruct (dispatch_shape ext b N) as (g & h & n & _ & Hrun).
    cbv zeta in Hrun.
    destruct (getPathMsg_frame ext
                (upd_output (set_goto_position g)
                   (set_hover_position_ h (set_ros_reads n b)))) as (I & _).
    revert Hrun I.
    generalize (getPathMsg ext
                  (upd_output (set_goto_position g)
                     (set_hover_position_ h (set_ros_reads n b)))).
    intros p Hrun I.
    assert (K : planner_info_ p = planner_info_ b
                /\ param_ p = param_ b
                /\ pose_ p = pose_ b
                /\ curr_vel_ p = curr_vel_ b
                /\ goal_ p = goal_ b
                /\ curr_yaw_ p = curr_yaw_ b
                /\ curr_vel_magnitude_ p = curr_vel_magnitude_ b
                /\ update_time_ p = update_time_ b
                /\ z_FOV_idx_ p = z_FOV_idx_ b
                /\ max_jerk_limit_param_ p = max_jerk_limit_param_ b
                /\ min_jerk_limit_param_ p = min_jerk_limit_param_ b
                /\ current_time_ p = current_time_ b
                /\ last_time_ p = last_time_ b
                /\ ros_clock p = ros_clock b).
    { split; [exact (si_planner_info I) |]. split; [exact (si_param I) |].
      split; [exact (si_pose I) |]. split; [exact (si_curr_vel I) |].
      split; [exact (si_goal I) |]. split; [exact (si_curr_yaw I) |].
      split; [exact (si_curr_vel_magnitude I) |].
      split; [exact (si_update_time I) |]. split; [exact (si_z_FOV_idx I) |].
      split; [exact (si_max_jerk I) |]. split; [exact (si_min_jerk I) |].
      split; [exact (si_current_time I) |]. split; [exact (si_last_time I) |].
      exact (si_ros_clock I). }
    destruct Hrun as [-> | (_ & ->)]; exact K.
Qed.

Lemma calculateWaypoint_begin_inputs (s : WaypointGenerator) :
  let b := calculateWaypoint_begin s in
  param_ b = param_ s
  /\ curr_vel_magnitude_ b = curr_vel_magnitude_ s
  /\ update_time_ b = update_time_ s
  /\ z_FOV_idx_ b = z_FOV_idx_ s
  /\ max_jerk_limit_param_ b = max_jerk_limit_param_ s
  /\ min_jerk_limit_param_ b = min_jerk_limit_param_ s
  /\ ros_clock b = ros_clock s.
Proof. unfold calculateWaypoint_begin, now; cbn; repeat split; reflexivity. Qed.

Lemma calculateWaypoint_end_keeps (d : WaypointGenerator) :
  let e := calculateWaypoint_end d in
  planner_info_ e = planner_info_ d
  /\ param_ e = param_ d
  /\ pose_ e = pose_ d
  /\ curr_vel_ e = curr_vel_ d
  /\ goal_ e = goal_ d
  /\ curr_yaw_ e = curr_yaw_ d
  /\ curr_vel_magnitude_ e = curr_vel_magnitude_ d
  /\ update_time_ e = update_time_ d
  /\ z_FOV_idx_ e = z_FOV_idx_ d
  /\ max_jerk_limit_param_ e = max_jerk_limit_param_ d
  /\ min_jerk_limit_param_ e = min_jerk_limit_param_ d
  /\ current_time_ e = current_time_ d
  /\ last_time_ e = last_time_ d
  /\ ros_clock e = ros_clock d.
Proof. unfold calculateWaypoint_end; cbn; repeat split; reflexivity. Qed.

Lemma calculateWaypoint_end_remembers (d : WaypointGenerator) :
  let e := calculateWaypoint_end d in
  last_wp_type_ e = waypoint_type (planner_info_ d)
  /\ last_position_waypoint_ e = position_waypoint (output_ d)
  /\ last_yaw_ e = curr_yaw_ d
  /\ last_velocity_ e = mkV2 (x (linear (curr_vel_ d))) (y (linear (curr_vel_ d))).
Proof. unfold calculateWaypoint_end; cbn; repeat split; reflexivity. Qed.

Lemma calculateWaypoint_keeps (s : WaypointGenerator) :
  let s' := calculateWaypoint ext s in
  planner_info_ s' = planner_info_ s
  /\ param_ s' = param_ s
  /\ pose_ s' = pose_ s
  /\ curr_vel_ s' = curr_vel_ s
  /\ goal_ s' = goal_ s
  /\ curr_yaw_ s' = curr_yaw_ s
  /\ curr_vel_magnitude_ s' = curr_vel_magnitude_ s
  /\ update_time_ s' = update_time_ s
  /\ z_FOV_idx_ s' = z_FOV_idx_ s
  /\ max_jerk_limit_param_ s' = max_jerk_limit_param_ s
  /\ min_jerk_limit_param_ s' = min_jerk_limit_param_ s.
Proof.
  cbv zeta. rewrite calculateWaypoint_eq.
  destruct (calculateWaypoint_begin_keeps s)
    as (B3 & B6 & _ & _ & B4 & B1 & B5 & _ & _).
  destruct (calculateWaypoint_begin_inputs s)
    as (B2 & B7 & B8 & B9 & B10 & B11 & _).
  cbv zeta in *.
  destruct (dispatch_keeps (calculateWaypoint_begin s))
    as (D1 & D2 & D3 & D4 & D5 & D6 & D7 & D8 & D9 & D10 & D11 & _).
  cbv zeta in *.
  revert D1 D2 D3 D4 D5 D6 D7 D8 D9 D10 D11.
  generalize (dispatch ext (calculateWaypoint_begin s)).
  intros d D1 D2 D3 D4 D5 D6 D7 D8 D9 D10 D11.
  destruct (calculateWaypoint_end_keeps d)
    as (E1 & E2 & E3 & E4 & E5 & E6 & E7 & E8 & E9 & E10 & E11 & _).
  cbv zeta in *.
  repeat split; congruence.
Qed.

Lemma calculateWaypoint_remembers (s : WaypointGenerator) :
  let s' := calculateWaypoint ext s in
  last_wp_type_ s' = waypoint_type (planner_info_ s)
  /\ last_position_waypoint_ s' = position_waypoint (output_ s')
  /\ last_yaw_ s' = curr_yaw_ s
  /\ last_velocity_ s' = mkV2 (x (linear (curr_vel_ s))) (y (linear (curr_vel_ s)))
  /\ last_time_ s' = current_time_ s
  /\ current_time_ s' = ros_clock s (ros_reads s).
Proof.
  cbv zeta. rewrite calculateWaypoint_eq.
  destruct (calculateWaypoint_begin_keeps s)
    as (_ & B6 & _ & _ & B4 & B1 & _ & Bl & Bc).
  cbv zeta in *.
  destruct (dispatch_keeps (calculateWaypoint_begin s))
    as (D1 & _ & _ & D4 & _ & D6 & _ & _ & _ & _ & _ & Dc & Dl & _).
  cbv zeta in *.
  revert D1 D4 D6 Dc Dl.
  generalize (dispatch ext (calculateWaypoint_begin s)).
  intros d D1 D4 D6 Dc Dl.
  destruct (calculateWaypoint_end_keeps d)
    as (_ & _ & _ & _ & _ & _ & _ & _ & _ & _ & _ & Ec & El & _).
  destruct (calculateWaypoint_end_remembers d) as (R1 & R2 & R3 & R4).
  destruct (calculateWaypoint_end_output d) as (Ho & _).
  cbv zeta in *.
  rewrite Ho. repeat split; congruence.
Qed.

(** X2.  A tick reads the vehicle state, the directive and the configuration
    and never writes them: what [updateState], [setPlannerInfo] and the
    parameters left in the generator is still there after [getWaypoints], in
    every mode. *)
Theorem tick_keeps_inputs (s : WaypointGenerator) :
  let s' := snd (getWaypoints ext s) in
  planner_info_ s' = planner_info_ s
  /\ param_ s' = param_ s
  /\ pose_ s' = pose_ s
  /\ curr_vel_ s' = curr_vel_ s
  /\ goal_ s' = goal_ s
  /\ curr_yaw_ s' = curr_yaw_ s
  /\ curr_vel_magnitude_ s' = curr_vel_magnitude_ s
  /\ update_time_ s' = update_time_ s
  /\ z_FOV_idx_ s' = z_FOV_idx_ s
  /\ max_jerk_limit_param_ s' = max_jerk_limit_param_ s
  /\ min_jerk_limit_param_ s' = min_jerk_limit_param_ s.
Proof.
  cbv zeta. rewrite getWaypoints_eq. cbn [snd]. exact (calculateWaypoint_keeps s).
Qed.

(** X3.  What a tick leaves for the next one: the mode it ran in, the position
    waypoint it published (the smoother's starting point), the current yaw and
    horizontal velocity, and the two tick times, the older of which is the
    previous tick's clock reading. *)
Theorem tick_remembers (s : WaypointGenerator) :
  let out := fst (getWaypoints ext s) in
  let s' := snd (getWaypoints ext s) in
  last_wp_type_ s' = waypoint_type (planner_info_ s)
  /\ last_position_waypoint_ s' = position_waypoint out
  /\ last_yaw_ s' = curr_yaw_ s
  /\ last_velocity_ s' = mkV2 (x (linear (curr_vel_ s))) (y (linear (curr_vel_ s)))
  /\ last_time_ s' = current_time_ s
  /\ current_time_ s' = ros_clock s (ros_reads s).
Proof.
  cbv zeta. rewrite getWaypoints_eq. cbn [fst snd].
  exact (calculateWaypoint_remembers s).
Qed.

Lemma tryPath_use_tree_begin (s : WaypointGenerator) :
  tryPath_use_tree ext (calculateWaypoint_begin s)
    (ros_clock (calculateWaypoint_begin s) (ros_reads (calculateWaypoint_begin s)))
  = tryPath_use_tree ext s (ros_clock s (S (ros_reads s))).
Proof.
  destruct (calculateWaypoint_begin_fields s)
    as (Bpi & Bpose & Bgoal & _ & _ & Bclk & Breads & _).
  cbv zeta in Bpi, Bpose, Bgoal, Bclk, Breads.
  unfold tryPath_use_tree. rewrite Bpi, Bpose, Bgoal, Bclk, Breads. reflexivity.
Qed.

(** X4.  The label of the output is the directive's mode in every mode but
    [tryPath].  In [tryPath] mode it is [tryPath] when the test of cpp:54-55
    lets the tree's direction through (at the clock reading the tick takes
    for that test) and [direct] when the tick falls back to [goFast]. *)
Theorem tick_label (s : WaypointGenerator) :
  result_waypoint_type (fst (getWaypoints ext s)) =
  match waypoint_type (planner_info_ s) with
  | tryPath =>
      if tryPath_use_tree ext s (ros_clock s (S (ros_reads s)))
      then tryPath else direct
  | mode => mode
  end.
Proof.
  rewrite getWaypoints_eq, calculateWaypoint_eq. cbn [fst].
  destruct (calculateWaypoint_begin_fields s)
    as (B1 & _ & _ & _ & _ & _ & _ & Bl).
  cbv zeta in B1, Bl.
  destruct (calculateWaypoint_end_output (dispatch ext (calculateWaypoint_begin s)))
    as (Ho & _).
  rewrite Ho. clear Ho.
  pose proof (tryPath_use_tree_begin s) as Hu.
  rewrite <- Hu. clear Hu.
  rewrite <- B1 in Bl |- *.
  revert Bl. generalize (calculateWaypoint_begin s). intros b Bl.
  assert (Hkeep : forall u,
             result_waypoint_type (output_ u) = result_waypoint_type (output_ b) ->
             result_waypoint_type (output_ (getPathMsg ext u))
             = waypoint_type (planner_info_ b)).
  { intros u Hu. destruct (getPathMsg_frame ext u) as (I & _).
    rewrite (si_result_type I), Hu. exact Bl. }
  destruct (waypoint_choice_eqb (waypoint_type (planner_info_ b)) tryPath) eqn:Et.
  - assert (Em : waypoint_type (planner_info_ b) = tryPath)
      by (destruct (waypoint_type (planner_info_ b)); try discriminate; reflexivity).
    rewrite (dispatch_tryPath ext b Em). rewrite Em in Hkeep |- *.
    destruct (tryPath_use_tree ext b (ros_clock b (ros_reads b))).
    + apply Hkeep. reflexivity.
    + reflexivity.
  - destruct (mode_goBack_dec (waypoint_type (planner_info_ b))) as [E | N].
    + rewrite (dispatch_goBack ext b E), E. rewrite E in Bl. exact Bl.
    + destruct (dispatch_shape ext b N) as (g & h & n & _ & Hrun).
      cbv zeta in Hrun.
      destruct Hrun as [-> | (Em & _)].
      * rewrite Hkeep by reflexivity.
        destruct (waypoint_type (planner_info_ b)); try discriminate; reflexivity.
      * rewrite Em in Et. discriminate.
Qed.

End TickFrame.

(** ** Holding in place *)

Section HoverLatch.

Variable ext : Externals.

(** A hover tick after a hover tick keeps the stored hover position. *)
Lemma hover_again (act_pose goal : PoseStamped) (vel : Twist) (t : RosTime)
  (s2 : WaypointGenerator) :
  last_wp_type_ s2 = hover ->
  let s3 := updateState ext act_pose goal vel true t s2 in
  hover_position_ (snd (getWaypoints ext s3)) = hover_position_ s2
  /\ (reach_altitude (planner_info_ s2) = true ->
      goto_position (fst (getWaypoints ext s3)) = toPoint (hover_position_ s2)).
Proof.
  intros Hl. cbv zeta.
  destruct (updateState_fields ext act_pose goal vel true t s2)
    as (U1 & _ & _ & U4 & U5 & _).
  cbv zeta in U1, U4, U5.
  revert U1 U4 U5. generalize (updateState ext act_pose goal vel true t s2).
  intros s3 U1 U4 U5.
  assert (Hm3 : waypoint_type (planner_info_ s3) = hover) by (rewrite U1; reflexivity).
  assert (Ha3 : reach_altitude (planner_info_ s3) = reach_altitude (planner_info_ s2))
    by (rewrite U1; reflexivity).
  destruct (hover_tick ext s3 Hm3) as (_ & _ & H3 & G3). cbv zeta in H3, G3.
  rewrite U4, Hl, U5 in H3, G3. cbn [waypoint_choice_eqb] in H3, G3.
  split; [exact H3 |].
  intros Ha. apply G3. rewrite Ha3. exact Ha.
Qed.

(** X5.  Holding in place over two ticks. After a tick in [hover] mode, a
    state update that asks to hold again, with whatever new pose, and a second
    tick leave the hover position where the first tick put it: the vehicle is
    sent back to the place where the hold began (the stored position if the
    tick before was a hover tick already, the position at the first tick
    otherwise), not to where it has drifted. *)
Theorem hover_position_latched (act_pose goal : PoseStamped) (vel : Twist)
  (t : RosTime) (s1 : WaypointGenerator) :
  waypoint_type (planner_info_ s1) = hover ->
  let s2 := snd (getWaypoints ext s1) in
  let s3 := updateState ext act_pose goal vel true t s2 in
  let out := fst (getWaypoints ext s3) in
  hover_position_ s2 =
    (if waypoint_choice_eqb (last_wp_type_ s1) hover
     then hover_position_ s1 else toEigen (position (pose_ s1)))
  /\ hover_position_ (snd (getWaypoints ext s3)) = hover_position_ s2
  /\ (reach_altitude (planner_info_ s1) = true ->
      goto_position out = toPoint (hover_position_ s2)).
Proof.
  intros Hmode. cbv zeta.
  destruct (hover_tick ext s1 Hmode) as (_ & _ & H2 & _). cbv zeta in H2.
  pose proof (proj1 (calculateWaypoint_remembers ext s1)) as Hl.
  pose proof (proj1 (calculateWaypoint_keeps ext s1)) as Hi.
  cbv zeta in Hl, Hi. rewrite Hmode in Hl.
  revert H2. rewrite (getWaypoints_eq ext s1). cbn [snd].
  revert Hl Hi. generalize (calculateWaypoint ext s1). intros s2 Hl Hi H2.
  destruct (hover_again act_pose goal vel t s2 Hl) as (H3 & G3).
  cbv zeta in H3, G3. rewrite Hi in G3.
  split; [exact H2 |]. split; [exact H3 | exact G3].
Qed.

End HoverLatch.

(** X5 at work: the hold began at (1,2,3); the vehicle has drifted to (4,5,6)
    by the second tick and is sent back to (1,2,3). *)
Lemma hover_position_latched_example :
  waypoint_type (planner_info_ hold_start) = hover
  /\ goto_position
       (fst (getWaypoints example_externals
               (updateState example_externals (pose_at (mkV3 4 5 6)) (pose_at origin)
                  at_rest true 0%Z
                  (snd (getWaypoints example_externals hold_start)))))
     = mkV3 1 2 3.
Proof.
  destruct (hover_position_latched example_externals (pose_at (mkV3 4 5 6))
              (pose_at origin) at_rest 0%Z hold_start eq_refl) as (H1 & _ & H3).
  cbv zeta in H1, H3.
  split; [reflexivity |]. rewrite (H3 eq_refl), H1. reflexivity.
Defined.

(** ** The target stage of [getPathMsg]: climbing and cruising *)

Section TargetStage.

Variable ext : Externals.

Lemma adaptSpeed_new_yaw (s : WaypointGenerator) :
  new_yaw_ (adaptSpeed ext s) = new_yaw_ s.
Proof.
  unfold adaptSpeed.
  transitivity (new_yaw_ (adaptSpeed_envelope ext s));
    [| unfold adaptSpeed_envelope, now; split_ifs; reflexivity].
  generalize (adaptSpeed_envelope ext s). intros e.
  transitivity (new_yaw_ (adaptSpeed_FOV ext e));
    [| unfold adaptSpeed_FOV, now; split_ifs; reflexivity].
  generalize (adaptSpeed_FOV ext e). intros f.
  transitivity (new_yaw_ (adaptSpeed_delay f)); [| reflexivity].
  generalize (adaptSpeed_delay f). intros d.
  transitivity (new_yaw_ (adaptSpeed_closeToGoal d));
    [reflexivity | unfold adaptSpeed_closeToGoal; split_ifs; reflexivity].
Qed.

(** The step of cpp:203-206 has the vertical part 0.5, so it is longer than
    0.01 and is always normalized. *)
Lemma climb_step_long (a b : R) : Rgtb (norm (mkV3 a b 0.5)) 0.01 = true.
Proof.
  unfold Rgtb. apply Rltb_true.
  assert (H : 0.5 <= norm (mkV3 a b 0.5)).
  { unfold norm. rewrite <- (sqrt_square 0.5) at 1 by lra.
    apply sqrt_le_1; [lra | apply squaredNorm_nonneg |].
    unfold squaredNorm; cbn.
    pose proof (Rle_0_sqr a) as Ha. pose proof (Rle_0_sqr b) as Hb.
    unfold Rsqr in Ha, Hb. lra. }
  lra.
Qed.

Lemma climb_step_pos (a b : R) : 0 < squaredNorm (mkV3 a b 0.5).
Proof.
  unfold squaredNorm; cbn.
  pose proof (Rle_0_sqr a) as Ha. pose proof (Rle_0_sqr b) as Hb.
  unfold Rsqr in Ha, Hb. lra.
Qed.

(** cpp:191-211 *)
Lemma reachGoalAltitudeFirst_goto (t : WaypointGenerator) :
  let pos := position (pose_ t) in
  let off := position (offboard_pose (planner_info_ t)) in
  let diff := cwiseAbs (vsub (goal_ t) (toEigen pos)) in
  goto_position (output_ (reachGoalAltitudeFirst t)) =
    toPoint (vadd (toEigen pos)
               (vscale (min_speed (planner_info_ t))
                  (normalized (mkV3 (x off - x pos) (y off - y pos) 0.5))))
  /\ new_yaw_ (reachGoalAltitudeFirst t) =
     (if Rltb (x diff) 1 && Rltb (y diff) 1 then curr_yaw_ t else new_yaw_ t).
Proof.
  cbv zeta. unfold reachGoalAltitudeFirst, upd_output.
  cbn [output_ set_output_ goto_position set_goto_position pose_ planner_info_
         goal_ x y z].
  assert (E : vsub
                (toEigen
                   (mkV3 (x (position (offboard_pose (planner_info_ t))))
                      (y (position (offboard_pose (planner_info_ t))))
                      (z (position (pose_ t)) + 0.5)))
                (toEigen (position (pose_ t)))
              = mkV3 (x (position (offboard_pose (planner_info_ t)))
                      - x (position (pose_ t)))
                     (y (position (offboard_pose (planner_info_ t)))
                      - y (position (pose_ t))) 0.5)
    by (apply vector3f_eq; unfold vsub, toEigen; cbn [x y z]; lra).
  destruct (Rltb _ 1 && Rltb _ 1);
    cbn [output_ set_output_ goto_position set_goto_position pose_ planner_info_
           goal_ set_new_yaw_ new_yaw_ curr_yaw_ x y z];
    rewrite E, climb_step_long; split; reflexivity.
Qed.


(** The state [getPathMsg] has reached at cpp:354, before it either climbs
    or smooths. *)
Lemma adapted_stage_frame (u : WaypointGenerator) :
  let t :=
    upd_output (fun o => set_smoothed_goto_position (adapted_goto_position o) o)
      (adaptSpeed ext
         (set_new_yaw_ (nextYaw ext (pose_ u) (goto_position (output_ u)))
            (upd_output (fun o => set_adapted_goto_position (goto_position o) o) u))) in
  same_inputs u t
  /\ new_yaw_ t = nextYaw ext (pose_ u) (goto_position (output_ u)).
Proof.
  cbv zeta.
  destruct (upd_adapted_frame goto_position u) as [I0 _]. cbv zeta in I0.
  destruct (set_new_yaw_frame (nextYaw ext (pose_ u) (goto_position (output_ u)))
              (upd_output (fun o => set_adapted_goto_position (goto_position o) o) u))
    as [I1 _].
  pose proof (adaptSpeed_new_yaw
                (set_new_yaw_ (nextYaw ext (pose_ u) (goto_position (output_ u)))
                   (upd_output (fun o => set_adapted_goto_position (goto_position o) o) u)))
    as Hy.
  destruct (adaptSpeed_frame ext
              (set_new_yaw_ (nextYaw ext (pose_ u) (goto_position (output_ u)))
                 (upd_output (fun o => set_adapted_goto_position (goto_position o) o) u)))
    as [I2 _].
  revert Hy I2.
  generalize (adaptSpeed ext
                (set_new_yaw_ (nextYaw ext (pose_ u) (goto_position (output_ u)))
                   (upd_output (fun o => set_adapted_goto_position (goto_position o) o) u))).
  intros a Hy I2.
  destruct (upd_smoothed_frame adapted_goto_position a) as [I3 _]. cbv zeta in I3.
  split.
  - exact (same_inputs_trans _ _ _ I0 (same_inputs_trans _ _ _ I1
             (same_inputs_trans _ _ _ I2 I3))).
  - exact Hy.
Qed.

(** Below the target altitude [getPathMsg] climbs instead of smoothing. *)
Lemma getPathMsg_target_climbs (s : WaypointGenerator) :
  reach_altitude (planner_info_ s) = false ->
  getPathMsg_target ext s =
  upd_output (fun o => set_smoothed_goto_position (goto_position o) o)
    (upd_output (fun o => set_adapted_goto_position (goto_position o) o)
       (reachGoalAltitudeFirst
          (upd_output (fun o => set_smoothed_goto_position (adapted_goto_position o) o)
             (adaptSpeed ext
                (set_new_yaw_ (nextYaw ext (pose_ s) (goto_position (output_ s)))
                   (upd_output (fun o => set_adapted_goto_position (goto_position o) o)
                      s)))))).
Proof.
  intros H. unfold getPathMsg_target.
  match goal with
  | |- context [negb (reach_altitude (planner_info_ (upd_output ?f (adaptSpeed ext ?u))))] =>
      destruct (adaptSpeed_frame ext u) as [Iu _];
      destruct (upd_smoothed_frame adapted_goto_position (adaptSpeed ext u)) as [Iv _];
      cbv zeta in Iv;
      replace (planner_info_ (upd_output f (adaptSpeed ext u))) with (planner_info_ s)
        by (rewrite (si_planner_info Iv), (si_planner_info Iu); reflexivity)
  end.
  rewrite H. reflexivity.
Qed.

Lemma getPathMsg_target_climb (u : WaypointGenerator) :
  reach_altitude (planner_info_ u) = false ->
  let pos := position (pose_ u) in
  let off := position (offboard_pose (planner_info_ u)) in
  let diff := cwiseAbs (vsub (goal_ u) (toEigen pos)) in
  let t := getPathMsg_target ext u in
  goto_position (output_ t) =
    toPoint (vadd (toEigen pos)
               (vscale (min_speed (planner_info_ u))
                  (normalized (mkV3 (x off - x pos) (y off - y pos) 0.5))))
  /\ adapted_goto_position (output_ t) = goto_position (output_ t)
  /\ smoothed_goto_position (output_ t) = goto_position (output_ t)
  /\ new_yaw_ t =
     (if Rltb (x diff) 1 && Rltb (y diff) 1 then curr_yaw_ u
      else nextYaw ext (pose_ u) (goto_position (output_ u))).
Proof.
  intros H. cbv zeta. rewrite (getPathMsg_target_climbs u H).
  destruct (adapted_stage_frame u) as (I & Hy). cbv zeta in I, Hy.
  revert I Hy.
  generalize (upd_output (fun o => set_smoothed_goto_position (adapted_goto_position o) o)
                (adaptSpeed ext
                   (set_new_yaw_ (nextYaw ext (pose_ u) (goto_position (output_ u)))
                      (upd_output (fun o => set_adapted_goto_position (goto_position o) o)
                         u)))).
  intros t I Hy.
  destruct (reachGoalAltitudeFirst_goto t) as (Hg & Hn). cbv zeta in Hg, Hn.
  rewrite (si_pose I), (si_planner_info I) in Hg.
  rewrite (si_pose I), (si_goal I), (si_curr_yaw I), Hy in Hn.
  revert Hg Hn. generalize (reachGoalAltitudeFirst t). intros r Hg Hn.
  split; [exact Hg |]. split; [reflexivity |]. split; [reflexivity |]. exact Hn.
Qed.

Lemma getPathMsg_target_cruise (u : WaypointGenerator) :
  reach_altitude (planner_info_ u) = true ->
  new_yaw_ (getPathMsg_target ext u) = nextYaw ext (pose_ u) (goto_position (output_ u)).
Proof.
  intros H. rewrite (getPathMsg_target_smooths ext u H).
  destruct (adapted_stage_frame u) as (_ & Hy). cbv zeta in Hy.
  revert Hy.
  generalize (upd_output (fun o => set_smoothed_goto_position (adapted_goto_position o) o)
                (adaptSpeed ext
                   (set_new_yaw_ (nextYaw ext (pose_ u) (goto_position (output_ u)))
                      (upd_output (fun o => set_adapted_goto_position (goto_position o) o)
                         u)))).
  intros t Hy. exact Hy.
Qed.

Lemma getPathMsg_assemble_adapted (t : WaypointGenerator) :
  adapted_goto_position (output_ (getPathMsg_assemble ext t))
  = adapted_goto_position (output_ t).
Proof.
  unfold getPathMsg_assemble.
  destruct (withinGoalRadius_frame ext t) as (_ & Ho & _).
  destruct (withinGoalRadius ext t) as [within w]. cbn [snd] in Ho.
  unfold transformPositionToVelocityWaypoint, upd_output.
  destruct within, (reached_goal_ w) eqn:Er; cbn; rewrite ?Er; cbn; rewrite Ho;
    reflexivity.
Qed.

(** [getPathMsg] below the target altitude. *)
Lemma getPathMsg_climb (u : WaypointGenerator) :
  reach_altitude (planner_info_ u) = false ->
  let pos := position (pose_ u) in
  let off := position (offboard_pose (planner_info_ u)) in
  let diff := cwiseAbs (vsub (goal_ u) (toEigen pos)) in
  let p := getPathMsg ext u in
  goto_position (output_ p) =
    toPoint (vadd (toEigen pos)
               (vscale (min_speed (planner_info_ u))
                  (normalized (mkV3 (x off - x pos) (y off - y pos) 0.5))))
  /\ adapted_goto_position (output_ p) = goto_position (output_ p)
  /\ (reached_goal_ p = false ->
      smoothed_goto_position (output_ p) = goto_position (output_ p)
      /\ new_yaw_ p =
         (if Rltb (x diff) 1 && Rltb (y diff) 1 then curr_yaw_ u
          else nextYaw ext (pose_ u) (goto_position (output_ u))))
  /\ position_waypoint (output_ p) =
     createPoseMsg ext (smoothed_goto_position (output_ p)) (new_yaw_ p).
Proof.
  intros H. cbv zeta. unfold getPathMsg.
  destruct (getPathMsg_target_climb u H) as (Hg & Ha & Hs & Hn).
  cbv zeta in Hg, Ha, Hs, Hn.
  pose proof (getPathMsg_assemble_adapted (getPathMsg_target ext u)) as Aa.
  destruct (getPathMsg_assemble_spec ext (getPathMsg_target ext u))
    as (_ & Ar & _ & Ag & As & An & Ap).
  cbv zeta in Ar, Ag, As, An, Ap.
  revert Hg Ha Hs Hn Aa Ar Ag As An Ap.
  generalize (getPathMsg_target ext u). intros t Hg Ha Hs Hn Aa Ar Ag As An Ap.
  rewrite <- Ar in As, An.
  revert Aa Ar Ag As An Ap.
  generalize (getPathMsg_assemble ext t). intros p Aa Ar Ag As An Ap.
  split; [rewrite Ag; exact Hg |]. split; [rewrite Aa, Ag; exact Ha |].
  split; [| exact Ap].
  intros Hr. rewrite Hr in As, An.
  split; [rewrite As, Ag; exact Hs | rewrite An; exact Hn].
Qed.

(** [getPathMsg] at the target altitude. *)
Lemma getPathMsg_cruise (u : WaypointGenerator) :
  reach_altitude (planner_info_ u) = true ->
  let p := getPathMsg ext u in
  goto_position (output_ p) = goto_position (output_ u)
  /\ (reached_goal_ p = false ->
      new_yaw_ p = nextYaw ext (pose_ u) (goto_position (output_ u)))
  /\ position_waypoint (output_ p) =
     createPoseMsg ext (smoothed_goto_position (output_ p)) (new_yaw_ p).
Proof.
  intros H. cbv zeta.
  split; [exact (proj2 (getPathMsg_frame ext u) H) |].
  unfold getPathMsg.
  pose proof (getPathMsg_target_cruise u H) as Hn.
  destruct (getPathMsg_assemble_spec ext (getPathMsg_target ext u))
    as (_ & Ar & _ & _ & _ & An & Ap).
  cbv zeta in Ar, An, Ap.
  revert Hn Ar An Ap.
  generalize (getPathMsg_target ext u). intros t Hn Ar An Ap.
  rewrite <- Ar in An.
  revert An Ap. generalize (getPathMsg_assemble ext t). intros p An Ap.
  split; [| exact Ap].
  intros Hr. rewrite Hr in An. rewrite An. exact Hn.
Qed.

End TargetStage.

(** ** Ticks that run [getPathMsg] *)

Section TickTarget.

Variable ext : Externals.

(** In every mode but [goBack] the tick is a run of [getPathMsg] on a state
    [u] that has the vehicle state, the directive and the flags of the
    state the tick starts in; what the tick publishes and leaves in the
    flags is what that run computes. *)
Lemma tick_via_getPathMsg (s : WaypointGenerator) :
  waypoint_type (planner_info_ s) <> goBack ->
  exists u,
    (pose_ u = pose_ s /\ planner_info_ u = planner_info_ s
     /\ goal_ u = goal_ s /\ curr_yaw_ u = curr_yaw_ s)
    /\ (let p := getPathMsg ext u in
        let s' := calculateWaypoint ext s in
        goto_position (output_ s') = goto_position (output_ p)
        /\ adapted_goto_position (output_ s') = adapted_goto_position (output_ p)
        /\ smoothed_goto_position (output_ s') = smoothed_goto_position (output_ p)
        /\ position_waypoint (output_ s') = position_waypoint (output_ p)
        /\ new_yaw_ s' = new_yaw_ p
        /\ reached_goal_ s' = reached_goal_ p).
Proof.
  intros Hmode. rewrite calculateWaypoint_eq.
  destruct (calculateWaypoint_begin_keeps s)
    as (Bp & By & _ & _ & _ & Bi & Bg & _ & _).
  cbv zeta in Bp, By, Bi, Bg.
  rewrite <- Bi in Hmode. rewrite <- Bp, <- By, <- Bi, <- Bg.
  clear Bp By Bi Bg. revert Hmode. generalize (calculateWaypoint_begin s).
  intros b Hmode.
  destruct (dispatch_shape ext b Hmode) as (g & h & n & _ & Hrun).
  cbv zeta in Hrun.
  exists (upd_output (set_goto_position g) (set_hover_position_ h (set_ros_reads n b))).
  split; [repeat split; reflexivity |]. cbv zeta.
  revert Hrun.
  generalize (getPathMsg ext
                (upd_output (set_goto_position g)
                   (set_hover_position_ h (set_ros_reads n b)))).
  intros p Hrun.
  destruct (calculateWaypoint_end_output (dispatch ext b)) as (Ho & _).
  destruct (calculateWaypoint_end_goal_state (dispatch ext b)) as (Hr & _ & Hn).
  rewrite Ho, Hr, Hn.
  destruct Hrun as [-> | (_ & ->)]; repeat split; reflexivity.
Qed.

Lemma getPathMsg_reached (u : WaypointGenerator) :
  reached_goal_ (getPathMsg ext u) =
  (if Rltb (sqrd_dist_to_goal u) (sqrd_radius_in u) then true
   else if Rgtb (sqrd_dist_to_goal u) (sqrd_radius_out u) then false
   else reached_goal_ u).
Proof.
  unfold getPathMsg.
  destruct (getPathMsg_target_frame ext u) as (I & Hr & _).
  destruct (getPathMsg_assemble_spec ext (getPathMsg_target ext u)) as (_ & Ar & _).
  cbv zeta in Ar. rewrite Ar.
  destruct (withinGoalRadius_flag ext (getPathMsg_target ext u)) as (_ & Hf & _).
  rewrite Hf, Hr.
  unfold sqrd_dist_to_goal, sqrd_radius_in, sqrd_radius_out.
  rewrite (si_goal I), (si_pose I), (si_param I). reflexivity.
Qed.

(** The goal flag after a tick that runs [getPathMsg]. *)
Lemma calculateWaypoint_reached (s : WaypointGenerator) :
  waypoint_type (planner_info_ s) <> goBack ->
  reached_goal_ (calculateWaypoint ext s) =
  (if Rltb (sqrd_dist_to_goal s) (sqrd_radius_in s) then true
   else if Rgtb (sqrd_dist_to_goal s) (sqrd_radius_out s) then false
   else reached_goal_ s).
Proof.
  intros Hmode. rewrite calculateWaypoint_eq.
  destruct (calculateWaypoint_end_goal_state (dispatch ext (calculateWaypoint_begin s)))
    as (Hr & _).
  rewrite Hr.
  destruct (calculateWaypoint_begin_keeps s)
    as (Bp & _ & _ & _ & _ & Bi & Bg & _ & _).
  destruct (calculateWaypoint_begin_goal_state s) as (Ba & Br & _).
  cbv zeta in Bp, Bi, Bg.
  unfold sqrd_dist_to_goal, sqrd_radius_in, sqrd_radius_out.
  rewrite <- Bi in Hmode. rewrite <- Bp, <- Bg, <- Ba, <- Br.
  clear Bp Bi Bg Ba Br Hr. revert Hmode. generalize (calculateWaypoint_begin s).
  intros b Hmode.
  destruct (dispatch_shape ext b Hmode) as (g & h & n & _ & Hrun).
  cbv zeta in Hrun.
  pose proof (getPathMsg_reached
                (upd_output (set_goto_position g)
                   (set_hover_position_ h (set_ros_reads n b)))) as Hu.
  unfold sqrd_dist_to_goal, sqrd_radius_in, sqrd_radius_out in Hu.
  revert Hrun Hu.
  generalize (getPathMsg ext
                (upd_output (set_goto_position g)
                   (set_hover_position_ h (set_ros_reads n b)))).
  intros p [-> | (_ & ->)] Hu; exact Hu.
Qed.

(** X6.  Climbing. Below the target altitude, in every mode but [goBack], the
    goal point of the tick does not depend on the handler's raw goal point: it
    lies [min_speed] along the unit vector that points from the vehicle to the
    offboard position horizontally and 0.5 upward, so its distance from the
    vehicle is the magnitude of [min_speed] and, for a positive [min_speed],
    it lies above the vehicle. The adapted goal point is this point, and so is
    the smoothed one unless the goal is reached: the smoother is not run. *)
Theorem climb_step (s : WaypointGenerator) :
  waypoint_type (planner_info_ s) <> goBack ->
  reach_altitude (planner_info_ s) = false ->
  let pos := toEigen (position (pose_ s)) in
  let off := position (offboard_pose (planner_info_ s)) in
  let up := mkV3 (x off - x pos) (y off - y pos) 0.5 in
  let out := fst (getWaypoints ext s) in
  let s' := snd (getWaypoints ext s) in
  goto_position out =
    toPoint (vadd pos (vscale (min_speed (planner_info_ s)) (vdiv up (norm up))))
  /\ norm (vsub (toEigen (goto_position out)) pos) = Rabs (min_speed (planner_info_ s))
  /\ (0 < min_speed (planner_info_ s) -> z pos < z (goto_position out))
  /\ adapted_goto_position out = goto_position out
  /\ (reached_goal_ s' = false -> smoothed_goto_position out = goto_position out).
Proof.
  intros Hmode Halt. cbv zeta. rewrite getWaypoints_eq. cbn [fst snd].
  destruct (tick_via_getPathMsg s Hmode)
    as (u & (Up & Ui & _ & _) & Hg & Ha & Hs & _ & _ & Hr).
  rewrite <- Ui in Halt.
  destruct (getPathMsg_climb ext u Halt) as (Cg & Ca & Cs & _).
  cbv zeta in Cg, Ca, Cs. rewrite Up, Ui in Cg.
  rewrite Hg, Ha, Hs, Hr. clear Hg Ha Hs Hr.
  revert Cg Ca Cs. generalize (getPathMsg ext u). intros p Cg Ca Cs.
  unfold toEigen in *.
  set (up := mkV3 (x (position (offboard_pose (planner_info_ s)))
                   - x (position (pose_ s)))
                  (y (position (offboard_pose (planner_info_ s)))
                   - y (position (pose_ s))) 0.5) in *.
  assert (Hsq : 0 < squaredNorm up) by apply climb_step_pos.
  assert (Hup : 0 < norm up) by (apply sqrt_lt_R0; exact Hsq).
  split; [rewrite <- (normalized_pos up Hsq); exact Cg |].
  split; [| split; [| split; [exact Ca |]]].
  - rewrite Cg. unfold toPoint. rewrite vsub_vadd, norm_vscale.
    rewrite (norm_normalized up Hsq). lra.
  - intros Hpos. rewrite Cg, (normalized_pos up Hsq).
    unfold toPoint, vadd, vscale, vdiv. cbn [x y z]. change (z up) with 0.5.
    assert (0 < min_speed (planner_info_ s) * (0.5 / norm up)); [| lra].
    apply Rmult_lt_0_compat; [exact Hpos |].
    apply Rdiv_lt_0_compat; [lra | exact Hup].
  - intros Hf. exact (proj1 (Cs Hf)).
Qed.


End TickTarget.

Lemma taking_off_not_reached (ext : Externals) :
  reached_goal_ (snd (getWaypoints ext taking_off)) = false.
Proof.
  rewrite getWaypoints_eq. cbn [snd].
  rewrite calculateWaypoint_reached by discriminate.
  unfold sqrd_dist_to_goal, sqrd_radius_in, sqrd_radius_out, Rgtb.
  change (goal_ taking_off) with (mkV3 0 0 3).
  change (position (pose_ taking_off)) with (mkV3 0 0 0).
  change (goal_acceptance_radius_in (param_ taking_off)) with 0.5.
  change (goal_acceptance_radius_out (param_ taking_off)) with 1.5.
  rewrite (sqrd_dist32_int 0 0 3 0 0 0 9) by (lia || reflexivity).
  rewrite example_sqrd_radius_in, example_sqrd_radius_out.
  replace (Rltb 9 0.25) with false by (symmetry; apply Rltb_false; lra).
  replace (Rltb 2.25 9) with true by (symmetry; apply Rltb_true; lra).
  reflexivity.
Qed.

(** X6 at work: [taking_off] is sent one unit straight up. *)
Lemma climb_step_example :
  waypoint_type (planner_info_ taking_off) <> goBack
  /\ reach_altitude (planner_info_ taking_off) = false
  /\ goto_position (fst (getWaypoints example_externals taking_off)) = mkV3 0 0 1
  /\ smoothed_goto_position (fst (getWaypoints example_externals taking_off))
     = mkV3 0 0 1.
Proof.
  assert (Hm : waypoint_type (planner_info_ taking_off) <> goBack) by discriminate.
  destruct (climb_step example_externals taking_off Hm eq_refl)
    as (Hg & _ & _ & _ & Hs).
  cbv zeta in Hg, Hs.
  assert (E : goto_position (fst (getWaypoints example_externals taking_off))
              = mkV3 0 0 1).
  { rewrite Hg. unfold toPoint, toEigen, norm, squaredNorm, vadd, vscale, vdiv.
    cbn.
    replace ((0 - 0) * (0 - 0) + (0 - 0) * (0 - 0) + 0.5 * 0.5) with (0.5 * 0.5) by lra.
    rewrite sqrt_square by lra. f_equal; lra. }
  split; [exact Hm |]. split; [reflexivity |]. split; [exact E |].
  rewrite (Hs (taking_off_not_reached example_externals)). exact E.
Defined.


(** ** What follows [adaptSpeed] in a tick *)

Lemma same_speed_state_trans (s1 s2 s3 : WaypointGenerator) :
  same_speed_state s1 s2 -> same_speed_state s2 s3 -> same_speed_state s1 s3.
Proof. intros [] []; constructor; congruence. Qed.

Section AfterAdaptSpeed.

Variable ext : Externals.

Lemma upd_output_speed_state f (s : WaypointGenerator) :
  same_speed_state s (upd_output f s).
Proof. constructor; reflexivity. Qed.

Lemma smoothWaypoint_speed_state (dt : R) (s : WaypointGenerator) :
  same_speed_state s (smoothWaypoint dt s)
  /\ adapted_goto_position (output_ (smoothWaypoint dt s))
     = adapted_goto_position (output_ s).
Proof. unfold smoothWaypoint, upd_output; split; [constructor |]; reflexivity. Qed.

Lemma reachGoalAltitudeFirst_speed_state (s : WaypointGenerator) :
  same_speed_state s (reachGoalAltitudeFirst s).
Proof.
  unfold reachGoalAltitudeFirst, upd_output; cbn.
  destruct (_ && _); constructor; reflexivity.
Qed.

Lemma getPathMsg_assemble_speed_state (t : WaypointGenerator) :
  same_speed_state t (getPathMsg_assemble ext t).
Proof.
  unfold getPathMsg_assemble, withinGoalRadius, transformPositionToVelocityWaypoint,
    upd_output.
  cbn. split_ifs; constructor; reflexivity.
Qed.

(** After [adaptSpeed], [getPathMsg] leaves the speed and its flags alone,
    and at the target altitude the adapted goal point as well. *)
Lemma getPathMsg_after_adaptSpeed (u : WaypointGenerator) :
  let a :=
    adaptSpeed ext
      (set_new_yaw_ (nextYaw ext (pose_ u) (goto_position (output_ u)))
         (upd_output (fun o => set_adapted_goto_position (goto_position o) o) u)) in
  same_speed_state a (getPathMsg ext u)
  /\ (reach_altitude (planner_info_ u) = true ->
      adapted_goto_position (output_ (getPathMsg ext u))
      = adapted_goto_position (output_ a)).
Proof.
  cbv zeta. unfold getPathMsg.
  pose proof (getPathMsg_assemble_speed_state (getPathMsg_target ext u)) as Sa.
  pose proof (getPathMsg_assemble_adapted ext (getPathMsg_target ext u)) as Aa.
  revert Sa Aa. generalize (getPathMsg_assemble ext (getPathMsg_target ext u)).
  intros p Sa Aa. rewrite Aa. clear Aa.
  destruct (reach_altitude (planner_info_ u)) eqn:Ea.
  - revert Sa. rewrite (getPathMsg_target_smooths ext u Ea).
    generalize (path_dt u).
    generalize (adaptSpeed ext
                  (set_new_yaw_ (nextYaw ext (pose_ u) (goto_position (output_ u)))
                     (upd_output (fun o => set_adapted_goto_position (goto_position o) o)
                        u))).
    intros a dt Sa.
    destruct (smoothWaypoint_speed_state dt
                (upd_output
                   (fun o => set_smoothed_goto_position (adapted_goto_position o) o) a))
      as (Ss & As).
    split.
    + refine (same_speed_state_trans _ _ _ _ Sa).
      refine (same_speed_state_trans _ _ _ _ Ss).
      apply upd_output_speed_state.
    + intros _. rewrite As. reflexivity.
  - revert Sa. rewrite (getPathMsg_target_climbs ext u Ea).
    generalize (adaptSpeed ext
                  (set_new_yaw_ (nextYaw ext (pose_ u) (goto_position (output_ u)))
                     (upd_output (fun o => set_adapted_goto_position (goto_position o) o)
                        u))).
    intros a Sa.
    pose proof (reachGoalAltitudeFirst_speed_state
                  (upd_output
                     (fun o => set_smoothed_goto_position (adapted_goto_position o) o) a))
      as Sr.
    split; [| discriminate].
    refine (same_speed_state_trans _ _ _ _ Sa).
    revert Sr.
    generalize (reachGoalAltitudeFirst
                  (upd_output
                     (fun o => set_smoothed_goto_position (adapted_goto_position o) o) a)).
    intros r Sr.
    refine (same_speed_state_trans _ _ _ _
              (upd_output_speed_state _ _)).
    refine (same_speed_state_trans _ _ _ _
              (upd_output_speed_state _ _)).
    refine (same_speed_state_trans _ _ _ _ Sr).
    apply upd_output_speed_state.
Qed.

End AfterAdaptSpeed.

(** ** [adaptSpeed]: the close-to-goal limit and the adapted goal point *)

Section AdaptedPoint.

Variable ext : Externals.

(** The first four blocks of [adaptSpeed] do not write [output_]. *)
Lemma adaptSpeed_blocks_output (s : WaypointGenerator) :
  let c :=
    adaptSpeed_closeToGoal
      (adaptSpeed_delay (adaptSpeed_FOV ext (adaptSpeed_envelope ext s))) in
  output_ c = output_ s /\ pose_ c = pose_ s.
Proof.
  cbv zeta.
  destruct (adaptSpeed_envelope_output ext s) as (Oe & _).
  destruct (adaptSpeed_envelope_frame ext s) as (Ie & _).
  rewrite <- Oe, <- (si_pose Ie).
  generalize (adaptSpeed_envelope ext s). intros e.
  assert (Of : output_ (adaptSpeed_FOV ext e) = output_ e)
    by (unfold adaptSpeed_FOV, now; split_ifs; reflexivity).
  destruct (adaptSpeed_FOV_frame ext e) as (If & _).
  rewrite <- Of, <- (si_pose If).
  generalize (adaptSpeed_FOV ext e). intros f.
  change (output_ f) with (output_ (adaptSpeed_delay f)).
  change (pose_ f) with (pose_ (adaptSpeed_delay f)).
  generalize (adaptSpeed_delay f). intros d.
  unfold adaptSpeed_closeToGoal. split_ifs; split; reflexivity.
Qed.

(** cpp:329-337 in terms of the state [adaptSpeed] is entered with. *)
Lemma adaptSpeed_adapted (s : WaypointGenerator) :
  let pos := toEigen (position (pose_ s)) in
  let step := vsub (toEigen (adapted_goto_position (output_ s))) pos in
  adapted_goto_position (output_ (adaptSpeed ext s)) =
  toPoint
    (vadd pos
       (vscale (speed_ (adaptSpeed ext s))
          (if Rgtb (norm step) 0.01 then normalized step else step))).
Proof.
  cbv zeta. unfold adaptSpeed.
  destruct (adaptSpeed_blocks_output s) as (Ho & Hp). cbv zeta in Ho, Hp.
  revert Ho Hp.
  generalize (adaptSpeed_closeToGoal
                (adaptSpeed_delay (adaptSpeed_FOV ext (adaptSpeed_envelope ext s)))).
  intros c Ho Hp.
  unfold adaptSpeed_setWaypoint, upd_output.
  cbn [output_ set_output_ adapted_goto_position set_adapted_goto_position speed_].
  rewrite Ho, Hp. reflexivity.
Qed.

(** The close-to-goal flag after [adaptSpeed]. *)
Lemma adaptSpeed_limit_flag (s : WaypointGenerator) :
  let pos_to_goal := cwiseAbs (vsub (goal_ s) (toEigen (position (pose_ s)))) in
  let start :=
    factor_close_to_goal_start_speed_limitation (param_ s) * curr_vel_magnitude_ s in
  let stop :=
    factor_close_to_goal_stop_speed_limitation (param_ s) * curr_vel_magnitude_ s in
  limit_speed_close_to_goal_ (adaptSpeed ext s) =
  if Rltb (x pos_to_goal) start && Rltb (y pos_to_goal) start then true
  else if Rgtb (x pos_to_goal) stop || Rgtb (y pos_to_goal) stop then false
  else limit_speed_close_to_goal_ s.
Proof.
  cbv zeta. unfold adaptSpeed.
  destruct (adaptSpeed_FOV_limit ext s) as (L & _ & I).
  pose proof (adaptSpeed_close_flag (adaptSpeed_FOV ext (adaptSpeed_envelope ext s))) as F.
  cbv zeta in F.
  rewrite L, (si_goal I), (si_pose I), (si_param I), (si_curr_vel_magnitude I) in F.
  exact F.
Qed.

(** With the flag set, the speed lies between [min_speed_close_to_goal] and
    the larger of that and the share of the distance to the goal. *)
Lemma adaptSpeed_limited_window (s : WaypointGenerator) :
  limit_speed_close_to_goal_ (adaptSpeed ext s) = true ->
  let dist := norm (vsub (goal_ s) (toEigen (position (pose_ s)))) in
  min_speed_close_to_goal (param_ s) <= speed_ (adaptSpeed ext s)
  /\ speed_ (adaptSpeed ext s)
     <= Rmax (max_speed_close_to_goal_factor (param_ s) * dist)
             (min_speed_close_to_goal (param_ s)).
Proof.
  intros Hflag. cbv zeta.
  pose proof (adaptSpeed_speed ext s) as Hs. cbv zeta in Hs.
  pose proof (adaptSpeed_limit_flag s) as Hf. cbv zeta in Hf.
  rewrite <- Hf, Hflag in Hs. rewrite Hs, norm_cwiseAbs.
  split; [apply Rmax_r |].
  apply Rmax_lub; [| apply Rmax_r].
  apply Rle_trans with (2 := Rmax_l _ _). apply Rmin_r.
Qed.

End AdaptedPoint.

(** ** Ticks and the speed adaptation *)

Section TickSpeed.

Variable ext : Externals.

Lemma calculateWaypoint_begin_speed_state (s : WaypointGenerator) :
  same_speed_state s (calculateWaypoint_begin s).
Proof. unfold calculateWaypoint_begin, now; constructor; reflexivity. Qed.

Lemma calculateWaypoint_end_speed_state (d : WaypointGenerator) :
  same_speed_state d (calculateWaypoint_end d).
Proof. unfold calculateWaypoint_end; constructor; reflexivity. Qed.

(** In every mode but [goBack] the tick enters [adaptSpeed] in a state [a]
    that has the vehicle state, the configuration, the directive and the
    close-to-goal flag the tick started with, and the raw goal point as the
    point to adapt; the speed and its flags are not written after that. *)
Lemma tick_via_adaptSpeed (s : WaypointGenerator) :
  waypoint_type (planner_info_ s) <> goBack ->
  exists a,
    (pose_ a = pose_ s /\ goal_ a = goal_ s /\ param_ a = param_ s
     /\ planner_info_ a = planner_info_ s
     /\ curr_vel_magnitude_ a = curr_vel_magnitude_ s
     /\ limit_speed_close_to_goal_ a = limit_speed_close_to_goal_ s
     /\ adapted_goto_position (output_ a) = goto_position (output_ a))
    /\ same_speed_state (adaptSpeed ext a) (calculateWaypoint ext s)
    /\ (reach_altitude (planner_info_ s) = true ->
        adapted_goto_position (output_ (calculateWaypoint ext s))
        = adapted_goto_position (output_ (adaptSpeed ext a))
        /\ goto_position (output_ (calculateWaypoint ext s))
           = goto_position (output_ a)).
Proof.
  intros Hmode. rewrite calculateWaypoint_eq.
  destruct (calculateWaypoint_begin_keeps s)
    as (Bp & _ & _ & _ & _ & Bi & Bg & _ & _).
  destruct (calculateWaypoint_begin_inputs s) as (Ba & Bm & _).
  pose proof (ss_limit_speed (calculateWaypoint_begin_speed_state s)) as Bl.
  cbv zeta in Bp, Bi, Bg, Ba, Bm.
  rewrite <- Bi in Hmode. rewrite <- Bp, <- Bi, <- Bg, <- Ba, <- Bm, <- Bl.
  clear Bp Bi Bg Ba Bm Bl. revert Hmode. generalize (calculateWaypoint_begin s).
  intros b Hmode.
  destruct (dispatch_shape ext b Hmode) as (g & h & n & _ & Hrun).
  cbv zeta in Hrun.
  pose (u := upd_output (set_goto_position g)
               (set_hover_position_ h (set_ros_reads n b))).
  exists (set_new_yaw_ (nextYaw ext (pose_ u) (goto_position (output_ u)))
            (upd_output (fun o => set_adapted_goto_position (goto_position o) o) u)).
  split; [repeat split; reflexivity |].
  destruct (getPathMsg_after_adaptSpeed ext u) as (Sa & Aa). cbv zeta in Sa, Aa.
  destruct (getPathMsg_frame ext u) as (_ & Ga).
  change (planner_info_ u) with (planner_info_ b) in Aa, Ga.
  change (goto_position
            (output_
               (set_new_yaw_ (nextYaw ext (pose_ u) (goto_position (output_ u)))
                  (upd_output (fun o => set_adapted_goto_position (goto_position o) o)
                     u))))
    with (goto_position (output_ u)).
  fold u in Hrun. revert Hrun Sa Aa Ga.
  generalize (adaptSpeed ext
                (set_new_yaw_ (nextYaw ext (pose_ u) (goto_position (output_ u)))
                   (upd_output (fun o => set_adapted_goto_position (goto_position o) o)
                      u))).
  generalize (getPathMsg ext u). clearbody u.
  intros p a Hrun Sa Aa Ga.
  pose proof (calculateWaypoint_end_speed_state (dispatch ext b)) as Se.
  destruct (calculateWaypoint_end_output (dispatch ext b)) as (Ho & _).
  rewrite Ho. revert Se. generalize (calculateWaypoint_end (dispatch ext b)).
  intros e Se.
  assert (Sd : same_speed_state p (dispatch ext b))
    by (destruct Hrun as [-> | (_ & ->)]; constructor; reflexivity).
  split.
  - exact (same_speed_state_trans _ _ _ Sa (same_speed_state_trans _ _ _ Sd Se)).
  - intros Ea.
    destruct Hrun as [-> | (_ & ->)]; (split; [exact (Aa Ea) | exact (Ga Ea)]).
Qed.



End TickSpeed.

(** ** Ticks in [direct] and [reachHeight] mode *)

Section GoFast.

Variable ext : Externals.

Lemma goFast_raw_goal (b : WaypointGenerator) :
  reach_altitude (planner_info_ b) = true ->
  goto_position (output_ (goFast ext b)) =
  toPoint (vadd (toEigen (position (pose_ b)))
             (normalized (vsub (goal_ b) (toEigen (position (pose_ b)))))).
Proof.
  intros Ha. unfold goFast.
  exact (proj2 (getPathMsg_frame ext
                  (upd_output
                     (set_goto_position
                        (toPoint
                           (vadd (toEigen (position (pose_ b)))
                              (normalized
                                 (vsub (goal_ b) (toEigen (position (pose_ b))))))))
                     b)) Ha).
Qed.

(** The raw goal point of a tick that runs [goFast] as its handler. *)
Lemma tick_goFast_goto (s : WaypointGenerator) :
  waypoint_type (planner_info_ s) = direct
  \/ waypoint_type (planner_info_ s) = reachHeight ->
  reach_altitude (planner_info_ s) = true ->
  goto_position (output_ (calculateWaypoint ext s)) =
  toPoint (vadd (toEigen (position (pose_ s)))
             (normalized (vsub (goal_ s) (toEigen (position (pose_ s)))))).
Proof.
  intros Hmode Ha. rewrite calculateWaypoint_eq.
  destruct (calculateWaypoint_end_output (dispatch ext (calculateWaypoint_begin s)))
    as (Ho & _).
  rewrite Ho.
  destruct (calculateWaypoint_begin_keeps s)
    as (Bp & _ & _ & _ & _ & Bi & Bg & _ & _).
  cbv zeta in Bp, Bi, Bg. rewrite <- Bi in Hmode, Ha. rewrite <- Bp, <- Bg.
  clear Bp Bi Bg Ho. revert Hmode Ha. generalize (calculateWaypoint_begin s).
  intros b Hmode Ha.
  assert (E : dispatch ext b = goFast ext b)
    by (unfold dispatch; destruct Hmode as [-> | ->]; reflexivity).
  rewrite E. exact (goFast_raw_goal b Ha).
Qed.


End GoFast.

Lemma cruising_unit_step :
  vadd (toEigen (position (pose_ cruising)))
    (normalized (vsub (goal_ cruising) (toEigen (position (pose_ cruising)))))
  = mkV3 0 1 0.
Proof.
  unfold normalized, vsub, toEigen; cbn [x y z cruising pose_ goal_ position pose_at origin].
  assert (Hn : squaredNorm (mkV3 (0 - 0) (20 - 0) (0 - 0)) = 20 * 20)
    by (unfold squaredNorm; cbn; lra).
  rewrite Hn, sqrt_square by lra.
  replace (Rgtb (20 * 20) 0) with true by (symmetry; apply Rltb_true; lra).
  unfold vadd, vdiv, origin; cbn [x y z]. f_equal; lra.
Qed.




(** ** Ticks in [goBack] mode *)

Section GoBackTick.

Variable ext : Externals.

Lemma backOff_frame (b : WaypointGenerator) :
  let b' := backOff ext b in
  adapted_goto_position (output_ b') = adapted_goto_position (output_ b)
  /\ smoothed_goto_position (output_ b') = smoothed_goto_position (output_ b)
  /\ new_yaw_ b' = new_yaw_ b
  /\ same_speed_state b b'
  /\ reached_goal_ b' = reached_goal_ b
  /\ yaw_reached_goal_ b' = yaw_reached_goal_ b
  /\ hover_position_ b' = hover_position_ b
  /\ ros_reads b' = ros_reads b.
Proof.
  cbv zeta. unfold backOff, transformPositionToVelocityWaypoint, upd_output.
  split; [reflexivity |]. split; [reflexivity |]. split; [reflexivity |].
  split; [constructor; reflexivity |]. repeat split; reflexivity.
Qed.

Lemma calculateWaypoint_begin_frame (s : WaypointGenerator) :
  let b := calculateWaypoint_begin s in
  adapted_goto_position (output_ b) = adapted_goto_position (output_ s)
  /\ smoothed_goto_position (output_ b) = smoothed_goto_position (output_ s)
  /\ goto_position (output_ b) = goto_position (output_ s).
Proof. unfold calculateWaypoint_begin, now; cbn; repeat split; reflexivity. Qed.

Lemma calculateWaypoint_end_reads (d : WaypointGenerator) :
  ros_reads (calculateWaypoint_end d) = ros_reads d.
Proof. reflexivity. Qed.

(** X11.  A [goBack] tick does not run [getPathMsg]: it publishes the back-off
    point and leaves everything the speed adaptation, the smoother and the
    goal radius keep between ticks as it was. The adapted and the smoothed
    goal point of its output are those of the tick before, the yaw target
    [new_yaw_] that the yaw rate is computed from is the one of the tick
    before, and the clock is read once. *)
Theorem goBack_tick_frame (s : WaypointGenerator) :
  waypoint_type (planner_info_ s) = goBack ->
  let out := fst (getWaypoints ext s) in
  let s' := snd (getWaypoints ext s) in
  adapted_goto_position out = adapted_goto_position (output_ s)
  /\ smoothed_goto_position out = smoothed_goto_position (output_ s)
  /\ new_yaw_ s' = new_yaw_ s
  /\ z (angular (velocity_waypoint out))
     = getAngularVelocity ext (new_yaw_ s) (curr_yaw_ s)
  /\ same_speed_state s s'
  /\ reached_goal_ s' = reached_goal_ s
  /\ yaw_reached_goal_ s' = yaw_reached_goal_ s
  /\ hover_position_ s' = hover_position_ s
  /\ ros_reads s' = S (ros_reads s).
Proof.
  intros Hmode. cbv zeta. rewrite getWaypoints_eq, calculateWaypoint_eq. cbn [fst snd].
  destruct (calculateWaypoint_begin_keeps s)
    as (_ & By & _ & Bn & _ & Bi & _ & _ & _).
  destruct (calculateWaypoint_begin_fields s) as (_ & _ & _ & _ & Bh & _ & Br & _).
  destruct (calculateWaypoint_begin_goal_state s) as (_ & Bg & Bw).
  destruct (calculateWaypoint_begin_frame s) as (Ba & Bs & _).
  pose proof (calculateWaypoint_begin_speed_state s) as Bv.
  cbv zeta in By, Bn, Bi, Bh, Br, Ba, Bs.
  rewrite <- Bi in Hmode.
  revert Hmode By Bn Bh Br Bg Bw Ba Bs Bv. clear Bi.
  generalize (calculateWaypoint_begin s).
  intros b Hmode By Bn Bh Br Bg Bw Ba Bs Bv.
  rewrite (dispatch_goBack ext b Hmode).
  destruct (backOff_frame b) as (Fa & Fs & Fn & Fv & Fg & Fw & Fh & Fr).
  pose proof (backOff_velocity ext b) as Fz.
  cbv zeta in Fa, Fs, Fn, Fh, Fr, Fz.
  revert Fa Fs Fn Fv Fg Fw Fh Fr Fz. generalize (backOff ext b).
  intros d Fa Fs Fn Fv Fg Fw Fh Fr Fz.
  destruct (calculateWaypoint_end_output d) as (Eo & Eh & _).
  destruct (calculateWaypoint_end_goal_state d) as (Eg & Ew & En).
  pose proof (calculateWaypoint_end_speed_state d) as Ev.
  pose proof (calculateWaypoint_end_reads d) as Er.
  rewrite Eo, Eh, Eg, Ew, En, Er.
  split; [congruence |]. split; [congruence |]. split; [congruence |].
  split; [rewrite Fz; cbn [angular z]; congruence |].
  split; [exact (same_speed_state_trans _ _ _ Bv (same_speed_state_trans _ _ _ Fv Ev)) |].
  repeat split; congruence.
Qed.

End GoBackTick.

(** X11 at work: [backing_off] publishes the back-off point while the smoothed
    goal point of its output stays at the origin, where the tick before left
    it. *)
Lemma goBack_tick_frame_example :
  waypoint_type (planner_info_ backing_off) = goBack
  /\ smoothed_goto_position (fst (getWaypoints example_externals backing_off)) = origin
  /\ speed_ (snd (getWaypoints example_externals backing_off)) = 1.
Proof.
  destruct (goBack_tick_frame example_externals backing_off eq_refl)
    as (_ & Hs & _ & _ & S & _).
  cbv zeta in Hs, S.
  split; [reflexivity |]. split; [rewrite Hs; reflexivity |].
  rewrite (ss_speed S). reflexivity.
Defined.

(** ** [adaptSpeed]: the FOV block when it does not slow down, and with no
    visible index *)

Section FOVBlock.

Variable ext : Externals.

(** The blocks after the FOV block keep its two flags. *)
Lemma adaptSpeed_after_FOV_flags (f : WaypointGenerator) :
  let s' := adaptSpeed_setWaypoint (adaptSpeed_closeToGoal (adaptSpeed_delay f)) in
  waypoint_outside_FOV_ s' = waypoint_outside_FOV_ f
  /\ only_yawed_ s' = only_yawed_ f.
Proof.
  cbv zeta.
  unfold adaptSpeed_setWaypoint, adaptSpeed_closeToGoal, adaptSpeed_delay, now, upd_output.
  cbn. split_ifs; split; reflexivity.
Qed.

Lemma adaptSpeed_FOV_idle (e : WaypointGenerator) :
  let visible := existsb (Z.eqb (adaptSpeed_z_index ext e)) (z_FOV_idx_ e) in
  waypoint_outside_FOV_ (adaptSpeed_FOV ext e) = negb visible
  /\ (visible = true \/ reach_altitude (planner_info_ e) = false
      \/ reached_goal_ e = true ->
      speed_ (adaptSpeed_FOV ext e) = speed_ e
      /\ only_yawed_ (adaptSpeed_FOV ext e) = only_yawed_ e).
Proof.
  cbv zeta. unfold adaptSpeed_FOV, now.
  destruct (existsb _ _); cbn.
  - split; [reflexivity |]. intros _. split; reflexivity.
  - destruct (reach_altitude (planner_info_ e)) eqn:Ea; cbn.
    + destruct (reached_goal_ e) eqn:Er; cbn.
      * split; [reflexivity |]. intros _. split; reflexivity.
      * split; [split_ifs; reflexivity |].
        intros [H | [H | H]]; discriminate H.
    + split; [reflexivity |]. intros _. split; reflexivity.
Qed.

(** X12.  The FOV block leaves the speed alone unless the candidate index is
    not visible, the target altitude is reached and the goal is not: with the
    index visible, below the target altitude or with the goal reached, the
    speed after the block is the speed before it and the yaw-only flag keeps
    the value of the tick before. The flag [waypoint_outside_FOV_] is set
    exactly when the index is not among the visible ones. *)
Theorem fov_block_idle (s : WaypointGenerator) :
  let e := adaptSpeed_envelope ext s in
  let visible := existsb (Z.eqb (adaptSpeed_z_index ext s)) (z_FOV_idx_ s) in
  waypoint_outside_FOV_ (adaptSpeed ext s) = negb visible
  /\ (visible = true \/ reach_altitude (planner_info_ s) = false
      \/ reached_goal_ s = true ->
      speed_ (adaptSpeed_FOV ext e) = speed_ e
      /\ only_yawed_ (adaptSpeed ext s) = only_yawed_ s).
Proof.
  cbv zeta. unfold adaptSpeed.
  destruct (adaptSpeed_envelope_frame ext s) as (Ie & Ge).
  destruct (adaptSpeed_envelope_output ext s) as (_ & Ye).
  pose proof (adaptSpeed_z_index_envelope ext s) as Hz.
  destruct (adaptSpeed_FOV_idle (adaptSpeed_envelope ext s)) as (Hw & Hidle).
  cbv zeta in Hw, Hidle.
  rewrite Hz, (si_z_FOV_idx Ie) in Hw, Hidle.
  rewrite (si_planner_info Ie), (sg_reached_goal Ge), Ye in Hidle.
  destruct (adaptSpeed_after_FOV_flags (adaptSpeed_FOV ext (adaptSpeed_envelope ext s)))
    as (Fw & Fy).
  cbv zeta in Fw, Fy. rewrite Fw, Fy. clear Fw Fy.
  split; [exact Hw | exact Hidle].
Qed.

Lemma fov_angle_diff_empty (z_index : Z) :
  ALPHA_RES ext <> 0%Z -> fov_angle_diff ext [] z_index = 30.
Proof.
  intros Hres. unfold fov_angle_diff, fov_ind_dist. cbn [fold_left].
  apply Rmin_right. apply (IZR_le 30). lia.
Qed.

(** X13.  With no visible index at all (and a resolution that is not 0), at
    the target altitude and short of the goal, the FOV block brings the speed
    to 0 and sets the yaw-only flag: the distance to the nearest visible index
    keeps its start value 100, which the cap turns into 30 degrees. Unless the
    close-to-goal limit is on, the speed that scales the step is then the
    delay compensation alone. *)
Theorem fov_empty_stops (s : WaypointGenerator) :
  z_FOV_idx_ s = [] ->
  ALPHA_RES ext <> 0%Z ->
  reach_altitude (planner_info_ s) = true ->
  reached_goal_ s = false ->
  speed_ (adaptSpeed_FOV ext (adaptSpeed_envelope ext s)) = 0
  /\ only_yawed_ (adaptSpeed ext s) = true
  /\ waypoint_outside_FOV_ (adaptSpeed ext s) = true
  /\ (limit_speed_close_to_goal_ (adaptSpeed ext s) = false ->
      speed_ (adaptSpeed ext s)
      = toSec (ros_clock s (S (S (ros_reads s))) - update_time_ s)%Z
        * curr_vel_magnitude_ s).
Proof.
  intros Hempty Hres Halt Hgoal.
  destruct (adaptSpeed_envelope_frame ext s) as (Ie & Ge).
  assert (Hout : existsb (Z.eqb (adaptSpeed_z_index ext (adaptSpeed_envelope ext s)))
                   (z_FOV_idx_ (adaptSpeed_envelope ext s)) = false)
    by (rewrite (si_z_FOV_idx Ie), Hempty; reflexivity).
  assert (Halt' : reach_altitude (planner_info_ (adaptSpeed_envelope ext s)) = true)
    by (rewrite (si_planner_info Ie); exact Halt).
  assert (Hgoal' : reached_goal_ (adaptSpeed_envelope ext s) = false)
    by (rewrite (sg_reached_goal Ge); exact Hgoal).
  destruct (adaptSpeed_FOV_outside ext _ Hout Halt' Hgoal') as (Hs & Hy & Hw).
  cbv zeta in Hs, Hy, Hw.
  rewrite (si_z_FOV_idx Ie), Hempty, (fov_angle_diff_empty _ Hres) in Hs, Hy.
  replace (speed_ (adaptSpeed_envelope ext s) * (1 - 30 / 30)) with 0 in Hs, Hy by lra.
  pose proof (adaptSpeed_speed ext s) as Hv. cbv zeta in Hv.
  pose proof (adaptSpeed_limit_flag ext s) as Hf. cbv zeta in Hf.
  rewrite <- Hf, Hs in Hv. clear Hf.
  unfold adaptSpeed in *.
  destruct (adaptSpeed_after_FOV_flags (adaptSpeed_FOV ext (adaptSpeed_envelope ext s)))
    as (Fw & Fy).
  cbv zeta in Fw, Fy. rewrite Fw, Fy, Hw, Hy. clear Fw Fy.
  split; [exact Hs |].
  split; [apply Rltb_true; lra |]. split; [reflexivity |].
  intros Hl. rewrite Hl in Hv. rewrite Hv. lra.
Qed.

End FOVBlock.

(** X13 at work: [idle] sees no index at all: the FOV block stops it. *)
Lemma fov_empty_stops_example :
  z_FOV_idx_ idle = []
  /\ ALPHA_RES example_externals <> 0%Z
  /\ reach_altitude (planner_info_ idle) = true
  /\ reached_goal_ idle = false
  /\ only_yawed_ (adaptSpeed example_externals idle) = true.
Proof.
  assert (Hres : ALPHA_RES example_externals <> 0%Z) by discriminate.
  destruct (fov_empty_stops example_externals idle eq_refl Hres eq_refl eq_refl)
    as (_ & Hy & _).
  split; [reflexivity |]. split; [exact Hres |]. split; [reflexivity |].
  split; [reflexivity | exact Hy].
Defined.

(** X20.  The FOV block never speeds the vehicle up and never reverses the
    speed: the speed it leaves is the speed it found times a factor between
    0 and 1, so its magnitude does not grow and a speed that is not negative
    stays between 0 and its old value. *)
Theorem fov_block_never_speeds_up (ext : Externals) (s : WaypointGenerator) :
  let e := adaptSpeed_envelope ext s in
  Rabs (speed_ (adaptSpeed_FOV ext e)) <= Rabs (speed_ e)
  /\ (0 <= speed_ e ->
      0 <= speed_ (adaptSpeed_FOV ext e) /\ speed_ (adaptSpeed_FOV ext e) <= speed_ e).
Proof.
  cbv zeta. generalize (adaptSpeed_envelope ext s). intros e.
  destruct (adaptSpeed_FOV_factor ext e) as (f & (H0 & H1) & ->).
  split.
  - rewrite Rabs_mult, (Rabs_pos_eq f H0).
    pose proof (Rabs_pos (speed_ e)). nra.
  - intros Hs. split; nra.
Qed.

(** ** [updateState], [setPlannerInfo] and [setFOV] *)

Section Inputs.

Variable ext : Externals.

(** X14.  The order of the two inputs of a tick. A state update that does not
    ask to hold and a new directive can be given in either order: the
    generator ends in the same state. A hold request is kept only when the
    directive is set first: set afterwards, the directive replaces the [hover]
    mode that [updateState] stored. *)
Theorem updateState_setPlannerInfo_order (act_pose goal : PoseStamped) (vel : Twist)
  (t : RosTime) (input : avoidanceOutput) (s : WaypointGenerator) :
  updateState ext act_pose goal vel false t (setPlannerInfo input s)
  = setPlannerInfo input (updateState ext act_pose goal vel false t s)
  /\ planner_info_ (updateState ext act_pose goal vel true t (setPlannerInfo input s))
     = set_waypoint_type hover input
  /\ planner_info_ (setPlannerInfo input (updateState ext act_pose goal vel true t s))
     = input.
Proof.
  split; [| split].
  - unfold updateState, setPlannerInfo. destruct s.
    cbn. destruct (Rgtb _ _); reflexivity.
  - unfold updateState, setPlannerInfo. cbn. destruct (Rgtb _ _); reflexivity.
  - reflexivity.
Qed.

End Inputs.

Section SetFOV.

Variable ext : Externals.

Variables h_FOV v_FOV : R.

Lemma setFOV_upd_output f (s : WaypointGenerator) :
  upd_output f (setFOV h_FOV v_FOV s) = setFOV h_FOV v_FOV (upd_output f s).
Proof. destruct s; reflexivity. Qed.

Lemma setFOV_envelope (s : WaypointGenerator) :
  adaptSpeed_envelope ext (setFOV h_FOV v_FOV s)
  = setFOV h_FOV v_FOV (adaptSpeed_envelope ext s).
Proof.
  destruct s; unfold adaptSpeed_envelope, now, setFOV; cbn; split_ifs; reflexivity.
Qed.

Lemma setFOV_FOV (s : WaypointGenerator) :
  adaptSpeed_FOV ext (setFOV h_FOV v_FOV s) = setFOV h_FOV v_FOV (adaptSpeed_FOV ext s).
Proof.
  destruct s; unfold adaptSpeed_FOV, adaptSpeed_z_index, now, setFOV; cbn;
    split_ifs; reflexivity.
Qed.

Lemma setFOV_delay (s : WaypointGenerator) :
  adaptSpeed_delay (setFOV h_FOV v_FOV s) = setFOV h_FOV v_FOV (adaptSpeed_delay s).
Proof. destruct s; reflexivity. Qed.

Lemma setFOV_closeToGoal (s : WaypointGenerator) :
  adaptSpeed_closeToGoal (setFOV h_FOV v_FOV s)
  = setFOV h_FOV v_FOV (adaptSpeed_closeToGoal s).
Proof.
  unfold adaptSpeed_closeToGoal, setFOV.
  cbn [goal_ pose_ param_ curr_vel_magnitude_ set_v_FOV_ set_h_FOV_].
  destruct (Rltb _ _ && Rltb _ _); [| destruct (Rgtb _ _ || Rgtb _ _)];
    destruct s as [? ? ? ? ? ? ? ? ? ? ? ? ? ? ? ? ? ? ? ? ? lim ? ? ? ? ? ? ? ? ? ? ?];
    cbn; try destruct lim; reflexivity.
Qed.

Lemma setFOV_setWaypoint (s : WaypointGenerator) :
  adaptSpeed_setWaypoint (setFOV h_FOV v_FOV s)
  = setFOV h_FOV v_FOV (adaptSpeed_setWaypoint s).
Proof. destruct s; reflexivity. Qed.

Lemma setFOV_adaptSpeed (s : WaypointGenerator) :
  adaptSpeed ext (setFOV h_FOV v_FOV s) = setFOV h_FOV v_FOV (adaptSpeed ext s).
Proof.
  unfold adaptSpeed.
  rewrite setFOV_envelope, setFOV_FOV, setFOV_delay, setFOV_closeToGoal,
    setFOV_setWaypoint.
  reflexivity.
Qed.


Lemma setFOV_set_new_yaw (v : R) (s : WaypointGenerator) :
  set_new_yaw_ v (setFOV h_FOV v_FOV s) = setFOV h_FOV v_FOV (set_new_yaw_ v s).
Proof. destruct s; reflexivity. Qed.

Lemma setFOV_reachGoalAltitudeFirst (s : WaypointGenerator) :
  reachGoalAltitudeFirst (setFOV h_FOV v_FOV s)
  = setFOV h_FOV v_FOV (reachGoalAltitudeFirst s).
Proof.
  unfold reachGoalAltitudeFirst, upd_output, setFOV.
  cbn [goal_ pose_ planner_info_ output_ curr_yaw_ set_v_FOV_ set_h_FOV_ set_output_].
  destruct (Rltb _ 1 && Rltb _ 1); destruct s; reflexivity.
Qed.

Lemma setFOV_smoothWaypoint (dt : R) (s : WaypointGenerator) :
  smoothWaypoint dt (setFOV h_FOV v_FOV s) = setFOV h_FOV v_FOV (smoothWaypoint dt s).
Proof. destruct s; reflexivity. Qed.

Lemma setFOV_getPathMsg_target (s : WaypointGenerator) :
  getPathMsg_target ext (setFOV h_FOV v_FOV s)
  = setFOV h_FOV v_FOV (getPathMsg_target ext s).
Proof.
  unfold getPathMsg_target.
  rewrite setFOV_upd_output.
  change (path_dt (setFOV h_FOV v_FOV ?a)) with (path_dt a).
  change (pose_ (setFOV h_FOV v_FOV ?a)) with (pose_ a).
  change (output_ (setFOV h_FOV v_FOV ?a)) with (output_ a).
  rewrite setFOV_set_new_yaw, setFOV_adaptSpeed, setFOV_upd_output.
  change (planner_info_ (setFOV h_FOV v_FOV ?a)) with (planner_info_ a).
  destruct (negb _).
  - rewrite setFOV_reachGoalAltitudeFirst, !setFOV_upd_output. reflexivity.
  - apply setFOV_smoothWaypoint.
Qed.

Lemma setFOV_getPathMsg_assemble (s : WaypointGenerator) :
  getPathMsg_assemble ext (setFOV h_FOV v_FOV s)
  = setFOV h_FOV v_FOV (getPathMsg_assemble ext s).
Proof.
  unfold getPathMsg_assemble, withinGoalRadius, transformPositionToVelocityWaypoint,
    upd_output, setFOV.
  cbn [goal_ pose_ param_ set_v_FOV_ set_h_FOV_].
  destruct (Rltb _ _); [| destruct (Rgtb _ _)];
    destruct s as [? ? ? ? ? ? ? ? ? ? ? ? ? ? ? ? ? ? ? ? r ? ? ? ? ? ? ? ? ? ? ? ?];
    cbn; try destruct r; reflexivity.
Qed.

Lemma setFOV_getPathMsg (s : WaypointGenerator) :
  getPathMsg ext (setFOV h_FOV v_FOV s) = setFOV h_FOV v_FOV (getPathMsg ext s).
Proof.
  unfold getPathMsg. rewrite setFOV_getPathMsg_target. apply setFOV_getPathMsg_assemble.
Qed.

Lemma setFOV_goFast (s : WaypointGenerator) :
  goFast ext (setFOV h_FOV v_FOV s) = setFOV h_FOV v_FOV (goFast ext s).
Proof.
  unfold goFast. rewrite setFOV_upd_output.
  change (pose_ (setFOV h_FOV v_FOV s)) with (pose_ s).
  change (goal_ (setFOV h_FOV v_FOV s)) with (goal_ s).
  apply setFOV_getPathMsg.
Qed.

Lemma setFOV_backOff (s : WaypointGenerator) :
  backOff ext (setFOV h_FOV v_FOV s) = setFOV h_FOV v_FOV (backOff ext s).
Proof. destruct s; reflexivity. Qed.

Lemma setFOV_set_hover_position (p : Vector3f) (s : WaypointGenerator) :
  set_hover_position_ p (setFOV h_FOV v_FOV s)
  = setFOV h_FOV v_FOV (set_hover_position_ p s).
Proof. destruct s; reflexivity. Qed.

Lemma setFOV_set_ros_reads (n : nat) (s : WaypointGenerator) :
  set_ros_reads n (setFOV h_FOV v_FOV s) = setFOV h_FOV v_FOV (set_ros_reads n s).
Proof. destruct s; reflexivity. Qed.

Lemma setFOV_dispatch (s : WaypointGenerator) :
  dispatch ext (setFOV h_FOV v_FOV s) = setFOV h_FOV v_FOV (dispatch ext s).
Proof.
  unfold dispatch.
  change (planner_info_ (setFOV h_FOV v_FOV s)) with (planner_info_ s).
  change (last_wp_type_ (setFOV h_FOV v_FOV s)) with (last_wp_type_ s).
  change (pose_ (setFOV h_FOV v_FOV s)) with (pose_ s).
  destruct (waypoint_type (planner_info_ s)).
  - destruct (negb _).
    + rewrite setFOV_set_hover_position, setFOV_upd_output. apply setFOV_getPathMsg.
    + rewrite setFOV_upd_output. apply setFOV_getPathMsg.
  - rewrite setFOV_upd_output. apply setFOV_getPathMsg.
  - unfold now.
    change (ros_clock (setFOV h_FOV v_FOV s)) with (ros_clock s).
    change (ros_reads (setFOV h_FOV v_FOV s)) with (ros_reads s).
    change (tryPath_use_tree ext (setFOV h_FOV v_FOV s)) with (tryPath_use_tree ext s).
    rewrite setFOV_set_ros_reads.
    destruct (tryPath_use_tree ext s _).
    + rewrite setFOV_upd_output. apply setFOV_getPathMsg.
    + rewrite setFOV_goFast, setFOV_upd_output. reflexivity.
  - apply setFOV_goFast.
  - apply setFOV_goFast.
  - apply setFOV_backOff.
Qed.

Lemma setFOV_calculateWaypoint (s : WaypointGenerator) :
  calculateWaypoint ext (setFOV h_FOV v_FOV s)
  = setFOV h_FOV v_FOV (calculateWaypoint ext s).
Proof.
  unfold calculateWaypoint.
  assert (B : calculateWaypoint_begin (setFOV h_FOV v_FOV s)
              = setFOV h_FOV v_FOV (calculateWaypoint_begin s))
    by (destruct s; reflexivity).
  rewrite B, setFOV_dispatch.
  generalize (dispatch ext (calculateWaypoint_begin s)). intros d.
  destruct d; reflexivity.
Qed.

Lemma setFOV_output (c : WaypointGenerator) :
  output_ (setFOV h_FOV v_FOV c) = output_ c.
Proof. reflexivity. Qed.

Lemma setFOV_updateState_idx (s : WaypointGenerator)
  (act_pose goal : PoseStamped) (vel : Twist) (stay : bool) (t : RosTime) :
  let rpy := getRPY ext (orientation act_pose) in
  z_FOV_idx_ (updateState ext act_pose goal vel stay t (setFOV h_FOV v_FOV s))
  = fst (fst (calculateFOV ext h_FOV v_FOV (snd rpy) (snd (fst rpy)))).
Proof.
  cbv zeta. unfold updateState, setFOV. destruct stay, (Rgtb _ _); reflexivity.
Qed.

(** X15.  [setFOV] only stores the two angles. The visible indices that the
    speed adaptation tests are those computed by the last [updateState]: a
    tick after [setFOV] publishes what it would have published without it, and
    the next [updateState] computes the visible indices from the new angles. *)
Theorem setFOV_waits_for_updateState (s : WaypointGenerator)
  (act_pose goal : PoseStamped) (vel : Twist) (stay : bool) (t : RosTime) :
  fst (getWaypoints ext (setFOV h_FOV v_FOV s)) = fst (getWaypoints ext s)
  /\ snd (getWaypoints ext (setFOV h_FOV v_FOV s))
     = setFOV h_FOV v_FOV (snd (getWaypoints ext s))
  /\ z_FOV_idx_ (setFOV h_FOV v_FOV s) = z_FOV_idx_ s
  /\ (let rpy := getRPY ext (orientation act_pose) in
      z_FOV_idx_ (updateState ext act_pose goal vel stay t (setFOV h_FOV v_FOV s))
      = fst (fst (calculateFOV ext h_FOV v_FOV (snd rpy) (snd (fst rpy))))).
Proof.
  rewrite (getWaypoints_eq ext s), (getWaypoints_eq ext (setFOV h_FOV v_FOV s)).
  cbn [fst snd]. rewrite setFOV_calculateWaypoint.
  split; [apply setFOV_output |]. split; [reflexivity |]. split; [reflexivity |].
  apply setFOV_updateState_idx.
Qed.

End SetFOV.

(** ** Ticks with the jerk limit switched off *)

Section Unlimited.

Variable ext : Externals.

Lemma smooth_max_jerk_inputs (s t : WaypointGenerator) :
  curr_vel_ t = curr_vel_ s ->
  max_jerk_limit_param_ t = max_jerk_limit_param_ s ->
  min_jerk_limit_param_ t = min_jerk_limit_param_ s ->
  smooth_max_jerk t = smooth_max_jerk s.
Proof.
  intros Hv Hmax Hmin. unfold smooth_max_jerk, smooth_vel_cur_xy.
  rewrite Hv, Hmax, Hmin. reflexivity.
Qed.

Lemma getPathMsg_unlimited (u : WaypointGenerator) :
  reach_altitude (planner_info_ u) = true ->
  smooth_max_jerk u <= 0.001 ->
  reached_goal_ (getPathMsg ext u) = false ->
  smoothed_goto_position (output_ (getPathMsg ext u))
  = adapted_goto_position (output_ (getPathMsg ext u)).
Proof.
  intros Ha Hj. unfold getPathMsg.
  pose proof (getPathMsg_assemble_adapted ext (getPathMsg_target ext u)) as Aa.
  destruct (getPathMsg_assemble_spec ext (getPathMsg_target ext u))
    as (_ & Ar & _ & _ & As & _).
  cbv zeta in Ar, As. rewrite <- Ar in As.
  assert (Ht : smoothed_goto_position (output_ (getPathMsg_target ext u))
               = adapted_goto_position (output_ (getPathMsg_target ext u))).
  { rewrite (getPathMsg_target_smooths ext u Ha).
    destruct (adapted_stage_frame ext u) as (I & _). cbv zeta in I.
    destruct (path_dt_cases u) as (_ & _ & Hdt). revert Hdt. generalize (path_dt u).
    revert I.
    generalize (upd_output
                  (fun o => set_smoothed_goto_position (adapted_goto_position o) o)
                  (adaptSpeed ext
                     (set_new_yaw_ (nextYaw ext (pose_ u) (goto_position (output_ u)))
                        (upd_output
                           (fun o => set_adapted_goto_position (goto_position o) o) u)))).
    intros a I dt Hdt.
    rewrite (proj2 (smoothWaypoint_speed_state dt a)).
    apply smoothWaypoint_unlimited; [lra |].
    rewrite (smooth_max_jerk_inputs u a (si_curr_vel I) (si_max_jerk I) (si_min_jerk I)).
    exact Hj. }
  revert Aa As Ht. generalize (getPathMsg_target ext u). intros t Aa As Ht.
  revert Aa As. generalize (getPathMsg_assemble ext t). intros p Aa As Hr.
  rewrite Hr in As. rewrite As, Aa. exact Ht.
Qed.

(** X16.  With the jerk limit switched off (a computed maximum jerk of at most
    0.001, as with both jerk parameters at 0) the smoother changes nothing: at
    the target altitude, in every mode but [goBack] and short of the goal, the
    published position is the speed-adapted goal point. *)
Theorem unlimited_jerk_publishes_adapted (s : WaypointGenerator) :
  waypoint_type (planner_info_ s) <> goBack ->
  reach_altitude (planner_info_ s) = true ->
  smooth_max_jerk s <= 0.001 ->
  let out := fst (getWaypoints ext s) in
  let s' := snd (getWaypoints ext s) in
  reached_goal_ s' = false ->
  smoothed_goto_position out = adapted_goto_position out
  /\ position_waypoint out = createPoseMsg ext (adapted_goto_position out) (new_yaw_ s').
Proof.
  intros Hmode Ha Hj. cbv zeta. rewrite getWaypoints_eq, calculateWaypoint_eq.
  cbn [fst snd].
  destruct (calculateWaypoint_begin_keeps s)
    as (_ & _ & _ & _ & Bv & Bi & _ & _ & _).
  destruct (calculateWaypoint_begin_inputs s) as (_ & _ & _ & _ & Bmax & Bmin & _).
  cbv zeta in Bv, Bi, Bmax, Bmin.
  rewrite <- Bi in Hmode, Ha.
  rewrite <- (smooth_max_jerk_inputs s (calculateWaypoint_begin s) Bv Bmax Bmin) in Hj.
  clear Bv Bi Bmax Bmin. revert Hmode Ha Hj. generalize (calculateWaypoint_begin s).
  intros b Hmode Ha Hj.
  destruct (dispatch_shape ext b Hmode) as (g & h & n & _ & Hrun).
  cbv zeta in Hrun.
  pose proof (getPathMsg_unlimited
                (upd_output (set_goto_position g)
                   (set_hover_position_ h (set_ros_reads n b))) Ha Hj) as Hu.
  destruct (getPathMsg_cruise ext
              (upd_output (set_goto_position g)
                 (set_hover_position_ h (set_ros_reads n b))) Ha) as (_ & _ & Hp).
  cbv zeta in Hp.
  revert Hrun Hu Hp.
  generalize (getPathMsg ext
                (upd_output (set_goto_position g)
                   (set_hover_position_ h (set_ros_reads n b)))).
  intros p Hrun Hu Hp.
  destruct (calculateWaypoint_end_output (dispatch ext b)) as (Ho & _).
  destruct (calculateWaypoint_end_goal_state (dispatch ext b)) as (Hr & _ & Hn).
  rewrite Ho, Hr, Hn. clear Ho Hr Hn.
  assert (K : smoothed_goto_position (output_ (dispatch ext b))
              = smoothed_goto_position (output_ p)
              /\ adapted_goto_position (output_ (dispatch ext b))
                 = adapted_goto_position (output_ p)
              /\ position_waypoint (output_ (dispatch ext b))
                 = position_waypoint (output_ p)
              /\ reached_goal_ (dispatch ext b) = reached_goal_ p
              /\ new_yaw_ (dispatch ext b) = new_yaw_ p)
    by (destruct Hrun as [-> | (_ & ->)]; repeat split; reflexivity).
  destruct K as (K1 & K2 & K3 & K4 & K5). rewrite K1, K2, K3, K4, K5.
  intros Hf. split; [exact (Hu Hf) | rewrite <- (Hu Hf); exact Hp].
Qed.

End Unlimited.

(** ** Ticks in [costmap] mode, and the delay compensation *)

Section Costmap.

Variable ext : Externals.

(** X17.  In [costmap] mode at the target altitude the raw goal point of the
    tick is the planner's direction (elevation, azimuth) at radius 1,
    converted from the position the planner stored with its directive, not
    from the pose of the last state update. *)
Theorem costmap_goal_point (s : WaypointGenerator) :
  waypoint_type (planner_info_ s) = costmap ->
  reach_altitude (planner_info_ s) = true ->
  goto_position (fst (getWaypoints ext s)) =
  toPoint
    (fromPolarToCartesian ext
       (costmap_direction_e (planner_info_ s)) (costmap_direction_z (planner_info_ s))
       1 (position (pose (planner_info_ s)))).
Proof.
  intros Hmode Ha. rewrite getWaypoints_eq, calculateWaypoint_eq. cbn [fst].
  destruct (calculateWaypoint_end_output (dispatch ext (calculateWaypoint_begin s)))
    as (Ho & _).
  rewrite Ho.
  destruct (calculateWaypoint_begin_keeps s)
    as (_ & _ & _ & _ & _ & Bi & _ & _ & _).
  cbv zeta in Bi. rewrite <- Bi in *.
  clear Bi Ho. revert Hmode Ha. generalize (calculateWaypoint_begin s).
  intros b Hmode Ha.
  unfold dispatch. rewrite Hmode.
  exact (proj2 (getPathMsg_frame ext
                  (upd_output
                     (set_goto_position
                        (toPoint
                           (fromPolarToCartesian ext
                              (costmap_direction_e (planner_info_ b))
                              (costmap_direction_z (planner_info_ b)) 1
                              (position (pose (planner_info_ b))))))
                     b)) Ha).
Qed.

(** X18.  The delay compensation after a state update. [updateState] stores
    the time of the update and the magnitude of the velocity; [adaptSpeed]
    adds to the speed the time from the update to its third clock reading
    times that magnitude. With a clock that has not run backwards since the
    update this term is not negative, so unless the close-to-goal limit is on
    the speed that scales the step is at least the speed left by the FOV
    block. *)
Theorem delay_compensation_adds (act_pose goal : PoseStamped) (vel : Twist)
  (stay : bool) (t : RosTime) (s : WaypointGenerator) :
  let s1 := updateState ext act_pose goal vel stay t s in
  (t <= ros_clock s (S (S (ros_reads s))))%Z ->
  let delta_dist :=
    toSec (ros_clock s (S (S (ros_reads s))) - t)%Z * norm (linear vel) in
  let v2 := speed_ (adaptSpeed_FOV ext (adaptSpeed_envelope ext s1)) in
  0 <= delta_dist
  /\ (limit_speed_close_to_goal_ (adaptSpeed ext s1) = false ->
      speed_ (adaptSpeed ext s1) = v2 + delta_dist
      /\ v2 <= speed_ (adaptSpeed ext s1)).
Proof.
  cbv zeta. intros Hclock.
  assert (Hd : 0 <= toSec (ros_clock s (S (S (ros_reads s))) - t)%Z * norm (linear vel)).
  { apply Rmult_le_pos; [| apply norm_nonneg].
    unfold toSec. apply Rmult_le_pos; [apply IZR_le; lia |].
    apply Rlt_le, Rinv_0_lt_compat. lra. }
  split; [exact Hd |].
  assert (U : update_time_ (updateState ext act_pose goal vel stay t s) = t
              /\ curr_vel_magnitude_ (updateState ext act_pose goal vel stay t s)
                 = norm (linear vel)
              /\ ros_clock (updateState ext act_pose goal vel stay t s) = ros_clock s
              /\ ros_reads (updateState ext act_pose goal vel stay t s) = ros_reads s)
    by (unfold updateState; destruct stay, (Rgtb _ _); repeat split; reflexivity).
  destruct U as (Ut & Um & Uc & Ur).
  pose proof (adaptSpeed_speed ext (updateState ext act_pose goal vel stay t s)) as Hv.
  pose proof (adaptSpeed_limit_flag ext (updateState ext act_pose goal vel stay t s)) as Hf.
  cbv zeta in Hv, Hf. rewrite <- Hf in Hv. clear Hf.
  rewrite Ut, Um, Uc, Ur in Hv. clear Ut Um Uc Ur.
  revert Hv. generalize (updateState ext act_pose goal vel stay t s). intros s1 Hv Hl.
  rewrite Hl in Hv. rewrite Hv. split; [reflexivity | lra].
Qed.

End Costmap.

Lemma cruising_unlimited_not_reached (ext : Externals) :
  reached_goal_ (snd (getWaypoints ext cruising_unlimited)) = false.
Proof.
  rewrite getWaypoints_eq. cbn [snd].
  rewrite calculateWaypoint_reached by discriminate.
  unfold sqrd_dist_to_goal, sqrd_radius_in, sqrd_radius_out, Rgtb.
  change (goal_ cruising_unlimited) with (mkV3 0 20 0).
  change (position (pose_ cruising_unlimited)) with (mkV3 0 0 0).
  change (goal_acceptance_radius_in (param_ cruising_unlimited)) with 0.5.
  change (goal_acceptance_radius_out (param_ cruising_unlimited)) with 1.5.
  rewrite (sqrd_dist32_int 0 20 0 0 0 0 400) by (lia || reflexivity).
  rewrite example_sqrd_radius_in, example_sqrd_radius_out.
  replace (Rltb 400 0.25) with false by (symmetry; apply Rltb_false; lra).
  replace (Rltb 2.25 400) with true by (symmetry; apply Rltb_true; lra).
  reflexivity.
Qed.

(** X16 at work: with the limit at 0 the tick of [cruising_unlimited]
    publishes the adapted point. *)
Lemma unlimited_jerk_publishes_adapted_example :
  waypoint_type (planner_info_ cruising_unlimited) <> goBack
  /\ reach_altitude (planner_info_ cruising_unlimited) = true
  /\ smooth_max_jerk cruising_unlimited <= 0.001
  /\ reached_goal_ (snd (getWaypoints example_externals cruising_unlimited)) = false
  /\ smoothed_goto_position (fst (getWaypoints example_externals cruising_unlimited))
     = adapted_goto_position (fst (getWaypoints example_externals cruising_unlimited)).
Proof.
  assert (Hm : waypoint_type (planner_info_ cruising_unlimited) <> goBack)
    by discriminate.
  assert (Hj : smooth_max_jerk cruising_unlimited <= 0.001).
  { unfold smooth_max_jerk. cbn. Rdecide. }
  pose proof (cruising_unlimited_not_reached example_externals) as Hr.
  split; [exact Hm |]. split; [reflexivity |]. split; [exact Hj |].
  split; [exact Hr |].
  exact (proj1 (unlimited_jerk_publishes_adapted example_externals cruising_unlimited
                  Hm eq_refl Hj Hr)).
Defined.

(** X17 at work: [following_costmap]: the planner's position is (5,5,5), the
    example conversion steps one radius along +y from it. *)
Lemma costmap_goal_point_example :
  waypoint_type (planner_info_ following_costmap) = costmap
  /\ reach_altitude (planner_info_ following_costmap) = true
  /\ goto_position (fst (getWaypoints example_externals following_costmap))
     = mkV3 5 (5 + 1) 5.
Proof.
  split; [reflexivity |]. split; [reflexivity |].
  rewrite (costmap_goal_point example_externals following_costmap eq_refl eq_refl).
  reflexivity.
Defined.

(** X18 at work: an update at time 0 with the velocity (0,3,0), read by a
    clock 0.1 s later: the compensation is not negative. *)
Lemma delay_compensation_adds_example :
  (0 <= ros_clock cruising (S (S (ros_reads cruising))))%Z
  /\ 0 <= toSec (ros_clock cruising (S (S (ros_reads cruising))) - 0)%Z
          * norm (linear (mkTwist (mkV3 0 3 0) origin)).
Proof.
  assert (Hc : (0 <= ros_clock cruising (S (S (ros_reads cruising))))%Z)
    by (cbn; lia).
  split; [exact Hc |].
  exact (proj1 (delay_compensation_adds example_externals (pose_at origin)
                  (pose_at (mkV3 0 20 0)) (mkTwist (mkV3 0 3 0) origin) false 0%Z
                  cruising Hc)).
Defined.
(** ** Two ticks on the same inputs *)

Section Settle.

Variable ext : Externals.

(** The close-to-goal flag after a tick that runs [getPathMsg]. *)
Lemma calculateWaypoint_limit_flag (s : WaypointGenerator) :
  waypoint_type (planner_info_ s) <> goBack ->
  let pos_to_goal := cwiseAbs (vsub (goal_ s) (toEigen (position (pose_ s)))) in
  let start :=
    factor_close_to_goal_start_speed_limitation (param_ s) * curr_vel_magnitude_ s in
  let stop :=
    factor_close_to_goal_stop_speed_limitation (param_ s) * curr_vel_magnitude_ s in
  limit_speed_close_to_goal_ (calculateWaypoint ext s) =
  if Rltb (x pos_to_goal) start && Rltb (y pos_to_goal) start then true
  else if Rgtb (x pos_to_goal) stop || Rgtb (y pos_to_goal) stop then false
  else limit_speed_close_to_goal_ s.
Proof.
  intros Hmode. cbv zeta.
  destruct (tick_via_adaptSpeed ext s Hmode)
    as (a & (Ap & Ag & Aq & _ & Am & Al & _) & S & _).
  pose proof (adaptSpeed_limit_flag ext a) as Hf. cbv zeta in Hf.
  rewrite <- (ss_limit_speed S) in Hf.
  rewrite Ap, Ag, Aq, Am, Al in Hf. exact Hf.
Qed.

(** X19.  The two sticky flags settle in one tick. When a second tick follows
    with no state update or directive in between, in any mode but [goBack],
    the goal flag and the close-to-goal flag keep the values the first tick
    gave them: on the same pose, goal and speed magnitude neither flag flips
    back. *)
Theorem flags_settle (s : WaypointGenerator) :
  waypoint_type (planner_info_ s) <> goBack ->
  let s1 := snd (getWaypoints ext s) in
  let s2 := snd (getWaypoints ext s1) in
  reached_goal_ s2 = reached_goal_ s1
  /\ limit_speed_close_to_goal_ s2 = limit_speed_close_to_goal_ s1.
Proof.
  intros Hmode. cbv zeta.
  rewrite (getWaypoints_eq ext s). cbn [snd].
  pose proof (calculateWaypoint_reached ext s Hmode) as R1.
  pose proof (calculateWaypoint_limit_flag s Hmode) as L1. cbv zeta in L1.
  destruct (calculateWaypoint_keeps ext s)
    as (Ki & Kq & Kp & _ & Kg & _ & Km & _).
  cbv zeta in Ki, Kq, Kp, Kg, Km.
  rewrite <- Ki in Hmode.
  revert Hmode R1 L1 Kq Kp Kg Km. clear Ki.
  generalize (calculateWaypoint ext s). intros s1 Hmode R1 L1 Kq Kp Kg Km.
  rewrite (getWaypoints_eq ext s1). cbn [snd].
  pose proof (calculateWaypoint_reached ext s1 Hmode) as R2.
  pose proof (calculateWaypoint_limit_flag s1 Hmode) as L2. cbv zeta in L2.
  unfold sqrd_dist_to_goal, sqrd_radius_in, sqrd_radius_out in R1, R2.
  rewrite Kq, Kp, Kg in R2. rewrite Kq, Kp, Kg, Km in L2.
  revert R2 L2. generalize (calculateWaypoint ext s1). intros s2 R2 L2.
  split.
  - clear L1 L2. rewrite R2. revert R1.
    destruct (Rltb _ _); [intros ->; reflexivity |].
    destruct (Rgtb _ _); [intros ->; reflexivity | reflexivity].
  - clear R1 R2. rewrite L2. revert L1.
    destruct (_ && _); [intros ->; reflexivity |].
    destruct (_ || _); [intros ->; reflexivity | reflexivity].
Qed.

End Settle.

(** X19 at work: [near_goal] ends its first tick with the close-to-goal flag
    set, and the second tick keeps it. *)
Lemma flags_settle_example :
  waypoint_type (planner_info_ near_goal) <> goBack
  /\ limit_speed_close_to_goal_
       (snd (getWaypoints example_externals
               (snd (getWaypoints example_externals near_goal))))
     = limit_speed_close_to_goal_ (snd (getWaypoints example_externals near_goal)).
Proof.
  assert (Hm : waypoint_type (planner_info_ near_goal) <> goBack) by discriminate.
  split; [exact Hm |].
  exact (proj2 (flags_settle example_externals near_goal Hm)).
Defined.
(** ** The three rounded tests on their thresholds

    In each state below the exact distance lies on one side of the
    threshold and the distance the code computes on the other, or on the
    threshold itself; the code follows the computed one. *)

Lemma sqrd_dist32_x_axis (g p : R) :
  squaredNorm32 (vsub32 (mkV3 g 0 0) (toEigen32 (mkV3 p 0 0)))
  = round32 (round32 (round32 (g - round32 p) * round32 (g - round32 p))).
Proof.
  unfold squaredNorm32, vsub32, toEigen32, add32, sub32, mul32. cbn [x y z].
  rewrite round32_0. replace (0 - 0) with 0 by lra. rewrite round32_0.
  replace (0 * 0) with 0 by lra. rewrite round32_0.
  replace (0 + 0) with 0 by lra. rewrite round32_0, Rplus_0_r. reflexivity.
Qed.

Lemma round32_just_below_half : round32 0.499999999 = 0.5.
Proof.
  unfold round32.
  rewrite (round_to_eq 24 (-149) 0.499999999 (-2) 16777216).
  - change (Z.max (-2 - 24 + 1) (-149)) with (-25)%Z. bpow_num. lra.
  - change (-2 + 1)%Z with (-1)%Z. rewrite Rabs_pos_eq by lra. bpow_num. lra.
  - change (Z.max (-2 - 24 + 1) (-149)) with (-25)%Z. bpow_num.
    apply Rabs_def1; lra.
Qed.

Lemma just_inside_sqrd_dist : sqrd_dist_to_goal just_inside = 0.25.
Proof.
  unfold sqrd_dist_to_goal.
  change (goal_ just_inside) with (mkV3 0 0 0).
  change (position (pose_ just_inside)) with (mkV3 0.499999999 0 0).
  rewrite sqrd_dist32_x_axis, round32_just_below_half.
  replace (0 - 0.5) with (-0.5) by lra.
  rewrite (round32_exact (-0.5) (-1) (-1)) by round_side.
  replace (-0.5 * -0.5) with 0.25 by lra.
  rewrite !(round32_exact 0.25 1 (-2)) by round_side. reflexivity.
Qed.

(** A position 0.499999999 from the goal is nearer than the inner radius
    0.5, but it narrows to 0.5 in single precision: the squared distance
    computed is 0.25, which is not below the squared radius, and the goal
    flag is not set. *)
Lemma just_inside_not_reached (ext : Externals) :
  norm (vsub (goal_ just_inside) (toEigen (position (pose_ just_inside))))
  < goal_acceptance_radius_in (param_ just_inside)
  /\ sqrd_dist_to_goal just_inside = sqrd_radius_in just_inside
  /\ reached_goal_ (snd (getWaypoints ext just_inside)) = false.
Proof.
  assert (Hin : sqrd_radius_in just_inside = 0.25) by exact example_sqrd_radius_in.
  assert (Hout : sqrd_radius_out just_inside = 2.25) by exact example_sqrd_radius_out.
  split; [| split].
  - change (goal_acceptance_radius_in (param_ just_inside)) with 0.5.
    unfold norm, squaredNorm, vsub, toEigen.
    change (goal_ just_inside) with (mkV3 0 0 0).
    change (position (pose_ just_inside)) with (mkV3 0.499999999 0 0).
    cbn [x y z].
    replace ((0 - 0.499999999) * (0 - 0.499999999) + (0 - 0) * (0 - 0)
             + (0 - 0) * (0 - 0)) with (0.499999999 * 0.499999999) by lra.
    rewrite sqrt_square by lra. lra.
  - rewrite just_inside_sqrd_dist, Hin. reflexivity.
  - rewrite getWaypoints_eq. cbn [snd].
    rewrite calculateWaypoint_reached by discriminate.
    rewrite just_inside_sqrd_dist, Hin, Hout. unfold Rgtb.
    replace (Rltb 0.25 0.25) with false by (symmetry; apply Rltb_false; lra).
    replace (Rltb 2.25 0.25) with false by (symmetry; apply Rltb_false; lra).
    reflexivity.
Qed.

Lemma round32_minus_billionth :
  round32 (-0.000000001) = - (9007199 / 9007199254740992).
Proof.
  unfold round32.
  rewrite (round_to_eq 24 (-149) (-0.000000001) (-30) (-9007199)).
  - change (Z.max (-30 - 24 + 1) (-149)) with (-53)%Z. bpow_num. lra.
  - change (-30 + 1)%Z with (-29)%Z.
    rewrite Rabs_left by lra. bpow_num. lra.
  - change (Z.max (-30 - 24 + 1) (-149)) with (-53)%Z. bpow_num.
    apply Rabs_def1; lra.
Qed.

Lemma round32_four_and_a_bit : round32 (4 - - (9007199 / 9007199254740992)) = 4.
Proof.
  unfold round32.
  rewrite (round_to_eq 24 (-149) _ 2 8388608).
  - change (Z.max (2 - 24 + 1) (-149)) with (-21)%Z. bpow_num. lra.
  - change (2 + 1)%Z with 3%Z. rewrite Rabs_pos_eq by lra. bpow_num. lra.
  - change (Z.max (2 - 24 + 1) (-149)) with (-21)%Z. bpow_num.
    apply Rabs_def1; lra.
Qed.

Lemma just_beyond_four_dist : dist_to_goal32 just_beyond_four = 4.
Proof.
  unfold dist_to_goal32, norm32, sqrt32.
  change (goal_ just_beyond_four) with (mkV3 4 0 0).
  change (position (pose_ just_beyond_four)) with (mkV3 (-0.000000001) 0 0).
  rewrite sqrd_dist32_x_axis, round32_minus_billionth, round32_four_and_a_bit.
  replace (4 * 4) with 16 by lra.
  rewrite !(round32_IZR 16) by reflexivity.
  replace 16 with (4 * 4) by lra. rewrite sqrt_square by lra.
  apply (round32_IZR 4). reflexivity.
Qed.

(** The goal is more than 4 from a vehicle a billionth of a unit behind the
    origin, but the distance computed in single precision is 4: with no
    obstacle ahead the tree's direction is not used, however fresh the
    path. *)
Lemma just_beyond_four_falls_back (t : RosTime) :
  norm (vsub (goal_ just_beyond_four) (toEigen (position (pose_ just_beyond_four)))) > 4
  /\ dist_to_goal32 just_beyond_four = 4
  /\ fst (getDirectionFromTree example_externals
            (path_node_positions (planner_info_ just_beyond_four))
            (toEigen (position (pose_ just_beyond_four)))) = true
  /\ tryPath_use_tree example_externals just_beyond_four t = false.
Proof.
  split; [| split; [exact just_beyond_four_dist | split; [reflexivity |]]].
  - unfold norm, squaredNorm, vsub, toEigen.
    change (goal_ just_beyond_four) with (mkV3 4 0 0).
    change (position (pose_ just_beyond_four)) with (mkV3 (-0.000000001) 0 0).
    cbn [x y z].
    replace ((4 - -0.000000001) * (4 - -0.000000001) + (0 - 0) * (0 - 0)
             + (0 - 0) * (0 - 0)) with (4.000000001 * 4.000000001) by lra.
    rewrite sqrt_square by lra. lra.
  - pose proof just_beyond_four_dist as Hd.
    unfold tryPath_use_tree. unfold dist_to_goal32 in Hd. rewrite Hd.
    change (obstacle_ahead (planner_info_ just_beyond_four)) with false.
    replace (Rgtb 4 4) with false by (symmetry; apply Rltb_false; lra).
    cbn [orb]. rewrite andb_false_r. reflexivity.
Qed.

Lemma round32_nudge : round32 0.09999999999 = 13421773 / 134217728.
Proof.
  unfold round32.
  rewrite (round_to_eq 24 (-149) 0.09999999999 (-4) 13421773).
  - change (Z.max (-4 - 24 + 1) (-149)) with (-27)%Z. bpow_num. lra.
  - change (-4 + 1)%Z with (-3)%Z. rewrite Rabs_pos_eq by lra. bpow_num. lra.
  - change (Z.max (-4 - 24 + 1) (-149)) with (-27)%Z. bpow_num.
    apply Rabs_def1; lra.
Qed.

Lemma round32_nudge_sqr :
  round32 (- (13421773 / 134217728) * - (13421773 / 134217728))
  = 10737419 / 1073741824.
Proof.
  unfold round32.
  rewrite (round_to_eq 24 (-149) _ (-7) 10737419).
  - change (Z.max (-7 - 24 + 1) (-149)) with (-30)%Z. bpow_num. lra.
  - change (-7 + 1)%Z with (-6)%Z. rewrite Rabs_pos_eq by lra. bpow_num. lra.
  - change (Z.max (-7 - 24 + 1) (-149)) with (-30)%Z. bpow_num.
    apply Rabs_def1; lra.
Qed.

Lemma sqrt_between (v lo hi : R) :
  0 <= lo -> lo * lo < v -> v < hi * hi -> 0 <= hi -> lo < sqrt v < hi.
Proof.
  intros Hlo H1 H2 Hhi.
  assert (Hv : 0 <= v) by nra.
  split.
  - rewrite <- (sqrt_square lo) by exact Hlo. apply sqrt_lt_1_alt. nra.
  - rewrite <- (sqrt_square hi) by exact Hhi. apply sqrt_lt_1_alt. lra.
Qed.

Lemma round32_nudge_sqrt :
  round32 (sqrt (10737419 / 1073741824)) = 13421773 / 134217728.
Proof.
  assert (Hs : 13421772.5 / 134217728 < sqrt (10737419 / 1073741824)
               < 13421773.5 / 134217728)
    by (apply sqrt_between; lra).
  revert Hs. generalize (sqrt (10737419 / 1073741824)). intros r Hs.
  unfold round32.
  rewrite (round_to_eq 24 (-149) r (-4) 13421773).
  - change (Z.max (-4 - 24 + 1) (-149)) with (-27)%Z. bpow_num. lra.
  - change (-4 + 1)%Z with (-3)%Z. rewrite Rabs_pos_eq by lra. bpow_num. lra.
  - change (Z.max (-4 - 24 + 1) (-149)) with (-27)%Z. bpow_num.
    apply Rabs_def1; lra.
Qed.

Lemma goal_nudged_moved : goal_moved32 arrived goal_nudged = 13421773 / 134217728.
Proof.
  unfold goal_moved32, norm32, sqrt32.
  change (goal_ arrived) with (mkV3 0 0 0).
  change (position goal_nudged) with (mkV3 0.09999999999 0 0).
  rewrite sqrd_dist32_x_axis, round32_nudge.
  replace (0 - 13421773 / 134217728) with (- (13421773 / 134217728)) by lra.
  rewrite (round32_exact (- (13421773 / 134217728)) (-13421773) (-27)) by round_side.
  rewrite round32_nudge_sqr.
  rewrite (round32_exact (10737419 / 1073741824) 10737419 (-30)) by round_side.
  exact round32_nudge_sqrt.
Qed.

(** A goal moved by 0.09999999999 has moved by less than 0.1, but the
    distance computed in single precision is the single nearest to 0.1,
    which is above the double 0.1 it is compared with: both flags are
    cleared. *)
Lemma goal_nudged_resets (ext : Externals) (act_pose : PoseStamped) (vel : Twist)
  (stay : bool) (t : RosTime) :
  norm (vsub (goal_ arrived) (toEigen (position goal_nudged))) <= 0.1
  /\ goal_moved32 arrived goal_nudged > round64 0.1
  /\ reached_goal_ arrived = true
  /\ limit_speed_close_to_goal_ arrived = true
  /\ reached_goal_ (updateState ext act_pose goal_nudged vel stay t arrived) = false
  /\ limit_speed_close_to_goal_
       (updateState ext act_pose goal_nudged vel stay t arrived) = false.
Proof.
  assert (Hm : goal_moved32 arrived goal_nudged > round64 0.1)
    by (rewrite goal_nudged_moved, round64_tenth; lra).
  split; [| split; [exact Hm | split; [reflexivity | split; [reflexivity |]]]].
  - unfold norm, squaredNorm, vsub, toEigen.
    change (goal_ arrived) with (mkV3 0 0 0).
    change (position goal_nudged) with (mkV3 0.09999999999 0 0).
    cbn [x y z].
    replace ((0 - 0.09999999999) * (0 - 0.09999999999) + (0 - 0) * (0 - 0)
             + (0 - 0) * (0 - 0)) with (0.09999999999 * 0.09999999999) by lra.
    rewrite sqrt_square by lra. lra.
  - unfold goal_moved32 in Hm. apply Rltb_true in Hm.
    unfold updateState, Rgtb. rewrite Hm. destruct stay; split; reflexivity.
Qed.

(** ** The FOV slowdown across the seam *)

(** C6 (code bug).  At the resolution of 6 degrees the azimuth indices run
    from 0 (at -180 degrees) to 59 (up to +180 degrees), and index 59 is
    the neighbour of index 0 across the seam.  In [facing_seam] the
    candidate has index 59, the visible indices are 0 to 9, the target
    altitude is reached and the goal is not.  The angular distance to the
    nearest visible index is 6 degrees, for which the speed 3 left by the
    envelope step is to be scaled by [1 - 6/30] to 2.4.  The code subtracts
    the index numbers instead: the least difference is 50, the angle 300
    degrees is capped at 30, the speed becomes 0 and the yaw-only flag is
    set. *)
Theorem fov_slowdown_seam :
  let ext := seam_externals in
  let s := facing_seam in
  let e := adaptSpeed_envelope ext s in
  let spec_angle := spec_fov_angle_diff (ALPHA_RES ext) (z_FOV_idx_ s) 59 in
  adaptSpeed_z_index ext s = 59%Z
  /\ existsb (Z.eqb (adaptSpeed_z_index ext s)) (z_FOV_idx_ s) = false
  /\ reach_altitude (planner_info_ s) = true
  /\ reached_goal_ s = false
  /\ speed_ e = 3
  /\ spec_index_angle (ALPHA_RES ext) 0 59 = 6%Z
  /\ spec_angle = 6
  /\ speed_ e * (1 - spec_angle / 30) = 2.4
  /\ fov_ind_dist (z_FOV_idx_ s) 59 = 50%Z
  /\ fov_angle_diff ext (z_FOV_idx_ s) 59 = 30
  /\ speed_ (adaptSpeed_FOV ext e) = 0
  /\ only_yawed_ (adaptSpeed ext s) = true.
Proof.
  cbv zeta.
  assert (Hz : adaptSpeed_z_index seam_externals facing_seam = 59%Z) by reflexivity.
  assert (Hout : existsb (Z.eqb (adaptSpeed_z_index seam_externals facing_seam))
                   (z_FOV_idx_ facing_seam) = false) by reflexivity.
  assert (He : speed_ (adaptSpeed_envelope seam_externals facing_seam) = 3).
  { rewrite adaptSpeed_envelope_speed.
    cbn [facing_seam planner_info_ example_directive obstacle_ahead max_speed min_speed
         velocity_sigmoid_slope speed_ ros_clock ros_reads velocity_time_
         velocityLinear seam_externals].
    replace (100000000 - 0)%Z with 100000000%Z by reflexivity.
    rewrite toSec_tenth. unfold velocityLinear_ramp. Rdecide. }
  assert (Hspec : spec_fov_angle_diff (ALPHA_RES seam_externals)
                    (z_FOV_idx_ facing_seam) 59 = 6).
  { unfold spec_fov_angle_diff.
    replace (fold_left _ _ _) with 6%Z by reflexivity.
    apply Rmin_left. lra. }
  assert (Hcode : fov_angle_diff seam_externals (z_FOV_idx_ facing_seam) 59 = 30).
  { unfold fov_angle_diff.
    replace (Z.abs _) with 300%Z by reflexivity.
    apply Rmin_right. lra. }
  destruct (adaptSpeed_envelope_frame seam_externals facing_seam) as (Ie & Ge).
  pose proof (adaptSpeed_z_index_envelope seam_externals facing_seam) as Hze.
  assert (Hout' : existsb
                    (Z.eqb (adaptSpeed_z_index seam_externals
                              (adaptSpeed_envelope seam_externals facing_seam)))
                    (z_FOV_idx_ (adaptSpeed_envelope seam_externals facing_seam)) = false)
    by (rewrite Hze, (si_z_FOV_idx Ie); exact Hout).
  assert (Halt' : reach_altitude
                    (planner_info_ (adaptSpeed_envelope seam_externals facing_seam)) = true)
    by (rewrite (si_planner_info Ie); reflexivity).
  assert (Hgoal' : reached_goal_ (adaptSpeed_envelope seam_externals facing_seam) = false)
    by (rewrite (sg_reached_goal Ge); reflexivity).
  destruct (adaptSpeed_FOV_outside seam_externals
              (adaptSpeed_envelope seam_externals facing_seam) Hout' Halt' Hgoal')
    as (Hs & Hy & _).
  cbv zeta in Hs, Hy. rewrite Hze, Hz, (si_z_FOV_idx Ie), Hcode, He in Hs, Hy.
  destruct (adaptSpeed_after_FOV
              (adaptSpeed_FOV seam_externals
                 (adaptSpeed_envelope seam_externals facing_seam))) as (Hkeep & _).
  cbv zeta in Hkeep.
  change (only_yawed_ (adaptSpeed seam_externals facing_seam)
          = only_yawed_ (adaptSpeed_FOV seam_externals
                           (adaptSpeed_envelope seam_externals facing_seam))) in Hkeep.
  split; [exact Hz |]. split; [exact Hout |]. split; [reflexivity |].
  split; [reflexivity |]. split; [exact He |]. split; [reflexivity |].
  split; [exact Hspec |]. split; [rewrite He, Hspec; lra |].
  split; [reflexivity |]. split; [exact Hcode |].
  split; [rewrite Hs; lra |].
  rewrite Hkeep, Hy. apply Rltb_true. lra.
Qed.
